(** * Boundary measurement: detection pipeline, geometry and calibration

    A shallow embedding of the measurement core of the repository
    ([image_processor.py], [area_calculator.py], [scale_detector.py]) and the
    properties its specification states about it.

    Numbers.  Python's [float] is modelled by exact arithmetic: by the
    rationals [Q] wherever the code only multiplies, divides, compares and
    rounds (so those definitions compute), and by the reals [R] where it
    takes square roots.  Binary rounding error, overflow, NaN and signed zero
    are outside the model.  Contour coordinates are integers, as
    [findContours] produces them; their differences and squares are taken
    in [Z], which is what [int32] arithmetic gives for images of less than
    32768 pixels a side.  [Geometry.radicand_int32] spells the 32-bit
    arithmetic out; it agrees with the exact one on every edge that
    satisfies [Geometry.no_wrap], and the theorems about a call on an
    arbitrary contour assume that of the edges the call visits.

    Arrays.  A contour reaches the code as a numpy array of shape
    [(N, 1, 2)].  Arrays carry their shape in the model, so that indexing
    and stacking succeed or raise as they do in numpy.

    Failure.  A Python call either returns a value or raises; [py_result]
    keeps the two apart, and indexing, dictionary access and division raise
    in the model where Python raises.

    The instance.  Methods are functions of the instance that hand the
    instance back with their outcome.

    OpenCV and the Python builtins are not part of the repository: the image
    type, [imread], the OpenCV calls of the two image stages and the [.2f]
    formatter are Section variables, and [cv2.contourArea] is given by the
    formula the specification states for it. *)

From Stdlib Require Import List String Ascii Bool Arith ZArith Lia.
From Stdlib Require Import QArith Qround Qabs.
From Stdlib Require Import Reals Qreals Psatz.
From Stdlib Require Import DecimalString.
Import ListNotations.

Set Implicit Arguments.

(* ================================================================= *)
(** ** The Python run time the code relies on *)

Module Py.

(** The exceptions the modelled code can raise. *)
Inductive exn : Type :=
| ValueError (msg : string)
| KeyError (key : string)
| TypeError (msg : string)
| IndexError
| ZeroDivisionError
| CvError.

(** Outcome of a call: a returned value or a raised exception. *)
Inductive py_result (A : Type) : Type :=
| Returns (a : A)
| Raises (e : exn).

Arguments Returns {A} a.
Arguments Raises {A} e.

Definition bind {A B : Type} (m : py_result A) (k : A -> py_result B)
  : py_result B :=
  match m with
  | Returns a => k a
  | Raises e => Raises e
  end.

Declare Scope py_scope.
Delimit Scope py_scope with py.
Notation "x <- m ;; k" := (bind m (fun x => k))
  (at level 61, m at next level, right associativity) : py_scope.

Local Open Scope py_scope.

Definition raises {A : Type} (r : py_result A) : Prop :=
  exists e, r = Raises e.

(** [str.lower()], byte by byte: an upper-case ASCII letter moves to its
    lower-case letter, every other byte stays.  Outside ASCII Python
    lowers further characters, none of them to a sequence of ASCII letters
    occurring in a unit name, so membership of the lowered string among the
    unit names is the same. *)
Definition lower_ascii (c : ascii) : ascii :=
  let n := nat_of_ascii c in
  if (65 <=? n)%nat && (n <=? 90)%nat then ascii_of_nat (n + 32) else c.

Fixpoint lower (s : string) : string :=
  match s with
  | EmptyString => EmptyString
  | String c t => String (lower_ascii c) (lower t)
  end.

(** A dict literal with string keys, in insertion order. *)
Definition dict (V : Type) : Type := list (string * V).

Fixpoint dict_get {V : Type} (d : dict V) (k : string) : option V :=
  match d with
  | [] => None
  | (k', v) :: rest => if String.eqb k k' then Some v else dict_get rest k
  end.

(** [k in d] *)
Definition dict_contains {V : Type} (d : dict V) (k : string) : bool :=
  match dict_get d k with
  | Some _ => true
  | None => false
  end.

(** [d[k]] *)
Definition dict_getitem {V : Type} (d : dict V) (k : string) : py_result V :=
  match dict_get d k with
  | Some v => Returns v
  | None => Raises (KeyError k)
  end.

(** [a / b] on floats. *)
Definition py_div (a b : Q) : py_result Q :=
  if Qeq_bool b 0 then Raises ZeroDivisionError else Returns (a / b)%Q.

(** [a > b] on floats. *)
Definition py_gt (a b : Q) : bool :=
  match (a ?= b)%Q with
  | Gt => true
  | _ => false
  end.

(** Nearest integer, ties to the even one. *)
Definition round_half_even (q : Q) : Z :=
  let f := Qfloor q in
  match ((q - inject_Z f) ?= (1 # 2))%Q with
  | Lt => f
  | Gt => (f + 1)%Z
  | Eq => if Z.even f then f else (f + 1)%Z
  end.

(** [round(x, ndigits)]: the multiple of [10^-ndigits] nearest to [x], a
    tie going to the even one.  Python rounds the binary64 value of [x],
    which for a product can lie just off a tie of the exact product
    (1.25 * 10.764); the theorems state what holds of both, that the
    result is such a multiple within half a unit of the exact value. *)
Definition py_round (x : Q) (ndigits : nat) : Q :=
  let scale := (10 ^ Z.of_nat ndigits)%Z in
  (inject_Z (round_half_even (x * inject_Z scale)) / inject_Z scale)%Q.

(** [max(items, key=key)]: the running maximum is replaced only by a
    strictly greater key. *)
Fixpoint max_loop {A : Type} (key : A -> py_result Q) (best : A) (best_key : Q)
    (rest : list A) : py_result A :=
  match rest with
  | [] => Returns best
  | x :: rest' =>
      k <- key x ;;
      if py_gt k best_key then max_loop key x k rest'
      else max_loop key best best_key rest'
  end.

Definition py_max_key {A : Type} (key : A -> py_result Q) (items : list A)
  : py_result A :=
  match items with
  | [] => Raises (ValueError "max() arg is an empty sequence")
  | x :: rest => k <- key x ;; max_loop key x k rest
  end.

(** [best] sits at index [ib] of [items], no element of [items] has a
    greater key, and every element before [ib] has a smaller one. *)
Definition first_largest {A : Type} (kv : A -> Q) (items : list A) (ib : nat)
    (best : A) : Prop :=
  nth_error items ib = Some best
  /\ (forall j y, nth_error items j = Some y -> (kv y <= kv best)%Q)
  /\ (forall j y, (j < ib)%nat -> nth_error items j = Some y ->
                  (kv y < kv best)%Q).

(** [[x for x in items if test(x)]] *)
Fixpoint filter_py {A : Type} (test : A -> py_result bool) (items : list A)
  : py_result (list A) :=
  match items with
  | [] => Returns []
  | x :: rest =>
      keep <- test x ;;
      kept <- filter_py test rest ;;
      Returns (if keep then x :: kept else kept)
  end.

(** [str(n)] for a non-negative integer. *)
Definition str_of_nat (n : nat) : string :=
  NilZero.string_of_uint (Nat.to_uint n).

(** [" ".join(parts)] *)
Fixpoint join_space (parts : list string) : string :=
  match parts with
  | [] => EmptyString
  | [p] => p
  | p :: rest => (p ++ " " ++ join_space rest)%string
  end.

End Py.

Import Py.
Local Open Scope py_scope.

(* ================================================================= *)
(** ** area_calculator.py

    The two methods below read nothing from their instance; they are
    given as functions of their arguments. *)

Module AreaCalculator.

Local Open Scope Q_scope.
Local Open Scope string_scope.

(** Class attribute [CONVERSIONS]. *)
Definition CONVERSIONS : dict Q :=
  [ ("sq_meters", 1.0);
    ("sq_feet", 10.764);
    ("acres", 0.000247105);
    ("sq_pixels", 0.0) ].

(** The dict [convert_to_all_units] returns. *)
Record area_units : Type := mk_area_units {
  sq_meters : Q;
  sq_feet : Q;
  acres : Q
}.

Definition convert_to_all_units (area_sq_meters : Q) : py_result area_units :=
  k_feet <- dict_getitem CONVERSIONS "sq_feet" ;;
  k_acres <- dict_getitem CONVERSIONS "acres" ;;
  Returns {| sq_meters := py_round area_sq_meters 2;
             sq_feet := py_round (area_sq_meters * k_feet) 2;
             acres := py_round (area_sq_meters * k_acres) 4 |}.

(** The local table of [calculate_scale_from_reference]. *)
Definition unit_to_meters : dict Q :=
  [ ("meters", 1.0);
    ("feet", 0.3048);
    ("yards", 0.9144);
    ("inches", 0.0254);
    ("cm", 0.01);
    ("mm", 0.001) ].

Definition calculate_scale_from_reference
    (reference_pixel_length reference_real_length : Q) (unit : string)
  : py_result Q :=
  if negb (dict_contains unit_to_meters (lower unit)) then
    Raises (ValueError ("Unknown unit: " ++ unit))
  else
    factor <- dict_getitem unit_to_meters (lower unit) ;;
    let real_length_meters := reference_real_length * factor in
    if Qeq_bool real_length_meters 0 then
      Raises (ValueError "Reference length cannot be zero")
    else
      pixels_per_meter <- py_div reference_pixel_length real_length_meters ;;
      Returns pixels_per_meter.

End AreaCalculator.

(* ================================================================= *)
(** ** scale_detector.py

    [manual_scale_input] reads nothing from its instance either. *)

Module ScaleDetector.

Local Open Scope Q_scope.
Local Open Scope string_scope.

(** The [if]/[elif] chain that sets [real_length_m] at the head of
    [manual_scale_input]; the comparisons are [==] on strings, hence
    case-sensitive. *)
Definition real_length_m_of (real_length : Q) (unit : string) : Q :=
  if String.eqb unit "cm" then real_length / 100
  else if String.eqb unit "mm" then real_length / 1000
  else if String.eqb unit "m" || String.eqb unit "meter"
          || String.eqb unit "meters" then real_length
  else if String.eqb unit "ft" || String.eqb unit "feet" then
    real_length * 0.3048
  else if String.eqb unit "in" || String.eqb unit "inch" then
    real_length * 0.0254
  else real_length.

(** [manual_scale_input]; the inner [None] is Python's [None]. *)
Definition manual_scale_input (pixel_length real_length : Q) (unit : string)
  : py_result (option Q) :=
  let real_length_m := real_length_m_of real_length unit in
  if py_gt real_length_m 0 then
    r <- py_div pixel_length real_length_m ;;
    Returns (Some r)
  else
    Returns None.

End ScaleDetector.

(* ================================================================= *)
(** ** numpy arrays *)

Module Np.

Local Open Scope string_scope.
Local Open Scope nat_scope.

(** An integer [ndarray]: its shape and its elements in row-major order. *)
Record ndarray : Type := mk_ndarray {
  shape : list nat;
  data : list Z
}.

Definition ndim (a : ndarray) : nat := List.length (shape a).

(** Number of elements of an array of shape [sh]. *)
Definition size_of (sh : list nat) : nat := fold_right Nat.mul 1 sh.

(** [len(a)] *)
Definition len (a : ndarray) : py_result nat :=
  match shape a with
  | [] => Raises (TypeError "len() of unsized object")
  | n :: _ => Returns n
  end.

(** [a[i]] for [0 <= i]: the [i]-th slice along the first axis. *)
Definition getitem (a : ndarray) (i : nat) : py_result ndarray :=
  match shape a with
  | [] => Raises IndexError
  | n :: rest =>
      if i <? n then
        Returns {| shape := rest;
                   data := firstn (size_of rest)
                             (skipn (i * size_of rest) (data a)) |}
      else Raises IndexError
  end.

(** [a[-1]] *)
Definition getitem_last (a : ndarray) : py_result ndarray :=
  match shape a with
  | [] => Raises IndexError
  | n :: _ => if n =? 0 then Raises IndexError else getitem a (n - 1)
  end.

(** The value of an array scalar, as arithmetic reads it.  On anything
    but a scalar numpy would broadcast; the code never gets there with a
    contour in OpenCV's layout, and the model raises. *)
Definition item (a : ndarray) : py_result Z :=
  match shape a, data a with
  | [], [v] => Returns v
  | _, _ => Raises (TypeError "only integer scalar arrays can be converted")
  end.

(** [a.copy()] *)
Definition copy (a : ndarray) : ndarray := a.

(** [np.atleast_2d(a)] *)
Definition atleast_2d (a : ndarray) : ndarray :=
  match shape a with
  | [] => {| shape := [1; 1]; data := data a |}
  | [n] => {| shape := [1; n]; data := data a |}
  | _ => a
  end.

Definition shape_eqb (s1 s2 : list nat) : bool :=
  if list_eq_dec Nat.eq_dec s1 s2 then true else false.

(** [np.concatenate([a, b], 0)] *)
Definition concatenate (a b : ndarray) : py_result ndarray :=
  match shape a, shape b with
  | [], _ | _, [] =>
      Raises (ValueError "zero-dimensional arrays cannot be concatenated")
  | n :: ra, m :: rb =>
      if negb (ndim a =? ndim b) then
        Raises (ValueError
          ("all the input arrays must have same number of dimensions, "
           ++ "but the array at index 0 has " ++ str_of_nat (ndim a)
           ++ " dimension(s) and the array at index 1 has "
           ++ str_of_nat (ndim b) ++ " dimension(s)"))
      else if shape_eqb ra rb then
        Returns {| shape := (n + m) :: ra; data := data a ++ data b |}
      else
        Raises (ValueError
          ("all the input array dimensions except for the concatenation "
           ++ "axis must match exactly"))
  end.

(** [np.vstack([a, b])] *)
Definition vstack (a b : ndarray) : py_result ndarray :=
  concatenate (atleast_2d a) (atleast_2d b).

End Np.

(* ================================================================= *)
(** ** Polygons and OpenCV *)

Module Cv2.

Local Open Scope Z_scope.

Definition point : Type := (Z * Z)%type.

(** A contour as [findContours] lays it out: an array of shape
    [(N, 1, 2)] holding [x0, y0, x1, y1, ...]. *)
Definition cv_contour (pts : list point) : Np.ndarray :=
  {| Np.shape := [List.length pts; 1%nat; 2%nat];
     Np.data := flat_map (fun p => [fst p; snd p]) pts |}.

(** One point of a contour: the array [contour[i][0]]. *)
Definition point_array (p : point) : Np.ndarray :=
  {| Np.shape := [2%nat]; Np.data := [fst p; snd p] |}.

Fixpoint pair_up (l : list Z) : list point :=
  match l with
  | x :: y :: rest => (x, y) :: pair_up rest
  | _ => []
  end.

(** The layouts OpenCV reads as a vector of 2-D points. *)
Definition point_count (sh : list nat) : option nat :=
  match sh with
  | [n; 2%nat] => Some n
  | [n; 1%nat; 2%nat] => Some n
  | [1%nat; n; 2%nat] => Some n
  | _ => None
  end.

Definition points_of (a : Np.ndarray) : option (list point) :=
  match point_count (Np.shape a) with
  | Some n =>
      if (List.length (Np.data a) =? 2 * n)%nat then Some (pair_up (Np.data a))
      else None
  | None => None
  end.

(** Each point with its successor, the last one with the first. *)
Definition cyclic_pairs (pts : list point) : list (point * point) :=
  match pts with
  | [] => []
  | p :: t => combine pts (t ++ [p])
  end.

Definition cross (e : point * point) : Z :=
  let '(p, q) := e in fst p * snd q - fst q * snd p.

Definition Zsum (l : list Z) : Z := fold_right Z.add 0 l.

(** [Σ (x_i*y_{i+1} - x_{i+1}*y_i)] over the cyclic point sequence. *)
Definition shoelace_sum (pts : list point) : Z :=
  Zsum (map cross (cyclic_pairs pts)).

(** Modelled from the spec: [cv2.contourArea] is OpenCV code, not part of
    the repository.  The specification gives the enclosed area as
    [0.5 * |Σ (x_i*y_{i+1} - x_{i+1}*y_i)|] over the cyclic point sequence;
    an array that is not a vector of points is refused. *)
Definition contourArea (contour : Np.ndarray) : py_result Q :=
  match points_of contour with
  | Some pts => Returns ((1 # 2) * inject_Z (Z.abs (shoelace_sum pts)))%Q
  | None => Raises CvError
  end.

End Cv2.

(* ================================================================= *)
(** ** The geometry the specification speaks of *)

Module Geometry.

Import Cv2.

(** Euclidean distance between the two ends of an edge. *)
Definition dist (e : point * point) : R :=
  let '(p, q) := e in
  sqrt (IZR ((fst q - fst p) ^ 2 + (snd q - snd p) ^ 2)).

Definition Rsum (l : list R) : R := fold_right Rplus 0%R l.

(** Each point with its successor along the open polyline. *)
Definition path_pairs (pts : list point) : list (point * point) :=
  combine pts (tl pts).


(** Sum of the distances between consecutive points, the sequence taken
    as cyclic. *)
Definition cyclic_length (pts : list point) : R :=
  Rsum (map dist (cyclic_pairs pts)).

(** [0.5 * |Σ (x_i*y_{i+1} - x_{i+1}*y_i)|] *)
Definition shoelace_area (pts : list point) : Q :=
  ((1 # 2) * inject_Z (Z.abs (shoelace_sum pts)))%Q.

(** The candidates whose enclosed area exceeds 50 px², in order. *)
Definition large (polys : list (list point)) : list (list point) :=
  filter (fun q => py_gt (shoelace_area q) 50) polys.

(** The specification's [autoClose]: a copy of the first point goes to the
    end of the sequence. *)
Definition autoClose (pts : list point) : list point :=
  match pts with
  | [] => []
  | p :: _ => pts ++ [p]
  end.

(** The integer under the square root of [dist]. *)
Definition sq_dist (e : point * point) : Z :=
  let '(p, q) := e in
  ((fst q - fst p) ^ 2 + (snd q - snd p) ^ 2)%Z.

(** A result of [int32] arithmetic: the value modulo [2^32], taken in
    [[-2^31, 2^31)]. *)
Definition wrap32 (z : Z) : Z := ((z + 2 ^ 31) mod 2 ^ 32 - 2 ^ 31)%Z.

(** What [np.sqrt] receives for an edge whose coordinates are [int32]
    scalars, as in a contour of [findContours]: each difference, each
    square and the sum is an [int32] again and wraps around. *)
Definition radicand_int32 (e : point * point) : Z :=
  let '(p, q) := e in
  wrap32 (wrap32 (wrap32 (fst q - fst p) ^ 2)
          + wrap32 (wrap32 (snd q - snd p) ^ 2)).

(** The squared length of the edge is below [2^31]: on such an edge the
    [int32] arithmetic does not wrap. *)
Definition no_wrap (e : point * point) : Prop := (sq_dist e < 2 ^ 31)%Z.

End Geometry.

(* ================================================================= *)
(** ** image_processor.py *)

Module ImageProcessor.

Import Cv2.

(** The instance: [__init__] stores one attribute. *)
Record processor : Type := mk_processor {
  debug_mode : bool
}.

Definition __init__ : processor := {| debug_mode := false |}.

(** A method call runs on the instance and hands it back, together with
    what the call returned or raised. *)
Definition Method (A : Type) : Type := processor -> py_result A * processor.

Definition ret {A : Type} (a : A) : Method A :=
  fun self => (Returns a, self).

Definition lift {A : Type} (r : py_result A) : Method A :=
  fun self => (r, self).

Definition mbind {A B : Type} (m : Method A) (k : A -> Method B) : Method B :=
  fun self =>
    match m self with
    | (Returns a, self') => k a self'
    | (Raises e, self') => (Raises e, self')
    end.

(** [processor.debug_mode = value], as a caller of the class writes it. *)
Definition set_debug_mode (value : bool) : Method Datatypes.unit :=
  fun _ => (Returns tt, {| debug_mode := value |}).

Declare Scope method_scope.
Delimit Scope method_scope with method.
Notation "x <- m ;; k" := (mbind m (fun x => k))
  (at level 61, m at next level, right associativity) : method_scope.
Local Open Scope method_scope.

(** [for x in xs: acc = body(x, acc)] *)
Fixpoint for_each {A S : Type} (xs : list A) (body : A -> S -> Method S)
    (acc : S) : Method S :=
  match xs with
  | [] => ret acc
  | x :: rest => acc' <- body x acc ;; for_each rest body acc'
  end.

(** [range(n)] *)
Definition range (n : nat) : list nat := seq 0 n.

(** A method that leaves the instance as it found it and whose outcome
    does not depend on the instance. *)
Definition stateless {A : Type} (m : Method A) : Prop :=
  exists r : py_result A, forall self : processor, m self = (r, self).

(** [np.sqrt((pt2[0] - pt1[0])**2 + (pt2[1] - pt1[1])**2)], in exact
    arithmetic: the value the code computes on every edge that satisfies
    [Geometry.no_wrap]. *)
Definition euclid (pt1 pt2 : Np.ndarray) : py_result R :=
  (x2 <- (c <- Np.getitem pt2 0 ;; Np.item c) ;;
   x1 <- (c <- Np.getitem pt1 0 ;; Np.item c) ;;
   y2 <- (c <- Np.getitem pt2 1 ;; Np.item c) ;;
   y1 <- (c <- Np.getitem pt1 1 ;; Np.item c) ;;
   Returns (sqrt (IZR ((x2 - x1) ^ 2 + (y2 - y1) ^ 2))))%py.

Definition calculate_line_length (contour : Np.ndarray) : Method R :=
  n <- lift (Np.len contour) ;;
  if (n <? 2)%nat then ret 0%R
  else
    for_each (range n)
      (fun i length =>
         pt1 <- lift (row <- Np.getitem contour i ;; Np.getitem row 0)%py ;;
         pt2 <- lift (row <- Np.getitem contour ((i + 1) mod n) ;;
                      Np.getitem row 0)%py ;;
         d <- lift (euclid pt1 pt2) ;;
         ret (length + d)%R)
      0%R.

Definition calculate_area (contour : Np.ndarray) : Method Q :=
  n <- lift (Np.len contour) ;;
  if (n <? 3)%nat then ret 0%Q
  else
    area <- lift (contourArea contour) ;;
    ret (Qabs area).

Definition is_contour_closed (contour : Np.ndarray) (threshold : R)
  : Method bool :=
  n <- lift (Np.len contour) ;;
  if (n <? 3)%nat then ret false
  else
    first_point <- lift (row <- Np.getitem contour 0 ;; Np.getitem row 0)%py ;;
    last_point <- lift (row <- Np.getitem_last contour ;;
                        Np.getitem row 0)%py ;;
    distance <- lift (euclid first_point last_point) ;;
    ret (if Rlt_dec distance threshold then true else false).

Definition auto_close_contour (contour : Np.ndarray) : Method Np.ndarray :=
  n <- lift (Np.len contour) ;;
  if (n =? 0)%nat then ret contour
  else
    first_point <- lift (row <- Np.getitem contour 0 ;;
                         Returns (Np.copy row))%py ;;
    closed_contour <- lift (Np.vstack contour first_point) ;;
    ret closed_contour.

(** The dict the two entry points return. *)
Record measurement : Type := mk_measurement {
  line_length : string;
  area : string;
  unit_ : string;
  notes : string
}.

Section Pipeline.

(** A decoded pixel matrix. *)
Variable image : Type.

(** [cv2.imread]: [None] when the file cannot be read. *)
Variable imread : string -> option image.

(** The OpenCV calls of [preprocess_image]: grey conversion, denoising and
    contrast equalisation, giving [(contrast, original_color)]. *)
Variable cv_preprocess : image -> image * image.

(** The OpenCV calls of [detect_drawn_lines] up to [findContours]: the
    three masks, their union, dilation and closing, giving the outer
    contours in discovery order and the combined mask. *)
Variable cv_find_contours : image -> image -> list Np.ndarray * image.

(** [f"{x:.2f}"] *)
Variable format_2f : R -> string.

Definition preprocess_image (img : image) : Method (image * image) :=
  ret (cv_preprocess img).

Definition detect_drawn_lines (processed original : image)
  : Method (list Np.ndarray * image) :=
  let '(contours, combined) := cv_find_contours processed original in
  let min_area := 50%Q in
  filtered_contours <-
    lift (filter_py
            (fun cnt => (a <- contourArea cnt ;; Returns (py_gt a min_area))%py)
            contours) ;;
  ret (filtered_contours, combined).

Definition detect_scale_reference (img : image) (contours : list Np.ndarray)
  : Method (option R) :=
  ret None.

(** Truth value of an optional float: [None] and [0.0] are false. *)
Definition truthy (scale_factor : option R) : option R :=
  match scale_factor with
  | Some s => if Req_dec_T s 0 then None else Some s
  | None => None
  end.

Definition process_image_array (image_array : image) : Method measurement :=
  pre <- preprocess_image image_array ;;
  let '(processed, original_color) := pre in
  det <- detect_drawn_lines processed original_color ;;
  let '(contours, detection_mask) := det in
  match contours with
  | [] =>
      ret {| line_length := "0";
             area := "0";
             unit_ := "pixels";
             notes := "No drawn lines detected in the image." |}
  | _ :: _ =>
      main_contour <- lift (py_max_key contourArea contours) ;;
      is_closed <- is_contour_closed main_contour 5.0%R ;;
      main_contour <- (if negb is_closed then auto_close_contour main_contour
                       else ret main_contour) ;;
      line_length_px <- calculate_line_length main_contour ;;
      area_px <- calculate_area main_contour ;;
      scale_factor <- detect_scale_reference image_array contours ;;
      let notes_list := [] in
      let notes_list :=
        if negb is_closed then
          notes_list ++ ["Boundary was open and was auto-closed."%string]
        else notes_list in
      let notes_list :=
        if (1 <? List.length contours)%nat then
          notes_list
          ++ [("Detected " ++ str_of_nat (List.length contours)
               ++ " separate line segments. "
               ++ "Using the largest as main boundary.")%string]
        else notes_list in
      match truthy scale_factor with
      | Some s =>
          let line_length_m := (line_length_px / s)%R in
          let area_sq_m := (Q2R area_px / s ^ 2)%R in
          ret {| line_length := format_2f line_length_m;
                 area := format_2f area_sq_m;
                 unit_ := "meters";
                 notes := match notes_list with
                          | [] => "Processing completed successfully."
                          | _ => join_space notes_list
                          end |}
      | None =>
          let notes_list :=
            notes_list
            ++ ["No reference scale detected. Measurements in pixels only."
                %string] in
          ret {| line_length := format_2f line_length_px;
                 area := format_2f (Q2R area_px);
                 unit_ := "pixels";
                 notes := match notes_list with
                          | [] => "Processing completed successfully."
                          | _ => join_space notes_list
                          end |}
      end
  end.

(** [process_image] reads the file and then runs, line for line, the body
    of [process_image_array] on the decoded image. *)
Definition process_image (image_path : string) : Method measurement :=
  match imread image_path with
  | None =>
      lift (Raises (ValueError
                      ("Could not load image from " ++ image_path)%string))
  | Some img => process_image_array img
  end.

End Pipeline.

End ImageProcessor.

(* ================================================================= *)
(** ** More of the Python run time *)

Module PyMore.

Local Open Scope string_scope.

(** [a / b] where a square root or a cosine is involved. *)
Definition py_div_R (a b : R) : py_result R :=
  if Req_dec_T b 0 then Raises ZeroDivisionError else Returns (a / b)%R.

(** [a / b] on integers: true division. *)
Definition py_div_Z (a b : Z) : py_result Q :=
  if (b =? 0)%Z then Raises ZeroDivisionError
  else Returns (inject_Z a / inject_Z b)%Q.

(** [int(x)] on a float: truncation towards zero. *)
Definition py_int (x : Q) : Z :=
  if Qle_bool 0 x then Qfloor x else Qceiling x.

(** [xs[i]] on a list, for [0 <= i]. *)
Definition list_getitem {A : Type} (xs : list A) (i : nat) : py_result A :=
  match nth_error xs i with
  | Some a => Returns a
  | None => Raises IndexError
  end.

(** [a, b = xs] *)
Definition unpack2 {A : Type} (xs : list A) : py_result (A * A) :=
  match xs with
  | [a; b] => Returns (a, b)
  | [] | [_] =>
      Raises (ValueError
                ("not enough values to unpack (expected 2, got "
                 ++ str_of_nat (List.length xs) ++ ")"))
  | _ => Raises (ValueError "too many values to unpack (expected 2)")
  end.

(** [for x in xs: acc = body(x, acc)], where the body may raise. *)
Fixpoint for_each_py {A S : Type} (xs : list A)
    (body : A -> S -> py_result S) (acc : S) : py_result S :=
  match xs with
  | [] => Returns acc
  | x :: rest => (acc' <- body x acc ;; for_each_py rest body acc')%py
  end.

(** [needle in hay] on strings. *)
Fixpoint contains (needle hay : string) : bool :=
  match hay with
  | EmptyString => String.prefix needle hay
  | String _ rest => String.prefix needle hay || contains needle rest
  end.

(** The ASCII characters [str.isspace] accepts. *)
Definition is_space (c : ascii) : bool :=
  let n := nat_of_ascii c in
  ((9 <=? n)%nat && (n <=? 13)%nat) || ((28 <=? n)%nat && (n <=? 32)%nat).

Fixpoint lstrip (s : string) : string :=
  match s with
  | EmptyString => EmptyString
  | String c rest => if is_space c then lstrip rest else s
  end.

(** [s] without its trailing white space: a character stays when it is
    no white space or something that stays follows it. *)
Fixpoint rstrip (s : string) : string :=
  match s with
  | EmptyString => EmptyString
  | String c rest =>
      match rstrip rest with
      | EmptyString => if is_space c then EmptyString else String c EmptyString
      | kept => String c kept
      end
  end.

(** [s.strip()] *)
Definition strip (s : string) : string := rstrip (lstrip s).

End PyMore.

Import PyMore.

(* ================================================================= *)
(** ** area_calculator.py, the methods that use the instance *)

Module AreaCalculatorInstance.

Local Open Scope Q_scope.
Local Open Scope string_scope.

(** The instance: [__init__] stores the scale, [None] by default. *)
Record calculator : Type := mk_calculator {
  pixels_per_meter : option Q
}.

Definition __init__ (pixels_per_meter : option Q) : calculator :=
  {| pixels_per_meter := pixels_per_meter |}.

(** Truth value of [self.pixels_per_meter]: [None] and [0.0] are false. *)
Definition truthy (x : option Q) : option Q :=
  match x with
  | Some v => if Qeq_bool v 0 then None else Some v
  | None => None
  end.

Definition calculate_area_sq_meters (self : calculator) (area_sq_pixels : Q)
  : py_result Q :=
  match truthy (pixels_per_meter self) with
  | None => Raises (ValueError "pixels_per_meter must be set for conversion")
  | Some ppm =>
      area_sq_meters <- py_div area_sq_pixels (ppm ^ 2) ;;
      Returns area_sq_meters
  end.

(** The body of the loop of [calculate_perimeter]. *)
Definition perimeter_step (points : list (list Z)) (i : nat) (perimeter : R)
  : py_result R :=
  p1 <- (pt <- list_getitem points i ;; unpack2 pt) ;;
  p2 <- (pt <- list_getitem points ((i + 1) mod List.length points) ;;
         unpack2 pt) ;;
  let '(x1, y1) := p1 in
  let '(x2, y2) := p2 in
  let distance := sqrt (IZR ((x2 - x1) ^ 2 + (y2 - y1) ^ 2)) in
  Returns (perimeter + distance)%R.

(** [calculate_perimeter] reads nothing from the instance. *)
Definition calculate_perimeter (points : list (list Z)) : py_result R :=
  if (List.length points <? 2)%nat then Returns 0%R
  else
    for_each_py (seq 0 (List.length points)) (perimeter_step points) 0%R.

(** [convert_distance]; the parameter [unit] is not used by the body. *)
Definition convert_distance (self : calculator) (distance_pixels : Q)
    (unit : string) : py_result (dict Q) :=
  match truthy (pixels_per_meter self) with
  | None => Returns [("pixels", distance_pixels)]
  | Some ppm =>
      distance_meters <- py_div distance_pixels ppm ;;
      let conversions :=
        [ ("meters", distance_meters);
          ("feet", distance_meters * 3.28084);
          ("yards", distance_meters * 1.09361);
          ("miles", distance_meters * 0.000621371) ] in
      Returns (map (fun kv => (fst kv, py_round (snd kv) 2)) conversions)
  end.

(** [estimate_pixels_per_meter_from_zoom] reads nothing from the instance;
    [2 ** zoom] is a power of two for every integer [zoom]. *)
Definition estimate_pixels_per_meter_from_zoom (lat : R) (zoom : Z)
  : py_result R :=
  (let tile_size_pixels := 256%Z in
   meters_per_pixel_at_equator <- py_div_R 156543.03392 (powerRZ 2 zoom) ;;
   let meters_per_pixel :=
     (meters_per_pixel_at_equator * cos (lat * PI / 180))%R in
   pixels_per_meter <- py_div_R 1.0 meters_per_pixel ;;
   Returns pixels_per_meter)%py.

End AreaCalculatorInstance.

(* ================================================================= *)
(** ** satellite_service.py, the bounding box *)

Module SatelliteImageService.

Local Open Scope R_scope.

(** [_calculate_bbox]: [[min lat, max lat, min lon, max lon]]. *)
Definition _calculate_bbox (lat lon : R) (zoom width height : Z)
  : py_result (list R) :=
  (scaled <- py_div_R (156543.03392 * cos (lat * PI / 180)) (powerRZ 2 zoom) ;;
   let meters_per_pixel := scaled in
   let width_meters := IZR width * meters_per_pixel in
   let height_meters := IZR height * meters_per_pixel in
   lat_delta <- py_div_R height_meters 111320.0 ;;
   lon_delta <- py_div_R width_meters (111320.0 * cos (lat * PI / 180)) ;;
   Returns [ lat - lat_delta / 2;
             lat + lat_delta / 2;
             lon - lon_delta / 2;
             lon + lon_delta / 2 ])%py.

End SatelliteImageService.

(* ================================================================= *)
(** ** scale_detector.py, automatic detection *)

Module ScaleDetection.

Local Open Scope string_scope.

Section Detection.

Variable image : Type.

(** [cv2.boundingRect]: [(x, y, w, h)]. *)
Variable boundingRect : Np.ndarray -> Z * Z * Z * Z.

(** [cv2.arcLength(contour, closed)] *)
Variable arcLength : Np.ndarray -> bool -> R.

Definition detect_scale_label (img : image) : option (R * string) := None.

Definition detect_ruler (img : image) : option R := None.

(** The body of the loop of [detect_reference_line]; it ends in [pass]. *)
Definition reference_line_step (contour : Np.ndarray) (_ : unit)
  : py_result unit :=
  let '(x, y, w, h) := boundingRect contour in
  area <- Cv2.contourArea contour ;;
  let perimeter := arcLength contour false in
  if Rlt_dec 0 perimeter then
    compactness <- py_div_R (4 * PI * Q2R area) (perimeter ^ 2) ;;
    if (if Rlt_dec compactness 0.1 then true else false) && py_gt area 20
    then
      aspect_ratio <- py_div_Z (Z.max w h) (Z.max (Z.min w h) 1) ;;
      if py_gt aspect_ratio 3 then Returns tt else Returns tt
    else Returns tt
  else Returns tt.

Definition detect_reference_line (img : image) (contours : list Np.ndarray)
  : py_result (option R) :=
  _ <- for_each_py contours reference_line_step tt ;;
  Returns None.

(** Truth value of an optional float. *)
Definition truthy (x : option R) : option R :=
  match x with
  | Some v => if Req_dec_T v 0 then None else Some v
  | None => None
  end.

(** What [detect_scale] does once label detection is over. *)
Definition detect_scale_rest (img : image) (contours : list Np.ndarray)
  : py_result (option R) :=
  let ruler_result := detect_ruler img in
  match truthy ruler_result with
  | Some v => Returns (Some v)
  | None =>
      ref_line_result <- detect_reference_line img contours ;;
      match truthy ref_line_result with
      | Some v => Returns (Some v)
      | None => Returns None
      end
  end.

Definition detect_scale (img : image) (contours : list Np.ndarray)
  : py_result (option R) :=
  let label_result := detect_scale_label img in
  match label_result with
  | Some (pixels_per_unit, unit) =>
      if String.eqb unit "cm" then Returns (Some (pixels_per_unit * 100)%R)
      else if String.eqb unit "mm" then
        Returns (Some (pixels_per_unit * 1000)%R)
      else if String.eqb unit "m" || String.eqb unit "meter"
              || String.eqb unit "meters" then Returns (Some pixels_per_unit)
      else if String.eqb unit "ft" || String.eqb unit "feet" then
        r <- py_div_R pixels_per_unit 0.3048 ;; Returns (Some r)
      else if String.eqb unit "in" || String.eqb unit "inch" then
        r <- py_div_R pixels_per_unit 0.0254 ;; Returns (Some r)
      else detect_scale_rest img contours
  | None => detect_scale_rest img contours
  end.

End Detection.

End ScaleDetection.

(* ================================================================= *)
(** ** geocoding_service.py, the address checks *)

Module GeocodingService.

Local Open Scope string_scope.

Section AddressChecks.

(** [re.search(r'\b\d{5}(-\d{4})?\b', address)] finds a match. *)
Variable re_search_zip : string -> bool.

Definition us_indicators : list string :=
  ["usa"; "united states"; "us"; "u.s."].

(** [_is_us_address]: the loop over the indicators, then the ZIP pattern,
    then the final [return True]. *)
Definition _is_us_address (address : string) : bool :=
  let address_lower := lower address in
  if existsb (fun indicator => contains indicator address_lower) us_indicators
  then true
  else if re_search_zip address then true
  else true.

End AddressChecks.

Definition _format_address (address : string) : string :=
  let address_clean := strip address in
  if negb (existsb (fun term => contains term (lower address_clean))
             ["usa"; "united states"; " us "; " u.s."])
  then address_clean ++ ", USA"
  else address_clean.

End GeocodingService.

(* ================================================================= *)
(** ** More of numpy *)

Module NpMore.

Local Open Scope string_scope.
Local Open Scope nat_scope.

(** A point as the list [[x, y]]. *)
Definition point_list (p : Cv2.point) : list Z := [fst p; snd p].

(** The values an [int32] array holds. *)
Definition int32 (z : Z) : Prop := (- 2 ^ 31 <= z < 2 ^ 31)%Z.

(** [np.array(rows, dtype=np.int32)] on a list of lists of integers that
    are [int32] values; numpy refuses an integer outside that range, and
    the theorems about lists a caller passes in assume the range. *)
Definition array2 (rows : list (list Z)) : py_result Np.ndarray :=
  match rows with
  | [] => Returns {| Np.shape := [0]; Np.data := [] |}
  | r :: _ =>
      if forallb (fun r' => List.length r' =? List.length r) rows then
        Returns {| Np.shape := [List.length rows; List.length r];
                   Np.data := List.concat rows |}
      else
        Raises (ValueError
                  ("setting an array element with a sequence. The requested "
                   ++ "array has an inhomogeneous shape after 1 dimensions."))
  end.

(** [a.reshape(-1, 1, 2)] *)
Definition reshape_points (a : Np.ndarray) : py_result Np.ndarray :=
  let size := List.length (Np.data a) in
  if size mod 2 =? 0 then
    Returns {| Np.shape := [size / 2; 1; 2]; Np.data := Np.data a |}
  else
    Raises (ValueError
              ("cannot reshape array of size " ++ str_of_nat size
               ++ " into shape (1,2)")).

(** [[f(row) for row in items]], where [f] may raise. *)
Fixpoint map_py {A B : Type} (f : A -> py_result B) (items : list A)
  : py_result (list B) :=
  match items with
  | [] => Returns []
  | x :: rest =>
      (y <- f x ;; ys <- map_py f rest ;; Returns (y :: ys))%py
  end.

(** The rows [a[0], a[1], ...] that iterating over [a] yields. *)
Definition rows (a : Np.ndarray) : py_result (list Np.ndarray) :=
  match Np.shape a with
  | [] => Raises (TypeError "iteration over a 0-d array")
  | n :: _ => map_py (Np.getitem a) (seq 0 n)
  end.

(** [[[int(pt[0][0]), int(pt[0][1])] for pt in contour]] *)
Definition contour_points (contour : Np.ndarray)
  : py_result (list (list Z)) :=
  (pts <- rows contour ;;
   map_py (fun pt =>
             x <- (r <- Np.getitem pt 0 ;; c <- Np.getitem r 0 ;; Np.item c) ;;
             y <- (r <- Np.getitem pt 0 ;; c <- Np.getitem r 1 ;; Np.item c) ;;
             Returns [x; y]) pts)%py.

End NpMore.

(* ================================================================= *)
(** ** property_detector.py *)

Module PropertyDetector.

Import NpMore.
Local Open Scope string_scope.
Local Open Scope Z_scope.

(** One entry of the [zones] dict. *)
Record zone : Type := mk_zone {
  boundary : list (list Z);
  area_pixels : Q
}.

(** The dict [detect_property_boundaries] returns; a key that a branch
    does not set is [None]. *)
Record property_result : Type := mk_property_result {
  property_boundary : option (list (list Z));
  zones : dict zone;
  notes : option string;
  total_contours : option nat
}.

(** Truth value of an optional list: [None] and [[]] are false. *)
Definition truthy_list {A : Type} (x : option (list A)) : option (list A) :=
  match x with
  | Some (a :: rest) => Some (a :: rest)
  | _ => None
  end.

(** [cv2.contourArea(np.array(region, dtype=np.int32))] *)
Definition region_area (region : list (list Z)) : py_result Q :=
  (arr <- array2 region ;; Cv2.contourArea arr)%py.

(** [calculate_garden_area] reads nothing from the instance. *)
Definition calculate_garden_area (manual_points : list (list Z))
  : py_result Q :=
  if (List.length manual_points <? 3)%nat then Returns 0%Q
  else
    (points_array <- array2 manual_points ;;
     area <- Cv2.contourArea points_array ;;
     Returns (Qabs area))%py.

(** [calculate_perimeter_pixels] hands the reshaped points to the
    processor the detector owns. *)
Definition calculate_perimeter_pixels (points : list (list Z))
  : ImageProcessor.Method R :=
  ImageProcessor.mbind
    (ImageProcessor.lift (arr <- array2 points ;; reshape_points arr)%py)
    (fun contour => ImageProcessor.calculate_line_length contour).

Section Detector.

Variable image : Type.

(** [image.shape[:2]]: height and width. *)
Variable image_shape : image -> Z * Z.

(** [cv2.boundingRect]: [(x, y, w, h)]. *)
Variable boundingRect : Np.ndarray -> Z * Z * Z * Z.

(** Grey conversion, [cv2.Canny(gray, 50, 150)] and the outer contours
    [cv2.findContours] reads off the edges. *)
Variable cv_edge_contours : image -> list Np.ndarray.

(** [cv2.moments]: the entries [m00], [m10], [m01]. *)
Variable cv_moments : Np.ndarray -> Q * Q * Q.

(** [len(cv2.approxPolyDP(contour, 0.02 * cv2.arcLength(contour, True),
    True))] *)
Variable cv_approx_len : Np.ndarray -> nat.

(** The tests a contour passes to count as a house. *)
Definition house_like (img : image) (center_x center_y : Z)
    (contour : Np.ndarray) : py_result bool :=
  (area <- Cv2.contourArea contour ;;
   if py_gt area 5000 && py_gt 50000 area then
     let '(m00, m10, m01) := cv_moments contour in
     if negb (Qeq_bool m00 0) then
       qx <- py_div m10 m00 ;;
       qy <- py_div m01 m00 ;;
       let cx := py_int qx in
       let cy := py_int qy in
       let '(h, w) := image_shape img in
       if py_gt (inject_Z w * 0.3) (inject_Z (Z.abs (cx - center_x)))
          && py_gt (inject_Z h * 0.3) (inject_Z (Z.abs (cy - center_y)))
       then Returns (4 <=? cv_approx_len contour)%nat
       else Returns false
     else Returns false
   else Returns false)%py.

(** The same tests as a proposition on the polygon of a contour: the
    area strictly between 5000 and 50000, [m00] not zero, the centroid
    nearer than 0.3 of the width and of the height to the centre, four
    approximating corners or more. *)
Definition house_test (img : image) (center_x center_y : Z)
    (q : list Cv2.point) : Prop :=
  let '(m00, m10, m01) := cv_moments (Cv2.cv_contour q) in
  let '(h, w) := image_shape img in
  (5000 < Geometry.shoelace_area q)%Q
  /\ (Geometry.shoelace_area q < 50000)%Q
  /\ ~ (m00 == 0)%Q
  /\ (inject_Z (Z.abs (py_int (m10 / m00) - center_x))
      < inject_Z w * 0.3)%Q
  /\ (inject_Z (Z.abs (py_int (m01 / m00) - center_y))
      < inject_Z h * 0.3)%Q
  /\ (4 <= cv_approx_len (Cv2.cv_contour q))%nat.

Definition _detect_house_structure (img : image) (center_x center_y : Z)
  : py_result (option (list (list Z))) :=
  (let contours := cv_edge_contours img in
   house_contours <- filter_py (house_like img center_x center_y) contours ;;
   match house_contours with
   | [] => Returns None
   | _ :: _ =>
       largest <- py_max_key Cv2.contourArea house_contours ;;
       points <- contour_points largest ;;
       Returns (Some points)
   end)%py.

Definition _get_yard_region (boundary : Np.ndarray) (region : string)
    (height width : Z) : py_result (option (list (list Z))) :=
  (let '(x, y, w, h) := boundingRect boundary in
   boundary_points <- contour_points boundary ;;
   if String.eqb region "front" then
     Returns (Some [ [x; y + h / 2]; [x + w; y + h / 2];
                     [x + w; y + h]; [x; y + h] ])
   else if String.eqb region "back" then
     Returns (Some [ [x; y]; [x + w; y];
                     [x + w; y + h / 2]; [x; y + h / 2] ])
   else if String.eqb region "left" then
     Returns (Some [ [x; y]; [x + w / 2; y];
                     [x + w / 2; y + h]; [x; y + h] ])
   else if String.eqb region "right" then
     Returns (Some [ [x + w / 2; y]; [x + w; y];
                     [x + w; y + h]; [x + w / 2; y + h] ])
   else Returns None)%py.

(** One [if region: zones[name] = {...}] step of [_detect_zones]. *)
Definition add_zone (name : string) (region : option (list (list Z)))
    (zones : dict zone) : py_result (dict zone) :=
  match truthy_list region with
  | Some points =>
      (area <- region_area points ;;
       Returns (zones ++ [(name,
                           {| boundary := points;
                              area_pixels := area |})])%list)%py
  | None => Returns zones
  end.

Definition _detect_zones (img : image) (main_boundary : Np.ndarray)
    (all_contours : list Np.ndarray) : py_result (dict zone) :=
  (let zones := [] in
   let '(h, w) := image_shape img in
   let center_x := w / 2 in
   let center_y := h / 2 in
   house_region <- _detect_house_structure img center_x center_y ;;
   zones <- add_zone "house" house_region zones ;;
   front_yard_boundary <- _get_yard_region main_boundary "front" h w ;;
   zones <- add_zone "front_yard" front_yard_boundary zones ;;
   back_yard_boundary <- _get_yard_region main_boundary "back" h w ;;
   zones <- add_zone "back_yard" back_yard_boundary zones ;;
   left_yard <- _get_yard_region main_boundary "left" h w ;;
   zones <- add_zone "left_yard" left_yard zones ;;
   right_yard <- _get_yard_region main_boundary "right" h w ;;
   zones <- add_zone "right_yard" right_yard zones ;;
   Returns zones)%py.

(** The OpenCV calls of the processor's two image stages. *)
Variable cv_preprocess : image -> image * image.
Variable cv_find_contours : image -> image -> list Np.ndarray * image.

(** [detect_property_boundaries] runs on the processor the detector
    owns. *)
Definition detect_property_boundaries (img : image)
  : ImageProcessor.Method property_result :=
  ImageProcessor.mbind (ImageProcessor.preprocess_image cv_preprocess img)
    (fun pre =>
  let '(processed, original) := pre in
  ImageProcessor.mbind
    (ImageProcessor.detect_drawn_lines cv_find_contours processed original)
    (fun det =>
  let '(contours, _) := det in
  match contours with
  | [] =>
      ImageProcessor.ret
        {| property_boundary := None;
           zones := [];
           notes :=
             Some "No property boundaries detected. Please draw manually.";
           total_contours := None |}
  | _ :: _ =>
      ImageProcessor.lift
        (main_boundary <- py_max_key Cv2.contourArea contours ;;
         boundary_points <- contour_points main_boundary ;;
         zones <- _detect_zones img main_boundary contours ;;
         Returns {| property_boundary := Some boundary_points;
                    zones := zones;
                    notes := None;
                    total_contours := Some (List.length contours) |})%py
  end)).

End Detector.

End PropertyDetector.

Unset Implicit Arguments.

(* ================================================================= *)
(** ** Facts about the run-time model *)

Section PyFacts.

Local Open Scope Q_scope.

Lemma py_gt_true (a b : Q) : py_gt a b = true <-> b < a.
Proof.
  unfold py_gt. rewrite (Qgt_alt a b).
  destruct (a ?= b); split; intro H; congruence.
Qed.

Lemma py_gt_false (a b : Q) : py_gt a b = false <-> a <= b.
Proof.
  unfold py_gt. rewrite (Qle_alt a b).
  destruct (a ?= b); split; intro H; congruence.
Qed.

Lemma py_div_nonzero (a b : Q) : ~ b == 0 -> py_div a b = Returns (a / b).
Proof.
  intro Hb. unfold py_div.
  destruct (Qeq_bool b 0) eqn:E; [| reflexivity].
  apply Qeq_bool_eq in E. contradiction.
Qed.

Lemma round_half_even_near (q : Q) :
  Qabs (inject_Z (round_half_even q) - q) <= 1 # 2.
Proof.
  unfold round_half_even.
  pose proof (Qfloor_le q) as Hlo.
  pose proof (Qlt_floor q) as Hhi.
  rewrite inject_Z_plus in Hhi.
  change (inject_Z 1) with 1 in Hhi.
  apply Qabs_Qle_condition.
  destruct (Qcompare_spec (q - inject_Z (Qfloor q)) (1 # 2)) as [E | E | E];
    [destruct (Z.even (Qfloor q)) | |];
    rewrite ?inject_Z_plus; change (inject_Z 1) with 1;
    set (f := inject_Z (Qfloor q)) in *; clearbody f.
  all: split; lra.
Qed.

Lemma pow10_pos (n : nat) : 0 < inject_Z (10 ^ Z.of_nat n).
Proof.
  change 0 with (inject_Z 0). rewrite <- Zlt_Qlt.
  apply Z.pow_pos_nonneg; lia.
Qed.

(** [round(x, n)] is a multiple of [10^-n] within half a unit in the last
    place of [x]. *)
Lemma py_round_spec (x : Q) (n : nat) :
  let s := inject_Z (10 ^ Z.of_nat n) in
  (exists k : Z, py_round x n == inject_Z k / s)
  /\ Qabs (py_round x n - x) <= (1 # 2) / s.
Proof.
  intro s. pose proof (pow10_pos n) as Hs. fold s in Hs.
  split.
  - exists (round_half_even (x * s)). reflexivity.
  - unfold py_round. fold s.
    pose proof (round_half_even_near (x * s)) as Hn.
    set (k := inject_Z (round_half_even (x * s))) in *. clearbody k.
    apply Qabs_Qle_condition in Hn. apply Qabs_Qle_condition.
    destruct Hn as [Hn1 Hn2].
    assert (Hs' : ~ s == 0) by lra.
    assert (Hinv : 0 < / s) by (apply Qinv_lt_0_compat; exact Hs).
    setoid_replace (k / s - x) with ((k - x * s) * / s) by (field; exact Hs').
    setoid_replace (- ((1 # 2) / s)) with (- (1 # 2) * / s)
      by (field; exact Hs').
    setoid_replace ((1 # 2) / s) with ((1 # 2) * / s) by (field; exact Hs').
    set (d := k - x * s) in *. set (i := / s) in *.
    clearbody d i. split; nra.
Qed.

End PyFacts.

(* ================================================================= *)
(** ** Calibration and unit conversion *)

Section Calibration.

Import AreaCalculator.
Local Open Scope Q_scope.
Local Open Scope string_scope.

Lemma dict_get_none {V : Type} (d : dict V) (k : string) :
  dict_get d k = None <-> ~ In k (map fst d).
Proof.
  induction d as [| [k' v] rest IH]; simpl.
  - tauto.
  - destruct (String.eqb_spec k k') as [-> | Hne].
    + split; [discriminate | intro H; exfalso; apply H; now left].
    + rewrite IH. split.
      * intros H [E | HIn]; [congruence | tauto].
      * intros H HIn. apply H. now right.
Qed.

Lemma unit_to_meters_pos (k : string) (f : Q) :
  dict_get unit_to_meters k = Some f -> 0 < f.
Proof.
  unfold unit_to_meters. simpl.
  repeat (destruct (String.eqb k _);
          [intro H; injection H as <-; reflexivity |]).
  discriminate.
Qed.

Lemma scale_from_reference_unknown (p r : Q) (unit : string) :
  dict_get unit_to_meters (lower unit) = None ->
  calculate_scale_from_reference p r unit
  = Raises (ValueError ("Unknown unit: " ++ unit)).
Proof.
  intro H. unfold calculate_scale_from_reference, dict_contains.
  now rewrite H.
Qed.

Lemma scale_from_reference_known (p r : Q) (unit : string) (f : Q) :
  dict_get unit_to_meters (lower unit) = Some f ->
  calculate_scale_from_reference p r unit
  = if Qeq_bool (r * f) 0
    then Raises (ValueError "Reference length cannot be zero")
    else Returns (p / (r * f)).
Proof.
  intro H. unfold calculate_scale_from_reference, dict_contains, dict_getitem.
  rewrite H. simpl. unfold py_div.
  destruct (Qeq_bool (r * f) 0); reflexivity.
Qed.

(** C2, as the code has it: with a known unit the call fails, with
    "Reference length cannot be zero", exactly when the real length
    converted to meters equals zero; the pixel length is not inspected.
    Every other call returns the quotient of the pixel length by the
    converted real length, which is strictly positive when both are. *)
Theorem scale_from_reference_fails_iff_zero
    (p r : Q) (unit : string) (f : Q) :
  dict_get unit_to_meters (lower unit) = Some f ->
  (calculate_scale_from_reference p r unit
   = Raises (ValueError "Reference length cannot be zero")
   <-> r * f == 0)
  /\ (~ r * f == 0 ->
      calculate_scale_from_reference p r unit = Returns (p / (r * f)))
  /\ (0 < p -> 0 < r * f ->
      exists s, calculate_scale_from_reference p r unit = Returns s /\ 0 < s).
Proof.
  intro Hf. rewrite (scale_from_reference_known p r unit f Hf).
  destruct (Qeq_bool (r * f) 0) eqn:E.
  - apply Qeq_bool_eq in E. split; [| split].
    + split; [intros _; exact E | reflexivity].
    + intro H. contradiction.
    + intros _ Hpos. rewrite E in Hpos. discriminate.
  - apply Qeq_bool_neq in E. split; [| split].
    + split; [discriminate | intro H; contradiction].
    + reflexivity.
    + intros Hp Hr. exists (p / (r * f)). split; [reflexivity |].
      apply Qlt_shift_div_l; [exact Hr | lra].
Qed.

(** The theorem at 600 px for 10 feet. *)
Lemma scale_from_reference_fails_iff_zero_witness :
  (calculate_scale_from_reference 600 10 "Feet"
   = Raises (ValueError "Reference length cannot be zero")
   <-> 10 * 0.3048 == 0)
  /\ (~ 10 * 0.3048 == 0 ->
      calculate_scale_from_reference 600 10 "Feet"
      = Returns (600 / (10 * 0.3048)))
  /\ (0 < 600 -> 0 < 10 * 0.3048 ->
      exists s, calculate_scale_from_reference 600 10 "Feet" = Returns s
                /\ 0 < s).
Proof.
  apply (scale_from_reference_fails_iff_zero 600 10 "Feet" 0.3048).
  reflexivity.
Defined.

(** C2, as stated, fails: a negative reference length and a zero pixel
    length are both accepted, and the scale factors returned for them are
    not strictly positive. *)
Lemma scale_from_reference_accepts_nonpositive :
  ((-5) * 1.0 <= 0
   /\ exists s, calculate_scale_from_reference 100 (-5) "meters" = Returns s
                /\ s < 0)
  /\ (0 <= 0
      /\ exists s, calculate_scale_from_reference 0 10 "meters" = Returns s
                   /\ s == 0).
Proof.
  split; split.
  - discriminate.
  - eexists; split; [reflexivity | reflexivity].
  - discriminate.
  - eexists; split; [reflexivity | reflexivity].
Qed.

(** C5: a unit whose lower-case form is one of the six names is converted
    with the fixed table, and positive lengths give the quotient of the
    pixel length by the real length in meters; 100 px for 10 meters is
    10 px per meter; any other unit fails with "Unknown unit". *)
Theorem scale_from_reference_known_units (p r : Q) (unit : string) :
  unit_to_meters
  = [ ("meters", 1.0); ("feet", 0.3048); ("yards", 0.9144);
      ("inches", 0.0254); ("cm", 0.01); ("mm", 0.001) ]
  /\ (In (lower unit) ["meters"; "feet"; "yards"; "inches"; "cm"; "mm"] ->
      0 < p -> 0 < r ->
      exists f, dict_get unit_to_meters (lower unit) = Some f
                /\ calculate_scale_from_reference p r unit
                   = Returns (p / (r * f)))
  /\ (exists s, calculate_scale_from_reference 100 10 "meters" = Returns s
                /\ s == 10.0)
  /\ (~ In (lower unit) ["meters"; "feet"; "yards"; "inches"; "cm"; "mm"] ->
      calculate_scale_from_reference p r unit
      = Raises (ValueError ("Unknown unit: " ++ unit))).
Proof.
  split; [reflexivity |]. split; [| split].
  - intros HIn Hp Hr.
    destruct (dict_get unit_to_meters (lower unit)) as [f |] eqn:Hf.
    + exists f. split; [reflexivity |].
      pose proof (unit_to_meters_pos _ _ Hf) as Hfpos.
      rewrite (scale_from_reference_known p r unit f Hf).
      destruct (Qeq_bool (r * f) 0) eqn:E; [| reflexivity].
      apply Qeq_bool_eq in E. nra.
    + apply dict_get_none in Hf. contradiction.
  - eexists. split; reflexivity.
  - intro HnIn. apply scale_from_reference_unknown.
    apply dict_get_none. exact HnIn.
Qed.

(** The theorem at 254 px for 100 inches, and at an unknown unit. *)
Lemma scale_from_reference_known_units_witness :
  (exists f, dict_get unit_to_meters (lower "Inches") = Some f
             /\ calculate_scale_from_reference 254 100 "Inches"
                = Returns (254 / (100 * f)))
  /\ calculate_scale_from_reference 100 5 "parsecs"
     = Raises (ValueError "Unknown unit: parsecs").
Proof.
  split.
  - apply (proj1 (proj2 (scale_from_reference_known_units 254 100 "Inches"))).
    + vm_compute. tauto.
    + reflexivity.
    + reflexivity.
  - apply (proj2 (proj2 (proj2
             (scale_from_reference_known_units 100 5 "parsecs")))).
    vm_compute. intuition discriminate.
Defined.

(** C8: [convert_to_all_units] returns the three entries [sq_meters],
    [sq_feet] and [acres]: the area, the area times 10.764 and the area
    times 0.000247105, rounded to 2, 2 and 4 decimals, that is, each a
    multiple of the last decimal place and within half a unit of it from
    the exact value; one square meter gives 1.0, 10.76 and 0.0002. *)
Theorem convert_to_all_units_rounds (area_sq_meters : Q) :
  (exists u,
     convert_to_all_units area_sq_meters = Returns u
     /\ ((exists k : Z, sq_meters u == inject_Z k / 100)
         /\ Qabs (sq_meters u - area_sq_meters) <= 0.005)
     /\ ((exists k : Z, sq_feet u == inject_Z k / 100)
         /\ Qabs (sq_feet u - area_sq_meters * 10.764) <= 0.005)
     /\ ((exists k : Z, acres u == inject_Z k / 10000)
         /\ Qabs (acres u - area_sq_meters * 0.000247105) <= 0.00005))
  /\ (exists u, convert_to_all_units 1.0 = Returns u
                /\ sq_meters u == 1.0 /\ sq_feet u == 10.76
                /\ acres u == 0.0002).
Proof.
  split.
  - eexists. split; [reflexivity |]. cbn [sq_meters sq_feet acres].
    split; [| split];
      match goal with
      | |- _ /\ Qabs (py_round ?x ?n - _) <= _ =>
          destruct (py_round_spec x n) as [Hk Hb]; split;
          [exact Hk | eapply Qle_trans; [exact Hb | discriminate]]
      end.
  - eexists. split; [reflexivity |]. repeat split; reflexivity.
Qed.

End Calibration.

Section ManualScaleInput.

Import ScaleDetector.
Local Open Scope Q_scope.
Local Open Scope string_scope.

Lemma real_length_m_of_other (r : Q) (unit : string) :
  ~ In unit ["cm"; "mm"; "m"; "meter"; "meters"; "ft"; "feet"; "in"; "inch"] ->
  real_length_m_of r unit = r.
Proof.
  intro H. unfold real_length_m_of.
  repeat match goal with
         | |- context [String.eqb unit ?s] =>
             destruct (String.eqb_spec unit s) as [E | _];
             [exfalso; apply H; rewrite E; simpl; tauto |]
         end.
  reflexivity.
Qed.

Lemma manual_scale_input_run (p r : Q) (unit : string) :
  manual_scale_input p r unit
  = if py_gt (real_length_m_of r unit) 0
    then Returns (Some (p / real_length_m_of r unit))
    else Returns None.
Proof.
  unfold manual_scale_input.
  destruct (py_gt (real_length_m_of r unit) 0) eqn:E; [| reflexivity].
  apply py_gt_true in E. rewrite py_div_nonzero; [reflexivity | lra].
Qed.

(** C10: [manual_scale_input] never raises.  A unit outside its nine
    case-sensitive names is read as meters, and a converted real length
    that is not positive gives [None]; the calibration entry point of
    [AreaCalculator] raises on the same unit. *)
Theorem manual_scale_input_lenient (p r : Q) (unit : string) :
  (~ In unit ["cm"; "mm"; "m"; "meter"; "meters"; "ft"; "feet"; "in"; "inch"]
   -> (0 < r -> manual_scale_input p r unit = Returns (Some (p / r)))
      /\ (r <= 0 -> manual_scale_input p r unit = Returns None))
  /\ (real_length_m_of r unit <= 0 ->
      manual_scale_input p r unit = Returns None)
  /\ ~ raises (manual_scale_input p r unit)
  /\ (manual_scale_input 100 5 "parsecs" = Returns (Some (100 / 5))
      /\ AreaCalculator.calculate_scale_from_reference 100 5 "parsecs"
         = Raises (ValueError "Unknown unit: parsecs"))
  /\ manual_scale_input 100 5 "CM" = Returns (Some (100 / 5)).
Proof.
  rewrite manual_scale_input_run.
  split; [| split; [| split; [| split; [split |]]]]; try reflexivity.
  - intro H. rewrite (real_length_m_of_other r unit H). split; intro Hr.
    + apply py_gt_true in Hr. now rewrite Hr.
    + apply py_gt_false in Hr. now rewrite Hr.
  - intro Hr. apply py_gt_false in Hr. now rewrite Hr.
  - intros [e He].
    destruct (py_gt (real_length_m_of r unit) 0); discriminate.
Qed.

(** The theorem at an unknown unit and at a zero length in feet. *)
Lemma manual_scale_input_lenient_witness :
  (manual_scale_input 150 (-3) "furlongs" = Returns None)
  /\ (manual_scale_input 150 3 "furlongs" = Returns (Some (150 / 3)))
  /\ (manual_scale_input 150 0 "feet" = Returns None).
Proof.
  split; [| split].
  - apply (proj1 (manual_scale_input_lenient 150 (-3) "furlongs")).
    + vm_compute. intuition discriminate.
    + discriminate.
  - apply (proj1 (manual_scale_input_lenient 150 3 "furlongs")).
    + vm_compute. intuition discriminate.
    + reflexivity.
  - apply (proj1 (proj2 (manual_scale_input_lenient 150 0 "feet"))).
    discriminate.
Defined.

End ManualScaleInput.

(* ================================================================= *)
(** ** Contours as arrays *)

Section ContourArrays.

Import Cv2.

Lemma cv_len (pts : list point) :
  Np.len (cv_contour pts) = Returns (List.length pts).
Proof. reflexivity. Qed.

Lemma flat_points_skipn (i : nat) (pts : list point) :
  skipn (i * 2) (flat_map (fun p => [fst p; snd p]) pts)
  = flat_map (fun p => [fst p; snd p]) (skipn i pts).
Proof.
  revert pts. induction i as [| i IH]; intros pts; [reflexivity |].
  destruct pts as [| p t]; [reflexivity |]. simpl. apply IH.
Qed.

Lemma flat_points_length (pts : list point) :
  List.length (flat_map (fun p => [fst p; snd p]) pts)
  = (2 * List.length pts)%nat.
Proof. induction pts as [| p t IH]; simpl; [reflexivity | lia]. Qed.

Lemma pair_up_flat_points (pts : list point) :
  pair_up (flat_map (fun p => [fst p; snd p]) pts) = pts.
Proof.
  induction pts as [| [x y] t IH]; simpl; [reflexivity | now rewrite IH].
Qed.

Lemma cv_getitem_row (pts : list point) (i : nat) (p : point) :
  nth_error pts i = Some p ->
  Np.getitem (cv_contour pts) i
  = Returns {| Np.shape := [1%nat; 2%nat]; Np.data := [fst p; snd p] |}.
Proof.
  intro H.
  assert (Hi : (i < List.length pts)%nat)
    by (apply nth_error_Some; congruence).
  apply Nat.ltb_lt in Hi.
  unfold Np.getitem, cv_contour. cbn [Np.shape Np.data]. rewrite Hi.
  change (Np.size_of [1%nat; 2%nat]) with 2%nat.
  rewrite flat_points_skipn.
  apply nth_error_split in H. destruct H as (l1 & l2 & -> & Hlen).
  rewrite <- Hlen, skipn_app, Nat.sub_diag, skipn_all. reflexivity.
Qed.

Lemma cv_getitem (pts : list point) (i : nat) (p : point) :
  nth_error pts i = Some p ->
  (row <- Np.getitem (cv_contour pts) i ;; Np.getitem row 0)%py
  = Returns (point_array p).
Proof. intro H. now rewrite (cv_getitem_row pts i p H). Qed.

Lemma cv_getitem_last (pts : list point) (p : point) :
  nth_error pts (List.length pts - 1) = Some p ->
  (row <- Np.getitem_last (cv_contour pts) ;; Np.getitem row 0)%py
  = Returns (point_array p).
Proof.
  intro H. unfold Np.getitem_last. cbn [Np.shape cv_contour].
  destruct (List.length pts =? 0)%nat eqn:E.
  - apply Nat.eqb_eq in E. apply length_zero_iff_nil in E. subst pts.
    discriminate.
  - now apply cv_getitem.
Qed.

Lemma euclid_points (p q : point) :
  ImageProcessor.euclid (point_array p) (point_array q)
  = Returns (Geometry.dist (p, q)).
Proof. destruct p, q. reflexivity. Qed.

Lemma points_of_cv_contour (pts : list point) :
  points_of (cv_contour pts) = Some pts.
Proof.
  unfold points_of, cv_contour. simpl Np.shape. simpl Np.data.
  assert (Hc : point_count [List.length pts; 1%nat; 2%nat]
               = Some (List.length pts))
    by (destruct (List.length pts) as [| [| k]]; reflexivity).
  rewrite Hc, flat_points_length, Nat.eqb_refl, pair_up_flat_points.
  reflexivity.
Qed.

Lemma contourArea_cv_contour (pts : list point) :
  contourArea (cv_contour pts) = Returns (Geometry.shoelace_area pts).
Proof. unfold contourArea. now rewrite points_of_cv_contour. Qed.

End ContourArrays.

(* ================================================================= *)
(** ** Methods and the instance *)

Section MethodFacts.

Import ImageProcessor.
Local Open Scope method_scope.

Lemma stateless_ret {A : Type} (a : A) : stateless (ret a).
Proof. exists (Returns a). reflexivity. Qed.

Lemma stateless_lift {A : Type} (r : py_result A) : stateless (lift r).
Proof. exists r. reflexivity. Qed.

Lemma stateless_mbind {A B : Type} (m : Method A) (k : A -> Method B) :
  stateless m -> (forall a, stateless (k a)) -> stateless (mbind m k).
Proof.
  intros [r Hm] Hk. destruct r as [a | e].
  - destruct (Hk a) as [rb Hb]. exists rb. intro self.
    unfold mbind. now rewrite Hm, Hb.
  - exists (Raises e). intro self. unfold mbind. now rewrite Hm.
Qed.

Lemma stateless_for_each {A S : Type} (xs : list A)
    (body : A -> S -> Method S) :
  (forall x acc, stateless (body x acc)) ->
  forall acc, stateless (for_each xs body acc).
Proof.
  intro Hb. induction xs as [| x rest IH]; intro acc; simpl.
  - apply stateless_ret.
  - apply stateless_mbind; [apply Hb | apply IH].
Qed.

Lemma stateless_if {A : Type} (b : bool) (m1 m2 : Method A) :
  stateless m1 -> stateless m2 -> stateless (if b then m1 else m2).
Proof. destruct b; tauto. Qed.

(** What a stateless method does on one instance it does on all. *)
Lemma stateless_run {A : Type} (m : Method A) (r : py_result A)
    (self self' : processor) :
  stateless m -> m self = (r, self) -> m self' = (r, self').
Proof.
  intros [r0 H] Hrun. rewrite H in Hrun. injection Hrun as ->. apply H.
Qed.

Lemma mbind_returns {A B : Type} (m : Method A) (k : A -> Method B)
    (a : A) (self : processor) :
  m self = (Returns a, self) -> mbind m k self = k a self.
Proof. intro H. unfold mbind. now rewrite H. Qed.

Lemma mbind_lift_returns {A B : Type} (r : py_result A) (k : A -> Method B)
    (a : A) (self : processor) :
  r = Returns a -> mbind (lift r) k self = k a self.
Proof. intros ->. reflexivity. Qed.

End MethodFacts.

(* ================================================================= *)
(** ** Edges of a polygon *)

Section Edges.

Import Cv2 Geometry.

Variable d : point.

Lemma combine_snoc (t : list point) (q x : point) :
  combine (q :: t) (t ++ [x]) = combine (q :: t) t ++ [(last (q :: t) d, x)].
Proof.
  revert q. induction t as [| q' t IH]; intro q; [reflexivity |].
  change (combine (q :: q' :: t) ((q' :: t) ++ [x]))
    with ((q, q') :: combine (q' :: t) (t ++ [x])).
  rewrite IH. reflexivity.
Qed.

Lemma combine_longer (l1 l2 : list point) (z : point) :
  (List.length l2 <= List.length l1)%nat ->
  combine (l1 ++ [z]) l2 = combine l1 l2.
Proof.
  revert l2. induction l1 as [| a l1 IH]; intros [| b l2] Hlen; simpl in *;
    try reflexivity; try lia.
  f_equal. apply IH. lia.
Qed.

(** The closing edge runs from the last point to the first. *)
Lemma cyclic_pairs_path (pts : list point) :
  pts <> [] ->
  cyclic_pairs pts = path_pairs pts ++ [(last pts d, hd d pts)].
Proof.
  destruct pts as [| p t]; [congruence | intros _].
  unfold cyclic_pairs, path_pairs. simpl tl. simpl hd. apply combine_snoc.
Qed.

Lemma path_pairs_snoc (pts : list point) (a : point) :
  pts <> [] ->
  path_pairs (pts ++ [a]) = path_pairs pts ++ [(last pts d, a)].
Proof.
  destruct pts as [| p t]; [congruence | intros _].
  unfold path_pairs. simpl tl.
  change ((p :: t) ++ [a]) with (p :: (t ++ [a])).
  rewrite <- combine_snoc.
  change (p :: t ++ [a]) with ((p :: t) ++ [a]).
  transitivity (combine ((p :: t) ++ [a]) (t ++ [a])); [reflexivity |].
  apply combine_longer. rewrite length_app. simpl. lia.
Qed.

(** The edges by index: the [i]-th runs from point [i] to point
    [(i + 1) mod n]. *)
Lemma cyclic_pairs_index (pts : list point) :
  cyclic_pairs pts
  = map (fun i => (nth i pts d, nth ((i + 1) mod List.length pts) pts d))
        (seq 0 (List.length pts)).
Proof.
  destruct pts as [| p t]; [reflexivity |].
  set (n := List.length (p :: t)).
  assert (Hlen : List.length (cyclic_pairs (p :: t)) = n).
  { unfold cyclic_pairs, n. rewrite length_combine, length_app.
    cbn [List.length]. lia. }
  set (f := fun i => (nth i (p :: t) d, nth ((i + 1) mod n) (p :: t) d)).
  apply (nth_ext _ _ (d, d) (f 0%nat)).
  - now rewrite length_map, length_seq.
  - intros i Hi. rewrite Hlen in Hi.
    rewrite (map_nth f (seq 0 n) 0%nat i), seq_nth by exact Hi.
    unfold cyclic_pairs. rewrite combine_nth
      by (rewrite length_app; simpl; lia).
    unfold f. f_equal. unfold n in *. cbn [List.length] in *.
    destruct (Nat.eq_dec (i + 1) (S (List.length t))) as [E | E].
    + cbn [Nat.add]. rewrite E, Nat.Div0.mod_same. cbn [nth].
      rewrite app_nth2 by lia.
      replace (i - List.length t)%nat with 0%nat by lia. reflexivity.
    + cbn [Nat.add]. rewrite Nat.mod_small by lia. rewrite app_nth1 by lia.
      replace (i + 1)%nat with (S i) by lia. reflexivity.
Qed.

Lemma last_rev (l : list point) : last (rev l) d = hd d l.
Proof.
  destruct l as [| a l]; [reflexivity |]. simpl. apply last_last.
Qed.

Lemma hd_rev (l : list point) : hd d (rev l) = last l d.
Proof.
  rewrite <- (rev_involutive l) at 2. now rewrite last_rev.
Qed.

End Edges.

(* ================================================================= *)
(** ** Perimeter *)

Section Perimeter.

Import Cv2 Geometry ImageProcessor.
Local Open Scope R_scope.

Lemma Rsum_app (l1 l2 : list R) : Rsum (l1 ++ l2) = Rsum l1 + Rsum l2.
Proof.
  induction l1 as [| a l1 IH]; simpl; [ring | rewrite IH; ring].
Qed.

Lemma fold_left_Rplus (l : list R) (acc : R) :
  fold_left Rplus l acc = acc + Rsum l.
Proof.
  revert acc. induction l as [| a l IH]; intro acc; simpl; [ring |].
  rewrite IH. ring.
Qed.

Lemma dist_nonneg (e : point * point) : 0 <= dist e.
Proof. destruct e as [p q]. apply sqrt_pos. Qed.

Lemma dist_same (p : point) : dist (p, p) = 0.
Proof.
  unfold dist. replace ((fst p - fst p) ^ 2 + (snd p - snd p) ^ 2)%Z with 0%Z
    by ring.
  apply sqrt_0.
Qed.

(** The loop of [calculate_line_length], run over any indices in range,
    adds the lengths of the edges that start at those indices. *)
Lemma line_length_loop (pts : list point) (d : point) (idx : list nat)
    (acc : R) (self : processor) :
  let n := List.length pts in
  Forall (fun i => (i < n)%nat) idx ->
  for_each idx
    (fun i length =>
       mbind (lift (row <- Np.getitem (cv_contour pts) i ;;
                    Np.getitem row 0)%py) (fun pt1 =>
       mbind (lift (row <- Np.getitem (cv_contour pts) ((i + 1) mod n) ;;
                    Np.getitem row 0)%py) (fun pt2 =>
       mbind (lift (euclid pt1 pt2)) (fun d => ret (length + d)))))
    acc self
  = (Returns
       (fold_left Rplus
          (map (fun i => dist (nth i pts d, nth ((i + 1) mod n) pts d)) idx)
          acc),
     self).
Proof.
  intros n Hidx. revert acc.
  induction Hidx as [| i idx Hi _ IH]; intro acc; [reflexivity |].
  assert (Hn : (n <> 0)%nat) by lia.
  assert (Hj : ((i + 1) mod n < n)%nat) by (apply Nat.mod_upper_bound; lia).
  cbn [for_each map fold_left].
  erewrite mbind_returns; [apply IH |].
  erewrite mbind_lift_returns
    by (apply cv_getitem, (nth_error_nth' pts d); exact Hi).
  erewrite mbind_lift_returns
    by (apply cv_getitem, (nth_error_nth' pts d); exact Hj).
  erewrite mbind_lift_returns by apply euclid_points.
  reflexivity.
Qed.

Lemma calculate_line_length_run (pts : list point) (self : processor) :
  calculate_line_length (cv_contour pts) self
  = (Returns (if (List.length pts <? 2)%nat then 0 else cyclic_length pts),
     self).
Proof.
  unfold calculate_line_length.
  erewrite mbind_lift_returns by apply cv_len.
  destruct (List.length pts <? 2)%nat; [reflexivity |].
  unfold range. rewrite (line_length_loop pts (0%Z, 0%Z)).
  - rewrite fold_left_Rplus, Rplus_0_l. unfold cyclic_length.
    now rewrite (cyclic_pairs_index (0%Z, 0%Z) pts), map_map.
  - apply Forall_forall. intros i Hi. apply in_seq in Hi. lia.
Qed.

End Perimeter.

Section Int32Arithmetic.

Import Cv2 Geometry.
Local Open Scope Z_scope.

Lemma wrap32_small (z : Z) : - 2 ^ 31 <= z < 2 ^ 31 -> wrap32 z = z.
Proof. intro H. unfold wrap32. rewrite Z.mod_small; lia. Qed.

Lemma sq_dist_ge0 (e : point * point) : 0 <= sq_dist e.
Proof. destruct e as [p q]. unfold sq_dist. nia. Qed.

Lemma dist_sq_dist (e : point * point) : dist e = sqrt (IZR (sq_dist e)).
Proof. destruct e as [p q]. reflexivity. Qed.

(** On an edge without wrap-around the [int32] arithmetic of numpy gives
    the exact squared length. *)
Lemma radicand_int32_exact (e : point * point) :
  no_wrap e -> radicand_int32 e = sq_dist e.
Proof.
  destruct e as [[x1 y1] [x2 y2]]. unfold no_wrap, sq_dist, radicand_int32.
  cbn [fst snd]. intro H.
  assert (Hx : 0 <= (x2 - x1) ^ 2) by nia.
  assert (Hy : 0 <= (y2 - y1) ^ 2) by nia.
  assert (Hdx : - 2 ^ 31 <= x2 - x1 < 2 ^ 31) by nia.
  assert (Hdy : - 2 ^ 31 <= y2 - y1 < 2 ^ 31) by nia.
  rewrite (wrap32_small (x2 - x1) Hdx), (wrap32_small (y2 - y1) Hdy).
  rewrite (wrap32_small ((x2 - x1) ^ 2)) by lia.
  rewrite (wrap32_small ((y2 - y1) ^ 2)) by lia.
  apply wrap32_small. lia.
Qed.

(** Beyond that the two part: an edge of 65536 pixels has the [int32]
    radicand 0. *)
Example radicand_int32_wraps :
  radicand_int32 ((0, 0), (65536, 0)) = 0
  /\ sq_dist ((0, 0), (65536, 0)) = 2 ^ 32.
Proof. split; reflexivity. Qed.

End Int32Arithmetic.

Section PerimeterResult.

Import Cv2 Geometry ImageProcessor.
Local Open Scope R_scope.



End PerimeterResult.

(* ================================================================= *)
(** ** Enclosed area *)

Section Area.

Import Cv2 Geometry ImageProcessor.
Local Open Scope Z_scope.

Lemma Zsum_app (l1 l2 : list Z) : Zsum (l1 ++ l2) = Zsum l1 + Zsum l2.
Proof.
  induction l1 as [| a l1 IH]; simpl; [reflexivity | rewrite IH; ring].
Qed.

Lemma cross_swap (p q : point) : cross (q, p) = - cross (p, q).
Proof. unfold cross. ring. Qed.

(** Walking an open polyline backwards negates its cross-product sum. *)
Lemma path_cross_rev (pts : list point) :
  Zsum (map cross (path_pairs (rev pts)))
  = - Zsum (map cross (path_pairs pts)).
Proof.
  induction pts as [| a l IH]; [reflexivity |].
  destruct l as [| b l]; [reflexivity |].
  change (rev (a :: b :: l)) with (rev (b :: l) ++ [a]).
  rewrite (path_pairs_snoc (0, 0) (rev (b :: l)) a).
  - rewrite map_app, Zsum_app, IH, last_rev.
    change (path_pairs (a :: b :: l)) with ((a, b) :: path_pairs (b :: l)).
    cbn [map Zsum fold_right hd]. rewrite (cross_swap a b).
    unfold Zsum. ring.
  - intro E. apply (f_equal (@List.length point)) in E.
    rewrite length_rev in E. discriminate.
Qed.

Lemma shoelace_sum_rev (pts : list point) :
  shoelace_sum (rev pts) = - shoelace_sum pts.
Proof.
  destruct pts as [| p t]; [reflexivity |].
  assert (Hne : rev (p :: t) <> []).
  { intro E. apply (f_equal (@List.length point)) in E.
    rewrite length_rev in E. discriminate. }
  unfold shoelace_sum.
  rewrite (cyclic_pairs_path (0, 0) _ Hne).
  rewrite (cyclic_pairs_path (0, 0) (p :: t)) by discriminate.
  rewrite !map_app, !Zsum_app, path_cross_rev, last_rev, hd_rev.
  cbn [map Zsum fold_right]. rewrite (cross_swap (last (p :: t) (0, 0))).
  ring.
Qed.

Lemma shoelace_area_nonneg (pts : list point) : (0 <= shoelace_area pts)%Q.
Proof.
  unfold shoelace_area. apply Qmult_le_0_compat; [discriminate |].
  change 0%Q with (inject_Z 0). rewrite <- Zle_Qle. apply Z.abs_nonneg.
Qed.

Lemma calculate_area_run (pts : list point) (self : processor) :
  calculate_area (cv_contour pts) self
  = (Returns (if (List.length pts <? 3)%nat then 0%Q
              else Qabs (shoelace_area pts)),
     self).
Proof.
  unfold calculate_area.
  erewrite mbind_lift_returns by apply cv_len.
  destruct (List.length pts <? 3)%nat; [reflexivity |].
  erewrite mbind_lift_returns by apply contourArea_cv_contour.
  reflexivity.
Qed.

(** C4: [calculate_area] returns [0.5 * |Σ (x_i*y_{i+1} - x_{i+1}*y_i)|]
    over the cyclic point sequence for three points or more, 0 for fewer,
    and the same value for the points in reverse order. *)
Theorem area_is_shoelace (pts : list point) (self : processor) :
  ((3 <= List.length pts)%nat ->
   exists a, calculate_area (cv_contour pts) self = (Returns a, self)
             /\ (a == (1 # 2) * inject_Z (Z.abs (Zsum (map cross
                                                   (cyclic_pairs pts)))))%Q)
  /\ ((List.length pts < 3)%nat ->
      calculate_area (cv_contour pts) self = (Returns 0%Q, self))
  /\ calculate_area (cv_contour (rev pts)) self
     = calculate_area (cv_contour pts) self.
Proof.
  rewrite !calculate_area_run. split; [| split].
  - intro H. apply Nat.ltb_ge in H. rewrite H. eexists. split; [reflexivity |].
    apply Qabs_pos, shoelace_area_nonneg.
  - intro H. apply Nat.ltb_lt in H. now rewrite H.
  - rewrite length_rev. unfold shoelace_area.
    now rewrite shoelace_sum_rev, Z.abs_opp.
Qed.

(** The theorem on a 4 by 3 rectangle and on a segment. *)
Lemma area_is_shoelace_witness :
  (exists a,
     calculate_area (cv_contour [(0, 0); (4, 0); (4, 3); (0, 3)]) __init__
     = (Returns a, __init__)
     /\ (a == (1 # 2) * inject_Z (Z.abs (Zsum (map cross (cyclic_pairs
                    [(0, 0); (4, 0); (4, 3); (0, 3)]%Z)))))%Q)
  /\ calculate_area (cv_contour [(0, 0); (4, 0)]) __init__
     = (Returns 0%Q, __init__).
Proof.
  split.
  - apply (proj1 (area_is_shoelace [(0, 0); (4, 0); (4, 3); (0, 3)] __init__)).
    simpl. lia.
  - apply (proj1 (proj2 (area_is_shoelace [(0, 0); (4, 0)] __init__))).
    simpl. lia.
Defined.

End Area.

(* ================================================================= *)
(** ** Selecting the main boundary *)

Section MaxKey.

Local Open Scope Q_scope.

Variable A : Type.
Variable key : A -> py_result Q.
Variable kv : A -> Q.

Lemma max_loop_first_largest (rest seen : list A) (ib : nat) (best : A) :
  (forall x, In x rest -> key x = Returns (kv x)) ->
  first_largest kv seen ib best ->
  exists im m, max_loop key best (kv best) rest = Returns m
               /\ first_largest kv (seen ++ rest) im m.
Proof.
  revert seen ib best.
  induction rest as [| x rest IH]; intros seen ib best Hkey Hinv.
  - exists ib, best. rewrite app_nil_r. split; [reflexivity | exact Hinv].
  - destruct Hinv as (Hnth & Hle & Hlt).
    assert (Hib : (ib < List.length seen)%nat)
      by (apply nth_error_Some; congruence).
    cbn [max_loop]. rewrite (Hkey x) by (now left). cbn [bind].
    replace (seen ++ x :: rest) with ((seen ++ [x]) ++ rest)
      by (now rewrite <- app_assoc).
    destruct (py_gt (kv x) (kv best)) eqn:E.
    + apply py_gt_true in E.
      apply (IH (seen ++ [x]) (List.length seen) x).
      * intros y Hy. apply Hkey. now right.
      * split; [| split].
        -- rewrite nth_error_app2, Nat.sub_diag by lia. reflexivity.
        -- intros j y Hj.
           destruct (Nat.lt_ge_cases j (List.length seen)) as [Hlo | Hhi].
           ++ rewrite nth_error_app1 in Hj by exact Hlo.
              apply Qlt_le_weak. eapply Qle_lt_trans; [| exact E].
              eapply Hle; exact Hj.
           ++ rewrite nth_error_app2 in Hj by exact Hhi.
              destruct (j - List.length seen)%nat as [| k];
                [| destruct k; discriminate].
              injection Hj as <-. apply Qle_refl.
        -- intros j y Hlo Hj. rewrite nth_error_app1 in Hj by exact Hlo.
           eapply Qle_lt_trans; [| exact E]. eapply Hle; exact Hj.
    + apply py_gt_false in E.
      apply (IH (seen ++ [x]) ib best).
      * intros y Hy. apply Hkey. now right.
      * split; [| split].
        -- rewrite nth_error_app1 by exact Hib. exact Hnth.
        -- intros j y Hj.
           destruct (Nat.lt_ge_cases j (List.length seen)) as [Hlo | Hhi].
           ++ rewrite nth_error_app1 in Hj by exact Hlo.
              eapply Hle; exact Hj.
           ++ rewrite nth_error_app2 in Hj by exact Hhi.
              destruct (j - List.length seen)%nat as [| k];
                [| destruct k; discriminate].
              injection Hj as <-. exact E.
        -- intros j y Hlo Hj.
           rewrite nth_error_app1 in Hj by lia.
           eapply Hlt; [exact Hlo | exact Hj].
Qed.

(** [max(items, key=key)] on a non-empty list returns the first element
    whose key is the greatest. *)
Lemma py_max_key_first_largest (items : list A) :
  items <> [] ->
  (forall x, In x items -> key x = Returns (kv x)) ->
  exists i m, py_max_key key items = Returns m
              /\ first_largest kv items i m.
Proof.
  destruct items as [| x rest]; [congruence | intros _ Hkey].
  cbn [py_max_key]. rewrite (Hkey x) by (now left). cbn [bind].
  destruct (max_loop_first_largest rest [x] 0 x) as (im & m & Hrun & Hinv).
  - intros y Hy. apply Hkey. now right.
  - split; [reflexivity | split].
    + intros [| j] y Hj; [injection Hj as <-; apply Qle_refl |].
      destruct j; discriminate.
    + intros j y Hj. lia.
  - exists im, m. split; [exact Hrun | exact Hinv].
Qed.

(** There is one first-largest element. *)
Lemma first_largest_unique (items : list A) (i i' : nat) (m m' : A) :
  first_largest kv items i m -> first_largest kv items i' m' ->
  i = i' /\ m = m'.
Proof.
  intros (Hn & Hle & Hlt) (Hn' & Hle' & Hlt').
  assert (E : i = i').
  { destruct (Nat.lt_trichotomy i i') as [H | [H | H]]; [| exact H |].
    - pose proof (Hlt' i m H Hn). pose proof (Hle i' m' Hn'). lra.
    - pose proof (Hlt i' m' H Hn'). pose proof (Hle' i m Hn). lra. }
  split; [exact E |]. subst i'. congruence.
Qed.

End MaxKey.

Section MainBoundary.

Import Cv2 Geometry ImageProcessor.
Local Open Scope Q_scope.

(** The area OpenCV reports for an array, 0 where it refuses the array. *)
Lemma contourArea_value (polys : list (list point)) (x : Np.ndarray) :
  In x (map cv_contour polys) ->
  contourArea x
  = Returns (match contourArea x with Returns v => v | Raises _ => 0 end).
Proof.
  intro H. apply in_map_iff in H. destruct H as (q & <- & _).
  now rewrite contourArea_cv_contour.
Qed.

Lemma select_main_contour (polys : list (list point)) :
  polys <> [] ->
  exists i pts, py_max_key contourArea (map cv_contour polys)
                = Returns (cv_contour pts)
                /\ first_largest shoelace_area polys i pts.
Proof.
  intro Hne.
  set (kv := fun x => match contourArea x with
                      | Returns v => v
                      | Raises _ => 0
                      end).
  destruct (py_max_key_first_largest Np.ndarray contourArea kv
              (map cv_contour polys)) as (i & m & Hrun & Hn & Hle & Hlt).
  - destruct polys; [congruence | discriminate].
  - apply contourArea_value.
  - assert (Hkv : forall q, kv (cv_contour q) = shoelace_area q)
      by (intro q; unfold kv; now rewrite contourArea_cv_contour).
    rewrite nth_error_map in Hn.
    destruct (nth_error polys i) as [pts |] eqn:Hi; [| discriminate].
    injection Hn as <-. exists i, pts. split; [exact Hrun |].
    split; [exact Hi | split].
    + intros j q Hj. rewrite <- !Hkv. apply (Hle j).
      now rewrite nth_error_map, Hj.
    + intros j q Hlo Hj. rewrite <- !Hkv. apply (Hlt j); [exact Hlo |].
      now rewrite nth_error_map, Hj.
Qed.

(** Two rectangles of area 12: the one found first is kept. *)
Example main_boundary_tie :
  py_max_key contourArea
    (map cv_contour
       [ [(0, 0); (2, 0); (2, 2); (0, 2)]%Z;
         [(0, 0); (4, 0); (4, 3); (0, 3)]%Z;
         [(5, 5); (8, 5); (8, 9); (5, 9)]%Z ])
  = Returns (cv_contour [(0, 0); (4, 0); (4, 3); (0, 3)]%Z).
Proof. reflexivity. Qed.

End MainBoundary.

(* ================================================================= *)
(** ** Closing a contour *)

Section Closure.

Import Cv2 Geometry ImageProcessor.

Lemma auto_close_contour_run (pts : list point) (self : processor) :
  pts <> [] ->
  auto_close_contour (cv_contour pts) self
  = (Raises (ValueError
       ("all the input arrays must have same number of dimensions, "
        ++ "but the array at index 0 has 3 dimension(s) and the array at "
        ++ "index 1 has 2 dimension(s)")),
     self).
Proof.
  destruct pts as [| p t]; [congruence | intros _]. reflexivity.
Qed.

(** C6, on the code: [auto_close_contour] does not return the contour
    with its first point appended.  [contour[0]] has one axis less than
    [contour], and [np.vstack] refuses to stack the two: on every
    non-empty contour the call raises [ValueError]. *)
Theorem auto_close_contour_raises (pts : list point) (self : processor) :
  pts <> [] ->
  auto_close_contour (cv_contour pts) self
  = (Raises (ValueError
       ("all the input arrays must have same number of dimensions, "
        ++ "but the array at index 0 has 3 dimension(s) and the array at "
        ++ "index 1 has 2 dimension(s)")),
     self)
  /\ auto_close_contour (cv_contour pts) self
     <> (Returns (cv_contour (autoClose pts)), self).
Proof.
  intro H. rewrite (auto_close_contour_run pts self H).
  split; [reflexivity | discriminate].
Qed.

(** The theorem on an open three-point trace. *)
Lemma auto_close_contour_raises_witness :
  auto_close_contour (cv_contour [(0, 0); (10, 0); (10, 10)]%Z) __init__
  = (Raises (ValueError
       ("all the input arrays must have same number of dimensions, "
        ++ "but the array at index 0 has 3 dimension(s) and the array at "
        ++ "index 1 has 2 dimension(s)")),
     __init__)
  /\ auto_close_contour (cv_contour [(0, 0); (10, 0); (10, 10)]%Z) __init__
     <> (Returns (cv_contour (autoClose [(0, 0); (10, 0); (10, 10)]%Z)),
         __init__).
Proof.
  apply auto_close_contour_raises. discriminate.
Defined.

End Closure.

Section ClosureGeometry.

Import Cv2 Geometry.
Local Open Scope R_scope.

(** What the closing step is meant to achieve: appending the first point
    adds an edge of length zero to the cyclic sum. *)
Lemma cyclic_length_autoClose (pts : list point) :
  cyclic_length (autoClose pts) = cyclic_length pts.
Proof.
  destruct pts as [| p t]; [reflexivity |].
  unfold cyclic_length, autoClose.
  rewrite (cyclic_pairs_path (0, 0)%Z ((p :: t) ++ [p]))
    by (destruct t; discriminate).
  rewrite (path_pairs_snoc (0, 0)%Z (p :: t) p) by discriminate.
  rewrite (cyclic_pairs_path (0, 0)%Z (p :: t)) by discriminate.
  rewrite last_last. cbn [hd app].
  rewrite !map_app, !Rsum_app. cbn [map Rsum fold_right].
  rewrite dist_same. lra.
Qed.

Lemma cyclic_length_autoClose_iter (k : nat) (pts : list point) :
  cyclic_length (Nat.iter k autoClose pts) = cyclic_length pts.
Proof.
  induction k as [| k IH]; [reflexivity |].
  cbn [Nat.iter nat_rect]. fold (Nat.iter k autoClose pts).
  now rewrite cyclic_length_autoClose.
Qed.

End ClosureGeometry.

(* ================================================================= *)
(** ** The instance during processing *)

Section Instance.

Import Cv2 Geometry ImageProcessor.

Ltac stateless_step :=
  first
    [ apply stateless_ret
    | apply stateless_lift
    | apply stateless_mbind; [| intro]
    | apply stateless_for_each; intros
    | match goal with
      | |- stateless (if ?b then _ else _) => destruct b
      | |- stateless (match ?x with _ => _ end) => destruct x
      end ].

Lemma calculate_line_length_stateless (contour : Np.ndarray) :
  stateless (calculate_line_length contour).
Proof. unfold calculate_line_length. repeat stateless_step. Qed.

Lemma calculate_area_stateless (contour : Np.ndarray) :
  stateless (calculate_area contour).
Proof. unfold calculate_area. repeat stateless_step. Qed.

Lemma is_contour_closed_stateless (contour : Np.ndarray) (threshold : R) :
  stateless (is_contour_closed contour threshold).
Proof. unfold is_contour_closed. repeat stateless_step. Qed.

Lemma auto_close_contour_stateless (contour : Np.ndarray) :
  stateless (auto_close_contour contour).
Proof. unfold auto_close_contour. repeat stateless_step. Qed.

Variable image : Type.
Variable imread : string -> option image.
Variable cv_preprocess : image -> image * image.
Variable cv_find_contours : image -> image -> list Np.ndarray * image.
Variable format_2f : R -> string.

Lemma preprocess_image_stateless (img : image) :
  stateless (preprocess_image cv_preprocess img).
Proof. apply stateless_ret. Qed.

Lemma detect_drawn_lines_stateless (processed original : image) :
  stateless (detect_drawn_lines cv_find_contours processed original).
Proof. unfold detect_drawn_lines. repeat stateless_step. Qed.

Lemma detect_scale_reference_stateless (img : image)
    (contours : list Np.ndarray) :
  stateless (detect_scale_reference img contours).
Proof. apply stateless_ret. Qed.

Lemma process_image_array_stateless (img : image) :
  stateless (process_image_array cv_preprocess cv_find_contours format_2f img).
Proof.
  unfold process_image_array.
  apply stateless_mbind; [apply preprocess_image_stateless |].
  intros [processed original_color].
  apply stateless_mbind; [apply detect_drawn_lines_stateless |].
  intros [contours detection_mask].
  destruct contours as [| c cs]; [apply stateless_ret |].
  apply stateless_mbind; [apply stateless_lift | intro main].
  apply stateless_mbind; [apply is_contour_closed_stateless | intro closed].
  apply stateless_mbind;
    [destruct closed; [apply stateless_ret | apply auto_close_contour_stateless]
    | intro main'].
  apply stateless_mbind; [apply calculate_line_length_stateless | intro len].
  apply stateless_mbind; [apply calculate_area_stateless | intro ar].
  apply stateless_mbind; [apply detect_scale_reference_stateless | intro sf].
  destruct (truthy sf); apply stateless_ret.
Qed.

Lemma process_image_stateless (image_path : string) :
  stateless (process_image imread cv_preprocess cv_find_contours format_2f
               image_path).
Proof.
  unfold process_image. destruct (imread image_path) as [img |].
  - apply process_image_array_stateless.
  - apply stateless_lift.
Qed.

(** C9, as the code has it: no method writes to the instance, which is
    after every call what it was before, and no outcome depends on it; the
    debug flag is no call parameter but the attribute [debug_mode], which
    the constructor stores as [False] on the instance. *)
Theorem methods_keep_instance :
  (forall img, stateless (preprocess_image cv_preprocess img))
  /\ (forall processed original,
        stateless (detect_drawn_lines cv_find_contours processed original))
  /\ (forall contour, stateless (calculate_line_length contour))
  /\ (forall contour, stateless (calculate_area contour))
  /\ (forall contour threshold,
        stateless (is_contour_closed contour threshold))
  /\ (forall contour, stateless (auto_close_contour contour))
  /\ (forall (img : image) contours,
        stateless (detect_scale_reference img contours))
  /\ (forall img,
        stateless (process_image_array cv_preprocess cv_find_contours
                     format_2f img))
  /\ (forall image_path,
        stateless (process_image imread cv_preprocess cv_find_contours
                     format_2f image_path))
  /\ debug_mode __init__ = false.
Proof.
  repeat split.
  - exact preprocess_image_stateless.
  - exact detect_drawn_lines_stateless.
  - exact calculate_line_length_stateless.
  - exact calculate_area_stateless.
  - exact is_contour_closed_stateless.
  - exact auto_close_contour_stateless.
  - exact detect_scale_reference_stateless.
  - exact process_image_array_stateless.
  - exact process_image_stateless.
Qed.

(** C1, as the code has it: when detection yields no contour, both entry
    points return the literal zero result, whose length and area are the
    string "0". *)
Theorem no_contours_zero_result (img : image) (self : processor)
    (mask : image) :
  detect_drawn_lines cv_find_contours
    (fst (cv_preprocess img)) (snd (cv_preprocess img)) self
  = (Returns ([], mask), self) ->
  process_image_array cv_preprocess cv_find_contours format_2f img self
  = (Returns {| line_length := "0";
                area := "0";
                unit_ := "pixels";
                notes := "No drawn lines detected in the image." |},
     self)
  /\ (forall image_path,
        imread image_path = Some img ->
        process_image imread cv_preprocess cv_find_contours format_2f
          image_path self
        = (Returns {| line_length := "0";
                      area := "0";
                      unit_ := "pixels";
                      notes := "No drawn lines detected in the image." |},
           self)).
Proof.
  intro Hdet.
  assert (Hrun : process_image_array cv_preprocess cv_find_contours
                   format_2f img self
                 = (Returns {| line_length := "0";
                               area := "0";
                               unit_ := "pixels";
                               notes := "No drawn lines detected in the image."
                            |}, self)).
  { unfold process_image_array, preprocess_image.
    destruct (cv_preprocess img) as [processed original_color].
    cbn [fst snd] in Hdet. unfold mbind at 1. cbn [ret].
    rewrite (mbind_returns _ _ _ _ Hdet). reflexivity. }
  split; [exact Hrun |].
  intros image_path Hread. unfold process_image. now rewrite Hread.
Qed.

End Instance.

(** The theorem on a blank image, where detection finds nothing. *)
Lemma no_contours_zero_result_witness :
  ImageProcessor.process_image_array (fun img : Datatypes.unit => (img, img))
    (fun _ _ => ([], tt)) (fun _ => "0.00"%string) tt
    ImageProcessor.__init__
  = (Returns {| ImageProcessor.line_length := "0";
                ImageProcessor.area := "0";
                ImageProcessor.unit_ := "pixels";
                ImageProcessor.notes
                  := "No drawn lines detected in the image." |},
     ImageProcessor.__init__).
Proof.
  apply (proj1 (no_contours_zero_result Datatypes.unit (fun _ => Some tt)
                  (fun img => (img, img)) (fun _ _ => ([], tt))
                  (fun _ => "0.00"%string) tt ImageProcessor.__init__ tt
                  eq_refl)).
Defined.

(** C1, as stated, fails: on a blank image, where detection finds
    nothing, the result carries "0" and not "0.00" for length and area,
    and its note is another sentence. *)
Lemma no_contours_result_not_two_decimals :
  ImageProcessor.detect_drawn_lines (fun _ _ => ([], tt)) tt tt
    ImageProcessor.__init__
  = (Returns ([], tt), ImageProcessor.__init__)
  /\ ImageProcessor.process_image_array (fun img : Datatypes.unit => (img, img))
       (fun _ _ => ([], tt)) (fun _ => "0.00"%string) tt
       ImageProcessor.__init__
     <> (Returns {| ImageProcessor.line_length := "0.00";
                    ImageProcessor.area := "0.00";
                    ImageProcessor.unit_ := "pixels";
                    ImageProcessor.notes := "No drawn lines detected." |},
         ImageProcessor.__init__).
Proof.
  split; [reflexivity | discriminate].
Qed.

(** C9, as stated, fails: the debug flag is state of the instance.  The
    constructor stores it, and setting it, as the usage example does,
    yields another instance for every later call. *)
Lemma debug_flag_is_instance_state :
  ImageProcessor.debug_mode ImageProcessor.__init__ = false
  /\ snd (ImageProcessor.set_debug_mode true ImageProcessor.__init__)
     <> ImageProcessor.__init__
  /\ ImageProcessor.debug_mode
       (snd (ImageProcessor.set_debug_mode true ImageProcessor.__init__))
     = true.
Proof.
  split; [reflexivity | split; [discriminate | reflexivity]].
Qed.

(* ================================================================= *)
(** ** The pipeline on detected polygons *)

Section PipelineRuns.

Import Cv2 Geometry ImageProcessor.

Variable image : Type.
Variable cv_preprocess : image -> image * image.
Variable cv_find_contours : image -> image -> list Np.ndarray * image.
Variable format_2f : R -> string.

Lemma filter_by_area (polys : list (list point)) :
  filter_py (fun cnt => (a <- contourArea cnt ;; Returns (py_gt a 50))%py)
    (map cv_contour polys)
  = Returns (map cv_contour (large polys)).
Proof.
  induction polys as [| q polys IH]; [reflexivity |].
  unfold large in *. cbn [map filter_py filter].
  rewrite contourArea_cv_contour, IH. cbn [bind].
  destruct (py_gt (shoelace_area q) 50); reflexivity.
Qed.

Lemma detect_drawn_lines_run (processed original mask : image)
    (polys : list (list point)) (self : processor) :
  cv_find_contours processed original = (map cv_contour polys, mask) ->
  detect_drawn_lines cv_find_contours processed original self
  = (Returns (map cv_contour (large polys), mask), self).
Proof.
  intro H. unfold detect_drawn_lines. rewrite H.
  erewrite mbind_lift_returns by apply filter_by_area. reflexivity.
Qed.

Lemma nth_error_last (pts : list point) (d : point) :
  pts <> [] -> nth_error pts (List.length pts - 1) = Some (last pts d).
Proof.
  induction pts as [| p t IH]; [congruence | intros _].
  destruct t as [| q t]; [reflexivity |].
  cbn [List.length Nat.sub] in *. rewrite Nat.sub_0_r in *.
  cbn [nth_error]. apply IH. discriminate.
Qed.

Lemma is_contour_closed_run (pts : list point) (threshold : R)
    (self : processor) :
  is_contour_closed (cv_contour pts) threshold self
  = (Returns
       (if (List.length pts <? 3)%nat then false
        else if Rlt_dec (dist (hd (0, 0)%Z pts, last pts (0, 0)%Z)) threshold
             then true else false),
     self).
Proof.
  unfold is_contour_closed.
  erewrite mbind_lift_returns by apply cv_len.
  destruct (List.length pts <? 3)%nat eqn:E; [reflexivity |].
  assert (Hne : pts <> []) by (intros ->; discriminate).
  erewrite mbind_lift_returns
    by (apply (cv_getitem pts 0 (hd (0, 0)%Z pts)); destruct pts;
        [congruence | reflexivity]).
  erewrite mbind_lift_returns
    by (apply cv_getitem_last, (nth_error_last pts (0, 0)%Z Hne)).
  erewrite mbind_lift_returns by apply euclid_points.
  reflexivity.
Qed.

(** End to end, for a main boundary that [is_contour_closed] accepts: the
    result carries the cyclic length and the shoelace area of the first
    largest candidate, in pixels. *)
Lemma process_image_array_closed (img mask : image)
    (polys : list (list point)) (i : nat) (pts : list point)
    (self : processor) :
  cv_find_contours (fst (cv_preprocess img)) (snd (cv_preprocess img))
  = (map cv_contour polys, mask) ->
  first_largest shoelace_area (large polys) i pts ->
  (3 <= List.length pts)%nat ->
  (dist (hd (0, 0)%Z pts, last pts (0, 0)%Z) < 5.0)%R ->
  process_image_array cv_preprocess cv_find_contours format_2f img self
  = (Returns {| line_length := format_2f (cyclic_length pts);
                area := format_2f (Q2R (shoelace_area pts));
                unit_ := "pixels";
                notes :=
                  join_space
                    ((if (1 <? List.length (large polys))%nat then
                        [("Detected "
                          ++ str_of_nat (List.length (large polys))
                          ++ " separate line segments. "
                          ++ "Using the largest as main boundary.")%string]
                      else [])
                     ++ ["No reference scale detected. "
                         ++ "Measurements in pixels only."]%string) |},
     self).
Proof.
  intros Hfind Hmax Hlen Hclosed.
  unfold process_image_array, preprocess_image.
  destruct (cv_preprocess img) as [processed original_color].
  cbn [fst snd] in Hfind. unfold mbind at 1. cbn [ret].
  rewrite (mbind_returns _ _ _ _
             (detect_drawn_lines_run _ _ _ _ self Hfind)).
  assert (Hne : large polys <> []).
  { destruct Hmax as (Hn & _). intro E. rewrite E in Hn.
    destruct i; discriminate. }
  destruct (select_main_contour (large polys) Hne) as (i' & pts' & Hsel & Hm').
  destruct (first_largest_unique _ shoelace_area _ _ _ _ _ Hmax Hm')
    as [_ <-].
  destruct (map cv_contour (large polys)) as [| c cs] eqn:Hmap.
  { destruct (large polys); [congruence | discriminate]. }
  erewrite mbind_lift_returns by exact Hsel.
  rewrite (mbind_returns _ _ _ _ (is_contour_closed_run pts _ self)).
  apply Nat.ltb_ge in Hlen. rewrite Hlen.
  destruct (Rlt_dec (dist (hd (0%Z, 0%Z) pts, last pts (0%Z, 0%Z))) 5.0%R)
    as [_ | Hn]; [| contradiction].
  cbn [negb]. unfold mbind at 1. cbn [ret].
  rewrite (mbind_returns _ _ _ _ (calculate_line_length_run pts self)).
  rewrite (mbind_returns _ _ _ _ (calculate_area_run pts self)).
  rewrite Hlen. unfold mbind, detect_scale_reference, ret, truthy.
  assert (Hlen2 : (List.length pts <? 2)%nat = false)
    by (apply Nat.ltb_ge; apply Nat.ltb_ge in Hlen; lia).
  rewrite Hlen2.
  rewrite (Qeq_eqR _ _ (Qabs_pos _ (shoelace_area_nonneg pts))).
  rewrite <- Hmap, length_map.
  destruct (1 <? List.length (large polys))%nat; reflexivity.
Qed.

(** A main boundary that [is_contour_closed] rejects goes to
    [auto_close_contour], and what that call raises ends the pipeline. *)
Lemma process_image_array_open (img mask : image)
    (polys : list (list point)) (i : nat) (pts : list point)
    (self : processor) :
  cv_find_contours (fst (cv_preprocess img)) (snd (cv_preprocess img))
  = (map cv_contour polys, mask) ->
  first_largest shoelace_area (large polys) i pts ->
  (3 <= List.length pts)%nat ->
  (5.0 <= dist (hd (0, 0)%Z pts, last pts (0, 0)%Z))%R ->
  raises (fst (process_image_array cv_preprocess cv_find_contours format_2f
                 img self)).
Proof.
  intros Hfind Hmax Hlen Hopen.
  unfold process_image_array, preprocess_image.
  destruct (cv_preprocess img) as [processed original_color].
  cbn [fst snd] in Hfind. unfold mbind at 1. cbn [ret].
  rewrite (mbind_returns _ _ _ _
             (detect_drawn_lines_run _ _ _ _ self Hfind)).
  assert (Hne : large polys <> []).
  { destruct Hmax as (Hn & _). intro E. rewrite E in Hn.
    destruct i; discriminate. }
  destruct (select_main_contour (large polys) Hne) as (i' & pts' & Hsel & Hm').
  destruct (first_largest_unique _ shoelace_area _ _ _ _ _ Hmax Hm')
    as [_ <-].
  destruct (map cv_contour (large polys)) as [| c cs] eqn:Hmap.
  { destruct (large polys); [congruence | discriminate]. }
  erewrite mbind_lift_returns by exact Hsel.
  rewrite (mbind_returns _ _ _ _ (is_contour_closed_run pts _ self)).
  apply Nat.ltb_ge in Hlen. rewrite Hlen.
  destruct (Rlt_dec (dist (hd (0%Z, 0%Z) pts, last pts (0%Z, 0%Z))) 5.0%R)
    as [Hlt | _]; [lra |].
  cbn [negb]. unfold mbind at 1.
  rewrite auto_close_contour_run by (intros ->; discriminate).
  eexists. reflexivity.
Qed.

Lemma large_has_three_points (polys : list (list point))
    (pts : list point) :
  In pts (large polys) -> (3 <= List.length pts)%nat.
Proof.
  unfold large. rewrite filter_In, py_gt_true. intros [_ H].
  destruct pts as [| [a b] [| [c d] [| r t]]]; cbn [List.length]; try lia;
    exfalso; revert H; unfold shoelace_area, shoelace_sum;
    cbn [cyclic_pairs app combine map cross Zsum fold_right fst snd];
    match goal with
    | |- context [Z.abs ?z] => replace z with 0%Z by ring
    end; cbn; unfold Qlt; cbn; lia.
Qed.

(** C7: for every non-empty list of candidate polygons that the detector
    returns, the pipeline measures the polygon of maximum enclosed area,
    and among several of maximum area the one found first: the returned
    length and area are those of that polygon when it is closed, and when
    it is open the pipeline goes into the closing step with it and
    raises.  The polygons are the detector's, so no edge of theirs is
    long enough for [int32] wrap-around. *)
Theorem main_boundary_is_first_largest (img mask : image)
    (polys : list (list point)) (self : processor) :
  cv_find_contours (fst (cv_preprocess img)) (snd (cv_preprocess img))
  = (map cv_contour polys, mask) ->
  Forall (fun q => Forall no_wrap (cyclic_pairs q)) polys ->
  large polys <> [] ->
  exists i pts,
    nth_error (large polys) i = Some pts
    /\ (forall j q, nth_error (large polys) j = Some q ->
                    (shoelace_area q <= shoelace_area pts)%Q)
    /\ (forall j q, nth_error (large polys) j = Some q ->
                    (shoelace_area q == shoelace_area pts)%Q -> (i <= j)%nat)
    /\ ((dist (hd (0, 0)%Z pts, last pts (0, 0)%Z) < 5.0)%R ->
        process_image_array cv_preprocess cv_find_contours format_2f img self
        = (Returns
             {| line_length := format_2f (cyclic_length pts);
                area := format_2f (Q2R (shoelace_area pts));
                unit_ := "pixels";
                notes :=
                  join_space
                    ((if (1 <? List.length (large polys))%nat then
                        [("Detected "
                          ++ str_of_nat (List.length (large polys))
                          ++ " separate line segments. "
                          ++ "Using the largest as main boundary.")%string]
                      else [])
                     ++ ["No reference scale detected. "
                         ++ "Measurements in pixels only."]%string) |},
           self))
    /\ ((5.0 <= dist (hd (0, 0)%Z pts, last pts (0, 0)%Z))%R ->
        raises (fst (process_image_array cv_preprocess cv_find_contours
                       format_2f img self))).
Proof.
  intros Hfind _ Hne.
  destruct (select_main_contour (large polys) Hne)
    as (i & pts & _ & Hmax).
  pose proof Hmax as (Hn & Hle & Hlt).
  assert (Hlen : (3 <= List.length pts)%nat)
    by (apply (large_has_three_points polys), (nth_error_In _ i), Hn).
  exists i, pts. split; [exact Hn |]. split; [exact Hle |].
  split; [| split].
  - intros j q Hj Heq.
    destruct (Nat.le_gt_cases i j) as [Hij | Hji]; [exact Hij |].
    pose proof (Hlt j q Hji Hj) as Hlow. rewrite Heq in Hlow.
    exfalso. exact (Qlt_irrefl _ Hlow).
  - intro Hclosed.
    exact (process_image_array_closed img mask polys i pts self
             Hfind Hmax Hlen Hclosed).
  - intro Hopen.
    exact (process_image_array_open img mask polys i pts self
             Hfind Hmax Hlen Hopen).
Qed.

End PipelineRuns.

(** The theorem on a detector that reports a small square and two
    rectangles of area 120, each closed up to one pixel: the rectangle
    found first is measured. *)
Lemma main_boundary_is_first_largest_witness :
  exists i pts,
    nth_error
      (Geometry.large
         [ [(0, 0); (8, 0); (8, 8); (0, 8); (0, 1)]%Z;
           [(0, 0); (12, 0); (12, 10); (0, 10); (0, 1)]%Z;
           [(20, 20); (32, 20); (32, 30); (20, 30); (20, 21)]%Z ]) i = Some pts
    /\ pts = [(0, 0); (12, 0); (12, 10); (0, 10); (0, 1)]%Z
    /\ Geometry.shoelace_area pts == 120
    /\ ImageProcessor.process_image_array (fun _ : Datatypes.unit => (tt, tt))
         (fun _ _ =>
            (map Cv2.cv_contour
               [ [(0, 0); (8, 0); (8, 8); (0, 8); (0, 1)]%Z;
                 [(0, 0); (12, 0); (12, 10); (0, 10); (0, 1)]%Z;
                 [(20, 20); (32, 20); (32, 30); (20, 30); (20, 21)]%Z ], tt))
         (fun _ => "?"%string) tt ImageProcessor.__init__
       = (Returns
            {| ImageProcessor.line_length := "?";
               ImageProcessor.area := "?";
               ImageProcessor.unit_ := "pixels";
               ImageProcessor.notes :=
                 "Detected 3 separate line segments. Using the largest as main boundary. No reference scale detected. Measurements in pixels only." |},
          ImageProcessor.__init__).
Proof.
  destruct (main_boundary_is_first_largest Datatypes.unit
              (fun _ => (tt, tt))
              (fun _ _ =>
                 (map Cv2.cv_contour
                    [ [(0, 0); (8, 0); (8, 8); (0, 8); (0, 1)]%Z;
                      [(0, 0); (12, 0); (12, 10); (0, 10); (0, 1)]%Z;
                      [(20, 20); (32, 20); (32, 30); (20, 30); (20, 21)]%Z ], tt))
              (fun _ => "?"%string) tt tt
              [ [(0, 0); (8, 0); (8, 8); (0, 8); (0, 1)]%Z;
                [(0, 0); (12, 0); (12, 10); (0, 10); (0, 1)]%Z;
                [(20, 20); (32, 20); (32, 30); (20, 30); (20, 21)]%Z ]
              ImageProcessor.__init__ eq_refl)
    as (i & pts & Hn & Hle & Hfirst & Hclosed & _).
  - repeat constructor.
  - discriminate.
  - assert (Hi : i = 1%nat).
    { destruct i as [| [| [| k]]].
      + injection Hn as <-.
        specialize (Hle 1%nat _ eq_refl). vm_compute in Hle.
        exfalso. apply Hle. reflexivity.
      + reflexivity.
      + injection Hn as <-.
        specialize (Hfirst 1%nat _ eq_refl).
        assert (2 <= 1)%nat by (apply Hfirst; reflexivity). lia.
      + destruct k; discriminate. }
    subst i. injection Hn as <-.
    exists 1%nat, [(0, 0); (12, 0); (12, 10); (0, 10); (0, 1)]%Z.
    split; [reflexivity |]. split; [reflexivity |].
    split; [reflexivity |].
    rewrite Hclosed; [reflexivity |].
    unfold Geometry.dist. cbn [hd last fst snd].
    replace (IZR ((0 - 0) ^ 2 + (1 - 0) ^ 2)) with (1 * 1)%R
      by (simpl; lra).
    rewrite sqrt_square; lra.
Defined.

(* ================================================================= *)
(** ** Worked examples *)

Section Examples.

Import Cv2 Geometry ImageProcessor.

(** The rectangle of the API test, corner to corner and back to the
    first corner. *)
Example rectangle_length :
  cyclic_length [(100, 100); (700, 100); (700, 500); (100, 500); (100, 100)]%Z
  = 2000%R.
Proof.
  unfold cyclic_length. cbn [cyclic_pairs app combine map Rsum fold_right dist
                             fst snd].
  replace (sqrt (IZR ((700 - 100) ^ 2 + (100 - 100) ^ 2))) with 600%R
    by (symmetry; replace (IZR ((700 - 100) ^ 2 + (100 - 100) ^ 2))
          with (600 * 600)%R by (simpl; lra); apply sqrt_square; lra).
  replace (sqrt (IZR ((700 - 700) ^ 2 + (500 - 100) ^ 2))) with 400%R
    by (symmetry; replace (IZR ((700 - 700) ^ 2 + (500 - 100) ^ 2))
          with (400 * 400)%R by (simpl; lra); apply sqrt_square; lra).
  replace (sqrt (IZR ((100 - 700) ^ 2 + (500 - 500) ^ 2))) with 600%R
    by (symmetry; replace (IZR ((100 - 700) ^ 2 + (500 - 500) ^ 2))
          with (600 * 600)%R by (simpl; lra); apply sqrt_square; lra).
  replace (sqrt (IZR ((100 - 100) ^ 2 + (100 - 500) ^ 2))) with 400%R
    by (symmetry; replace (IZR ((100 - 100) ^ 2 + (100 - 500) ^ 2))
          with (400 * 400)%R by (simpl; lra); apply sqrt_square; lra).
  replace (sqrt (IZR ((100 - 100) ^ 2 + (100 - 100) ^ 2))) with 0%R
    by (symmetry; apply sqrt_0).
  lra.
Qed.

Example rectangle_area :
  exists a,
    calculate_area
      (cv_contour
         [(100, 100); (700, 100); (700, 500); (100, 500); (100, 100)]%Z)
      __init__
    = (Returns a, __init__)
    /\ (a == 240000)%Q.
Proof. eexists. split; reflexivity. Qed.

Example rectangle_reversed_area :
  exists a,
    calculate_area
      (cv_contour
         [(100, 100); (100, 500); (700, 500); (700, 100); (100, 100)]%Z)
      __init__
    = (Returns a, __init__)
    /\ (a == 240000)%Q.
Proof. eexists. split; reflexivity. Qed.

Example scale_600_px_for_10_m :
  exists s, AreaCalculator.calculate_scale_from_reference 600 10 "meters"
            = Returns s
            /\ (s == 60)%Q /\ (240000 / (s * s) == 200 # 3)%Q.
Proof. eexists. repeat split; reflexivity. Qed.

Example scale_zero_reference :
  AreaCalculator.calculate_scale_from_reference 100 0 "meters"
  = Raises (ValueError "Reference length cannot be zero").
Proof. reflexivity. Qed.

Example round_half_to_even :
  (py_round 0.125 2 == 0.12)%Q /\ (py_round 0.135 2 == 0.14)%Q
  /\ (py_round (-2.5) 0 == -2)%Q.
Proof. repeat split; reflexivity. Qed.

Example lower_mixed_case : lower "MeTeRs" = "meters"%string.
Proof. reflexivity. Qed.

(** Stacking a [(3, 1, 2)] contour on its own first row. *)
Example vstack_contour_on_row :
  (row <- Np.getitem (cv_contour [(0, 0); (10, 0); (10, 10)]%Z) 0 ;;
   Returns (Np.shape row,
            Np.ndim (cv_contour [(0, 0); (10, 0); (10, 10)]%Z),
            Np.ndim row))%py
  = Returns ([1; 2]%nat, 3%nat, 2%nat).
Proof. reflexivity. Qed.

(** On a contour laid out as [(N, 2)] the closing step stacks, and the
    measuring loop finds a scalar where it indexes a point. *)
Example auto_close_flat_layout :
  auto_close_contour
    {| Np.shape := [3; 2]%nat; Np.data := [0; 0; 10; 0; 10; 10]%Z |} __init__
  = (Returns {| Np.shape := [4; 2]%nat;
                Np.data := [0; 0; 10; 0; 10; 10; 0; 0]%Z |},
     __init__)
  /\ calculate_line_length
       {| Np.shape := [3; 2]%nat; Np.data := [0; 0; 10; 0; 10; 10]%Z |}
       __init__
     = (Raises IndexError, __init__).
Proof. split; reflexivity. Qed.

(** [np.vstack] of two arrays of equal rank does stack them. *)
Example vstack_rows :
  Np.vstack {| Np.shape := [2; 2]%nat; Np.data := [1; 2; 3; 4]%Z |}
            {| Np.shape := [2]%nat; Np.data := [5; 6]%Z |}
  = Returns {| Np.shape := [3; 2]%nat; Np.data := [1; 2; 3; 4; 5; 6]%Z |}.
Proof. reflexivity. Qed.

(** A detector that reports a small triangle and a square whose trace
    ends one pixel from its start: the triangle is filtered out and the
    square is measured. *)
Example pipeline_on_closed_square (format_2f : R -> string) :
  process_image_array (fun img : Datatypes.unit => (img, img))
    (fun _ _ =>
       (map cv_contour
          [ [(0, 0); (2, 0); (2, 2)]%Z;
            [(0, 0); (10, 0); (10, 10); (0, 10); (0, 1)]%Z ], tt))
    format_2f tt __init__
  = (Returns
       {| line_length :=
            format_2f
              (cyclic_length [(0, 0); (10, 0); (10, 10); (0, 10); (0, 1)]%Z);
          area :=
            format_2f
              (Q2R (shoelace_area
                      [(0, 0); (10, 0); (10, 10); (0, 10); (0, 1)]%Z));
          unit_ := "pixels";
          notes :=
            "No reference scale detected. Measurements in pixels only." |},
     __init__).
Proof.
  apply (process_image_array_closed Datatypes.unit
           (fun img => (img, img)) _ format_2f tt tt
           [ [(0, 0); (2, 0); (2, 2)]%Z;
             [(0, 0); (10, 0); (10, 10); (0, 10); (0, 1)]%Z ] 0).
  - reflexivity.
  - split; [reflexivity | split].
    + intros [| [| j]] y Hj; try discriminate.
      injection Hj as <-. apply Qle_refl.
    + intros j y Hj. lia.
  - simpl. lia.
  - cbn [hd last dist fst snd].
    replace (IZR ((0 - 0) ^ 2 + (1 - 0) ^ 2)) with 1%R by (simpl; lra).
    rewrite sqrt_1. lra.
Qed.

(** The same detector with an open trace: the pipeline raises. *)
Example pipeline_on_open_trace (format_2f : R -> string) :
  raises
    (fst (process_image_array (fun img : Datatypes.unit => (img, img))
            (fun _ _ =>
               (map cv_contour [ [(0, 0); (20, 0); (20, 20)]%Z ], tt))
            format_2f tt __init__)).
Proof.
  apply (process_image_array_open Datatypes.unit
           (fun img => (img, img)) _ format_2f tt tt
           [ [(0, 0); (20, 0); (20, 20)]%Z ] 0
           [(0, 0); (20, 0); (20, 20)]%Z).
  - reflexivity.
  - split; [reflexivity | split].
    + intros [| [| j]] y Hj; try discriminate.
      injection Hj as <-. apply Qle_refl.
    + intros j y Hj. lia.
  - simpl. lia.
  - cbn [hd last dist fst snd].
    replace 5.0%R with (sqrt (5 * 5)) by (rewrite sqrt_square; lra).
    apply sqrt_le_1_alt.
    replace (IZR ((20 - 0) ^ 2 + (20 - 0) ^ 2)) with 800%R by (simpl; lra).
    lra.
Qed.

End Examples.

(* ================================================================= *)
(** ** Closure test *)

Section ClosureTest.

Import Cv2 Geometry ImageProcessor.
Local Open Scope R_scope.

Lemma sqrt_lt_threshold (d2 : Z) (t : R) :
  (0 <= d2)%Z -> 0 < t -> (sqrt (IZR d2) < t <-> IZR d2 < t * t).
Proof.
  intros Hd Ht. assert (H0 : 0 <= IZR d2) by (apply IZR_le; exact Hd).
  rewrite <- (sqrt_square t) at 1 by lra. split.
  - intro H. apply sqrt_lt_0_alt in H. exact H.
  - intro H. apply sqrt_lt_1_alt. lra.
Qed.

Lemma sq_dist_nonneg (p q : point) :
  (0 <= (fst q - fst p) ^ 2 + (snd q - snd p) ^ 2)%Z.
Proof. nia. Qed.

(** X1: [is_contour_closed] never raises on a contour, and with a
    threshold that is not positive no contour is closed.  When the edge
    from the first point to the last is free of [int32] wrap-around, it
    answers [True] exactly when the contour has at least three points and
    its last point is nearer than the threshold to its first, that is, for
    a positive threshold, when the squared distance is below the squared
    threshold (below 25 for the default 5.0). *)
Theorem is_contour_closed_iff (pts : list point) (threshold : R)
    (self : processor) :
  exists b,
    is_contour_closed (cv_contour pts) threshold self = (Returns b, self)
    /\ (no_wrap (hd (0, 0)%Z pts, last pts (0, 0)%Z) -> 0 < threshold ->
        (b = true <->
         (3 <= List.length pts)%nat
         /\ IZR ((fst (last pts (0, 0)%Z) - fst (hd (0, 0)%Z pts)) ^ 2
                 + (snd (last pts (0, 0)%Z) - snd (hd (0, 0)%Z pts)) ^ 2)
            < threshold * threshold))
    /\ (threshold <= 0 -> b = false)
    /\ (no_wrap (hd (0, 0)%Z pts, last pts (0, 0)%Z) -> threshold = 5.0 ->
        (b = true <->
         (3 <= List.length pts)%nat
         /\ ((fst (last pts (0, 0)%Z) - fst (hd (0, 0)%Z pts)) ^ 2
             + (snd (last pts (0, 0)%Z) - snd (hd (0, 0)%Z pts)) ^ 2
             < 25)%Z))
    /\ (no_wrap (hd (0, 0)%Z pts, last pts (0, 0)%Z) ->
        radicand_int32 (hd (0, 0)%Z pts, last pts (0, 0)%Z)
        = sq_dist (hd (0, 0)%Z pts, last pts (0, 0)%Z)).
Proof.
  rewrite is_contour_closed_run. eexists. split; [reflexivity |].
  set (first := hd (0, 0)%Z pts). set (lst := last pts (0, 0)%Z).
  assert (Hdist : dist (first, lst)
                  = sqrt (IZR ((fst lst - fst first) ^ 2
                               + (snd lst - snd first) ^ 2)))
    by reflexivity.
  pose proof (sq_dist_nonneg first lst) as Hnn.
  pose proof (dist_nonneg (first, lst)) as Hpos.
  assert (Hpos_case : forall t, 0 < t ->
            ((if (List.length pts <? 3)%nat then false
              else if Rlt_dec (dist (first, lst)) t then true else false)
             = true
             <-> (3 <= List.length pts)%nat
                 /\ IZR ((fst lst - fst first) ^ 2
                         + (snd lst - snd first) ^ 2) < t * t)).
  { intros t Ht.
    destruct (List.length pts <? 3)%nat eqn:E.
    - apply Nat.ltb_lt in E. split; [discriminate | intros [H _]; lia].
    - apply Nat.ltb_ge in E.
      destruct (Rlt_dec (dist (first, lst)) t) as [Hlt | Hge].
      + split; [intros _ | reflexivity]. split; [exact E |].
        rewrite Hdist in Hlt. apply (sqrt_lt_threshold _ t Hnn Ht). exact Hlt.
      + split; [discriminate | intros [_ H]].
        exfalso. apply Hge. rewrite Hdist.
        apply (sqrt_lt_threshold _ t Hnn Ht). exact H. }
  split; [intros _; exact (Hpos_case threshold) | split; [| split]].
  - intro Hle. destruct (List.length pts <? 3)%nat; [reflexivity |].
    destruct (Rlt_dec (dist (first, lst)) threshold); [lra | reflexivity].
  - intros _ ->. rewrite (Hpos_case 5.0) by lra.
    split; intros [Hlen Hd]; (split; [exact Hlen |]).
    + apply lt_IZR. lra.
    + apply IZR_lt in Hd. lra.
  - apply radicand_int32_exact.
Qed.

(** The theorem on a five-point trace that ends one pixel from its
    start. *)
Lemma is_contour_closed_iff_witness :
  exists b,
    is_contour_closed
      (cv_contour [(0, 0); (10, 0); (10, 10); (0, 10); (0, 1)]%Z) 5.0 __init__
    = (Returns b, __init__)
    /\ b = true.
Proof.
  destruct (is_contour_closed_iff
              [(0, 0); (10, 0); (10, 10); (0, 10); (0, 1)]%Z 5.0 __init__)
    as (b & Hrun & _ & _ & Hdefault & _).
  exists b. split; [exact Hrun |].
  apply (proj2 (Hdefault eq_refl eq_refl)).
  split; [simpl; lia | reflexivity].
Defined.

End ClosureTest.

(* ================================================================= *)
(** ** Detection filter and the measured result *)

Section MeasuredResult.

Import Cv2 Geometry ImageProcessor.

Variable image : Type.
Variable cv_preprocess : image -> image * image.
Variable cv_find_contours : image -> image -> list Np.ndarray * image.
Variable format_2f : R -> string.

(** X2: [detect_drawn_lines] never raises on OpenCV's contours and
    returns, in discovery order, exactly those whose enclosed area is
    strictly greater than 50; the mask is handed through. *)
Theorem detect_drawn_lines_keeps_large (processed original mask : image)
    (polys : list (list point)) (self : processor) :
  cv_find_contours processed original = (map cv_contour polys, mask) ->
  exists kept,
    detect_drawn_lines cv_find_contours processed original self
    = (Returns (map cv_contour kept, mask), self)
    /\ kept = filter (fun q => py_gt (shoelace_area q) 50) polys
    /\ (forall q, In q kept <-> In q polys /\ (50 < shoelace_area q)%Q).
Proof.
  intro Hfind. exists (large polys). split; [| split].
  - exact (detect_drawn_lines_run image cv_find_contours processed original
             mask polys self Hfind).
  - reflexivity.
  - intro q. unfold large. rewrite filter_In, py_gt_true. reflexivity.
Qed.

Lemma closed_by_squares (pts : list point) :
  ((fst (last pts (0, 0)%Z) - fst (hd (0, 0)%Z pts)) ^ 2
   + (snd (last pts (0, 0)%Z) - snd (hd (0, 0)%Z pts)) ^ 2 < 25)%Z
  <-> (dist (hd (0, 0)%Z pts, last pts (0, 0)%Z) < 5.0)%R.
Proof.
  unfold dist.
  rewrite (sqrt_lt_threshold _ 5.0%R
             (sq_dist_nonneg (hd (0, 0)%Z pts) (last pts (0, 0)%Z)))
    by lra.
  split; intro H.
  - apply IZR_lt in H. lra.
  - apply lt_IZR. lra.
Qed.

(** X3: when the largest detected contour, the first one among equals,
    has at least three points and ends less than five pixels from its
    start, [process_image_array] returns its cyclic length and its
    shoelace area, formatted, in pixels, with the note on several segments
    when more than one contour passed the filter and the note on the
    missing scale. *)
Theorem closed_boundary_measurement (img mask : image)
    (polys : list (list point)) (i : nat) (pts : list point)
    (self : processor) :
  cv_find_contours (fst (cv_preprocess img)) (snd (cv_preprocess img))
  = (map cv_contour polys, mask) ->
  first_largest shoelace_area
    (filter (fun q => py_gt (shoelace_area q) 50) polys) i pts ->
  (3 <= List.length pts)%nat ->
  ((fst (last pts (0, 0)%Z) - fst (hd (0, 0)%Z pts)) ^ 2
   + (snd (last pts (0, 0)%Z) - snd (hd (0, 0)%Z pts)) ^ 2 < 25)%Z ->
  process_image_array cv_preprocess cv_find_contours format_2f img self
  = (Returns
       {| line_length := format_2f (cyclic_length pts);
          area := format_2f (Q2R (shoelace_area pts));
          unit_ := "pixels";
          notes :=
            join_space
              ((if (1 <? List.length
                           (filter (fun q => py_gt (shoelace_area q) 50)
                              polys))%nat
                then
                  [("Detected "
                    ++ str_of_nat
                         (List.length
                            (filter (fun q => py_gt (shoelace_area q) 50)
                               polys))
                    ++ " separate line segments. "
                    ++ "Using the largest as main boundary.")%string]
                else [])
               ++ ["No reference scale detected. "
                   ++ "Measurements in pixels only."]%string) |},
     self).
Proof.
  intros Hfind Hmax Hlen Hclosed.
  apply closed_by_squares in Hclosed.
  exact (process_image_array_closed image cv_preprocess cv_find_contours
           format_2f img mask polys i pts self Hfind Hmax Hlen Hclosed).
Qed.

(** X4: when that contour ends five pixels or more from its start, the
    closing step is taken and its [ValueError] ends
    [process_image_array]. *)
Theorem open_boundary_raises (img mask : image)
    (polys : list (list point)) (i : nat) (pts : list point)
    (self : processor) :
  cv_find_contours (fst (cv_preprocess img)) (snd (cv_preprocess img))
  = (map cv_contour polys, mask) ->
  first_largest shoelace_area
    (filter (fun q => py_gt (shoelace_area q) 50) polys) i pts ->
  (3 <= List.length pts)%nat ->
  (25 <= (fst (last pts (0, 0)%Z) - fst (hd (0, 0)%Z pts)) ^ 2
         + (snd (last pts (0, 0)%Z) - snd (hd (0, 0)%Z pts)) ^ 2)%Z ->
  process_image_array cv_preprocess cv_find_contours format_2f img self
  = (Raises (ValueError
       ("all the input arrays must have same number of dimensions, "
        ++ "but the array at index 0 has 3 dimension(s) and the array at "
        ++ "index 1 has 2 dimension(s)")),
     self).
Proof.
  intros Hfind Hmax Hlen Hopen.
  assert (Hfar : ~ (dist (hd (0, 0)%Z pts, last pts (0, 0)%Z) < 5.0)%R).
  { intro H. apply closed_by_squares in H. lia. }
  fold (large polys) in Hmax.
  unfold process_image_array, preprocess_image.
  destruct (cv_preprocess img) as [processed original_color].
  cbn [fst snd] in Hfind. unfold mbind at 1. cbn [ret].
  rewrite (mbind_returns _ _ _ _
             (detect_drawn_lines_run _ _ _ _ _ _ self Hfind)).
  assert (Hne : large polys <> []).
  { destruct Hmax as (Hn & _). intro E. rewrite E in Hn.
    destruct i; discriminate. }
  destruct (select_main_contour (large polys) Hne) as (i' & pts' & Hsel & Hm').
  destruct (first_largest_unique _ shoelace_area _ _ _ _ _ Hmax Hm')
    as [_ <-].
  destruct (map cv_contour (large polys)) as [| c cs] eqn:Hmap.
  { destruct (large polys); [congruence | discriminate]. }
  erewrite mbind_lift_returns by exact Hsel.
  rewrite (mbind_returns _ _ _ _ (is_contour_closed_run pts _ self)).
  apply Nat.ltb_ge in Hlen. rewrite Hlen.
  destruct (Rlt_dec (dist (hd (0%Z, 0%Z) pts, last pts (0%Z, 0%Z))) 5.0%R)
    as [Hlt | _]; [contradiction |].
  cbn [negb]. unfold mbind at 1.
  rewrite auto_close_contour_run by (intros ->; discriminate).
  reflexivity.
Qed.

End MeasuredResult.

(** X2 on a triangle of area 2, a rectangle of area exactly 50 and a
    square of area 100. *)
Lemma detect_drawn_lines_keeps_large_witness :
  ImageProcessor.detect_drawn_lines
    (fun _ _ : Datatypes.unit =>
       (map Cv2.cv_contour
          [ [(0, 0); (2, 0); (2, 2)]%Z;
            [(0, 0); (10, 0); (10, 5); (0, 5)]%Z;
            [(0, 0); (10, 0); (10, 10); (0, 10)]%Z ], tt))
    tt tt ImageProcessor.__init__
  = (Returns
       (map Cv2.cv_contour [ [(0, 0); (10, 0); (10, 10); (0, 10)]%Z ], tt),
     ImageProcessor.__init__).
Proof.
  destruct (detect_drawn_lines_keeps_large Datatypes.unit
              (fun _ _ =>
                 (map Cv2.cv_contour
                    [ [(0, 0); (2, 0); (2, 2)]%Z;
                      [(0, 0); (10, 0); (10, 5); (0, 5)]%Z;
                      [(0, 0); (10, 0); (10, 10); (0, 10)]%Z ], tt))
              tt tt tt
              [ [(0, 0); (2, 0); (2, 2)]%Z;
                [(0, 0); (10, 0); (10, 5); (0, 5)]%Z;
                [(0, 0); (10, 0); (10, 10); (0, 10)]%Z ]
              ImageProcessor.__init__ eq_refl)
    as (kept & Hrun & Hkept & _).
  rewrite Hrun, Hkept. reflexivity.
Defined.

(** X3 on a detector that reports a small triangle and a square whose
    trace ends one pixel from its start. *)
Lemma closed_boundary_measurement_witness :
  ImageProcessor.process_image_array
    (fun img : Datatypes.unit => (img, img))
    (fun _ _ =>
       (map Cv2.cv_contour
          [ [(0, 0); (2, 0); (2, 2)]%Z;
            [(0, 0); (10, 0); (10, 10); (0, 10); (0, 1)]%Z ], tt))
    (fun _ => "?"%string) tt ImageProcessor.__init__
  = (Returns
       {| ImageProcessor.line_length := "?";
          ImageProcessor.area := "?";
          ImageProcessor.unit_ := "pixels";
          ImageProcessor.notes :=
            "No reference scale detected. Measurements in pixels only." |},
     ImageProcessor.__init__).
Proof.
  apply (closed_boundary_measurement Datatypes.unit
           (fun img => (img, img)) _ (fun _ => "?"%string) tt tt
           [ [(0, 0); (2, 0); (2, 2)]%Z;
             [(0, 0); (10, 0); (10, 10); (0, 10); (0, 1)]%Z ] 0
           [(0, 0); (10, 0); (10, 10); (0, 10); (0, 1)]%Z).
  - reflexivity.
  - split; [reflexivity | split].
    + intros [| [| j]] y Hj; try discriminate.
      injection Hj as <-. apply Qle_refl.
    + intros j y Hj. lia.
  - simpl. lia.
  - reflexivity.
Defined.

(** X4 on a detector that reports one open three-point trace. *)
Lemma open_boundary_raises_witness :
  ImageProcessor.process_image_array
    (fun img : Datatypes.unit => (img, img))
    (fun _ _ => (map Cv2.cv_contour [ [(0, 0); (20, 0); (20, 20)]%Z ], tt))
    (fun _ => "?"%string) tt ImageProcessor.__init__
  = (Raises (ValueError
       ("all the input arrays must have same number of dimensions, "
        ++ "but the array at index 0 has 3 dimension(s) and the array at "
        ++ "index 1 has 2 dimension(s)")),
     ImageProcessor.__init__).
Proof.
  apply (open_boundary_raises Datatypes.unit
           (fun img => (img, img)) _ (fun _ => "?"%string) tt tt
           [ [(0, 0); (20, 0); (20, 20)]%Z ] 0
           [(0, 0); (20, 0); (20, 20)]%Z).
  - reflexivity.
  - split; [reflexivity | split].
    + intros [| [| j]] y Hj; try discriminate.
      injection Hj as <-. apply Qle_refl.
    + intros j y Hj. lia.
  - simpl. lia.
  - simpl. lia.
Defined.

(* ================================================================= *)
(** ** Invariance of the two measurements *)

Section Invariance.

Import Cv2 Geometry ImageProcessor.

Lemma combine_app_same {A B : Type} (l1 l2 : list A) (m1 m2 : list B) :
  List.length l1 = List.length m1 ->
  combine (l1 ++ l2) (m1 ++ m2) = combine l1 m1 ++ combine l2 m2.
Proof.
  revert m1. induction l1 as [| a l1 IH]; intros [| b m1] Hlen;
    simpl in *; try discriminate; [reflexivity |].
  f_equal. apply IH. lia.
Qed.

Lemma combine_map_same {A B : Type} (f : A -> B) (l m : list A) :
  combine (map f l) (map f m)
  = map (fun e => (f (fst e), f (snd e))) (combine l m).
Proof.
  revert m. induction l as [| a l IH]; intros [| b m]; simpl;
    try reflexivity.
  now rewrite IH.
Qed.

(** Starting the cycle one point later moves the first edge to the end. *)
Lemma cyclic_pairs_rotate (p q : point) (t : list point) :
  cyclic_pairs ((q :: t) ++ [p])
  = tl (cyclic_pairs (p :: q :: t)) ++ [(p, q)].
Proof.
  change (cyclic_pairs ((q :: t) ++ [p]))
    with (combine ((q :: t) ++ [p]) ((t ++ [p]) ++ [q])).
  change (tl (cyclic_pairs (p :: q :: t))) with (combine (q :: t) (t ++ [p])).
  rewrite combine_app_same by (rewrite length_app; simpl; lia).
  reflexivity.
Qed.

Lemma cyclic_pairs_head (p q : point) (t : list point) :
  cyclic_pairs (p :: q :: t) = (p, q) :: tl (cyclic_pairs (p :: q :: t)).
Proof. reflexivity. Qed.

Lemma cyclic_pairs_map (f : point -> point) (pts : list point) :
  cyclic_pairs (map f pts)
  = map (fun e => (f (fst e), f (snd e))) (cyclic_pairs pts).
Proof.
  destruct pts as [| p t]; [reflexivity |].
  unfold cyclic_pairs. cbn [map].
  change (f p :: map f t) with (map f (p :: t)).
  replace (map f t ++ [f p]) with (map f (t ++ [p]))
    by (now rewrite map_app).
  apply combine_map_same.
Qed.

Local Open Scope R_scope.

Lemma dist_swap (p q : point) : dist (q, p) = dist (p, q).
Proof. unfold dist. f_equal. f_equal. ring. Qed.

Lemma path_length_rev (pts : list point) :
  Rsum (map dist (path_pairs (rev pts))) = Rsum (map dist (path_pairs pts)).
Proof.
  induction pts as [| a l IH]; [reflexivity |].
  destruct l as [| b l]; [reflexivity |].
  change (rev (a :: b :: l)) with (rev (b :: l) ++ [a]).
  rewrite (path_pairs_snoc (0, 0)%Z (rev (b :: l)) a).
  - rewrite map_app, Rsum_app, IH, last_rev.
    change (path_pairs (a :: b :: l)) with ((a, b) :: path_pairs (b :: l)).
    cbn [map Rsum fold_right hd]. rewrite (dist_swap a b).
    unfold Rsum. ring.
  - intro E. apply (f_equal (@List.length point)) in E.
    rewrite length_rev in E. discriminate.
Qed.

Lemma cyclic_length_rev (pts : list point) :
  cyclic_length (rev pts) = cyclic_length pts.
Proof.
  destruct pts as [| p t]; [reflexivity |].
  assert (Hne : rev (p :: t) <> []).
  { intro E. apply (f_equal (@List.length point)) in E.
    rewrite length_rev in E. discriminate. }
  unfold cyclic_length.
  rewrite (cyclic_pairs_path (0, 0)%Z _ Hne).
  rewrite (cyclic_pairs_path (0, 0)%Z (p :: t)) by discriminate.
  rewrite !map_app, !Rsum_app, path_length_rev, last_rev, hd_rev.
  cbn [map Rsum fold_right]. rewrite (dist_swap (last (p :: t) (0, 0)%Z)).
  reflexivity.
Qed.

Lemma cyclic_length_rotate (p : point) (t : list point) :
  cyclic_length (t ++ [p]) = cyclic_length (p :: t).
Proof.
  destruct t as [| q t]; [reflexivity |].
  unfold cyclic_length.
  rewrite cyclic_pairs_rotate.
  remember (tl (cyclic_pairs (p :: q :: t))) as rest eqn:Hrest.
  rewrite (cyclic_pairs_head p q t), <- Hrest.
  rewrite map_app, Rsum_app. unfold Rsum. cbn [map fold_right]. ring.
Qed.

Lemma shoelace_sum_rotate (p : point) (t : list point) :
  shoelace_sum (t ++ [p]) = shoelace_sum (p :: t).
Proof.
  destruct t as [| q t]; [reflexivity |].
  unfold shoelace_sum.
  rewrite cyclic_pairs_rotate.
  remember (tl (cyclic_pairs (p :: q :: t))) as rest eqn:Hrest.
  rewrite (cyclic_pairs_head p q t), <- Hrest.
  rewrite map_app, Zsum_app. unfold Zsum. cbn [map fold_right]. ring.
Qed.

(** X5: the perimeter does not depend on the direction in which the
    points are listed, and neither perimeter nor area depends on the point
    the list starts from. *)
Theorem measurements_ignore_direction_and_start (p : point)
    (t : list point) (self : processor) :
  calculate_line_length (cv_contour (rev (p :: t))) self
  = calculate_line_length (cv_contour (p :: t)) self
  /\ calculate_line_length (cv_contour (t ++ [p])) self
     = calculate_line_length (cv_contour (p :: t)) self
  /\ calculate_area (cv_contour (t ++ [p])) self
     = calculate_area (cv_contour (p :: t)) self.
Proof.
  rewrite !calculate_line_length_run, !calculate_area_run.
  rewrite length_rev, length_app, cyclic_length_rev, cyclic_length_rotate.
  replace (List.length t + List.length [p])%nat with (List.length (p :: t))
    by (simpl; lia).
  unfold shoelace_area. rewrite shoelace_sum_rotate.
  repeat split; reflexivity.
Qed.

(** Over a cycle the differences of any quantity along the edges cancel. *)
Lemma path_telescope (g : point -> Z) (pts : list point) :
  pts <> [] ->
  Zsum (map (fun e => g (snd e) - g (fst e))%Z (path_pairs pts))
  = (g (last pts (0, 0)%Z) - g (hd (0, 0)%Z pts))%Z.
Proof.
  induction pts as [| a l IH]; [congruence | intros _].
  destruct l as [| b l].
  { change (0 = g a - g a)%Z. ring. }
  change (path_pairs (a :: b :: l)) with ((a, b) :: path_pairs (b :: l)).
  cbn [map Zsum fold_right fst snd]. fold (Zsum
    (map (fun e => g (snd e) - g (fst e))%Z (path_pairs (b :: l)))).
  rewrite IH by discriminate.
  change (last (a :: b :: l) (0, 0)%Z) with (last (b :: l) (0, 0)%Z).
  cbn [hd]. ring.
Qed.

Lemma cyclic_telescope (g : point -> Z) (pts : list point) :
  Zsum (map (fun e => g (snd e) - g (fst e))%Z (cyclic_pairs pts)) = 0%Z.
Proof.
  destruct pts as [| p t]; [reflexivity |].
  rewrite (cyclic_pairs_path (0, 0)%Z (p :: t)) by discriminate.
  rewrite map_app, Zsum_app, path_telescope by discriminate.
  cbn [map Zsum fold_right fst snd hd]. ring.
Qed.

Lemma Zsum_cross_shift (dx dy : Z) (l : list (point * point)) :
  Zsum (map (fun e => cross ((fst (fst e) + dx, snd (fst e) + dy),
                             (fst (snd e) + dx, snd (snd e) + dy)))%Z l)
  = (Zsum (map cross l)
     + dx * Zsum (map (fun e => snd (snd e) - snd (fst e)) l)
     - dy * Zsum (map (fun e => fst (snd e) - fst (fst e)) l))%Z.
Proof.
  induction l as [| [[px py] [qx qy]] l IH].
  { change (0 = 0 + dx * 0 - dy * 0)%Z. ring. }
  cbn [map Zsum fold_right] in *. unfold Zsum in IH. rewrite IH.
  unfold cross. cbn [fst snd]. ring.
Qed.

Lemma shoelace_sum_translate (dx dy : Z) (pts : list point) :
  shoelace_sum (map (fun p => (fst p + dx, snd p + dy)%Z) pts)
  = shoelace_sum pts.
Proof.
  unfold shoelace_sum. rewrite cyclic_pairs_map, map_map.
  cbv beta. rewrite Zsum_cross_shift.
  replace (Zsum (map (fun e => snd (snd e) - snd (fst e))%Z
                   (cyclic_pairs pts))) with 0%Z
    by (symmetry; exact (cyclic_telescope snd pts)).
  replace (Zsum (map (fun e => fst (snd e) - fst (fst e))%Z
                   (cyclic_pairs pts))) with 0%Z
    by (symmetry; exact (cyclic_telescope fst pts)).
  ring.
Qed.

Lemma cyclic_length_translate (dx dy : Z) (pts : list point) :
  cyclic_length (map (fun p => (fst p + dx, snd p + dy)%Z) pts)
  = cyclic_length pts.
Proof.
  unfold cyclic_length. rewrite cyclic_pairs_map, map_map.
  f_equal. apply map_ext. intros [[px py] [qx qy]].
  unfold dist. cbn [fst snd]. f_equal. f_equal. ring.
Qed.

(** X6: moving every point of a contour by the same offset changes
    neither its perimeter nor its area. *)
Theorem measurements_ignore_position (dx dy : Z) (pts : list point)
    (self : processor) :
  calculate_line_length
    (cv_contour (map (fun p => (fst p + dx, snd p + dy)%Z) pts)) self
  = calculate_line_length (cv_contour pts) self
  /\ calculate_area
       (cv_contour (map (fun p => (fst p + dx, snd p + dy)%Z) pts)) self
     = calculate_area (cv_contour pts) self.
Proof.
  rewrite !calculate_line_length_run, !calculate_area_run, !length_map.
  rewrite cyclic_length_translate. unfold shoelace_area.
  rewrite shoelace_sum_translate. split; reflexivity.
Qed.

Lemma sqrt_IZR_square (w : Z) : sqrt (IZR (w ^ 2)) = IZR (Z.abs w).
Proof.
  replace (IZR (w ^ 2)) with (Rsqr (IZR w))
    by (unfold Rsqr; rewrite <- mult_IZR; f_equal; ring).
  rewrite sqrt_Rsqr_abs. symmetry. apply abs_IZR.
Qed.

(** X7: an axis-parallel rectangle given by its four corners, of sides
    [w] and [h] short enough for their squares to stay below [2^31], has
    perimeter [2 * (|w| + |h|)] and area [|w * h|]; none of its edges
    wraps around in [int32] arithmetic. *)
Theorem rectangle_measurements (x y w h : Z) (self : processor) :
  (w ^ 2 < 2 ^ 31)%Z -> (h ^ 2 < 2 ^ 31)%Z ->
  Forall no_wrap
    (cyclic_pairs [(x, y); (x + w, y); (x + w, y + h); (x, y + h)]%Z)
  /\ calculate_line_length
       (cv_contour [(x, y); (x + w, y); (x + w, y + h); (x, y + h)]%Z) self
     = (Returns (IZR (2 * (Z.abs w + Z.abs h))), self)
  /\ exists a,
       calculate_area
         (cv_contour [(x, y); (x + w, y); (x + w, y + h); (x, y + h)]%Z) self
       = (Returns a, self)
       /\ (a == inject_Z (Z.abs (w * h)))%Q.
Proof.
  intros Hw Hh. split.
  { cbn [cyclic_pairs app combine].
    repeat constructor; unfold no_wrap, sq_dist; cbn [fst snd]; nia. }
  rewrite calculate_line_length_run, calculate_area_run.
  cbn [List.length Nat.ltb Nat.leb]. split.
  - f_equal. f_equal. unfold cyclic_length.
    cbn [cyclic_pairs app combine map Rsum fold_right dist fst snd].
    replace ((x + w - x) ^ 2 + (y - y) ^ 2)%Z with (w ^ 2)%Z by ring.
    replace ((x + w - (x + w)) ^ 2 + (y + h - y) ^ 2)%Z with (h ^ 2)%Z by ring.
    replace ((x - (x + w)) ^ 2 + (y + h - (y + h)) ^ 2)%Z with (w ^ 2)%Z
      by ring.
    replace ((x - x) ^ 2 + (y - (y + h)) ^ 2)%Z with (h ^ 2)%Z by ring.
    rewrite !sqrt_IZR_square, !mult_IZR, !plus_IZR. lra.
  - eexists. split; [reflexivity |].
    rewrite (Qabs_pos _ (shoelace_area_nonneg _)). unfold shoelace_area.
    replace (shoelace_sum [(x, y); (x + w, y); (x + w, y + h); (x, y + h)]%Z)
      with (2 * (w * h))%Z
      by (unfold shoelace_sum, Zsum, cross;
          cbn [cyclic_pairs app combine map fold_right fst snd]; ring).
    rewrite Z.abs_mul. change (Z.abs 2) with 2%Z.
    rewrite inject_Z_mult. change (inject_Z 2) with 2%Q. field.
Qed.

(** X7 on a rectangle of 600 by 400 pixels. *)
Lemma rectangle_measurements_witness :
  calculate_line_length
    (cv_contour [(100, 100); (700, 100); (700, 500); (100, 500)]%Z) __init__
  = (Returns 2000, __init__)
  /\ exists a,
       calculate_area
         (cv_contour [(100, 100); (700, 100); (700, 500); (100, 500)]%Z)
         __init__
       = (Returns a, __init__)
       /\ (a == 240000)%Q.
Proof.
  exact (proj2 (rectangle_measurements 100 100 600 400 __init__
                  eq_refl eq_refl)).
Defined.

Lemma Rsum_nonneg (l : list R) : Forall (fun r => 0 <= r) l -> 0 <= Rsum l.
Proof.
  induction 1 as [| r l Hr _ IH]; cbn [Rsum fold_right] in *; [lra |].
  unfold Rsum in IH. lra.
Qed.

Lemma Rsum_zero (l : list R) :
  Forall (fun r => 0 <= r) l -> (Rsum l = 0 <-> Forall (fun r => r = 0) l).
Proof.
  induction 1 as [| r l Hr Hl IH]; [split; [constructor | reflexivity] |].
  pose proof (Rsum_nonneg l Hl) as Hs.
  cbn [Rsum fold_right] in *. unfold Rsum in IH, Hs. split.
  - intro H. constructor; [lra | apply IH; lra].
  - intro H. inversion H as [| ? ? Hr0 Hl0]; subst.
    apply IH in Hl0. lra.
Qed.

Lemma dist_zero (p q : point) : dist (p, q) = 0 <-> p = q.
Proof.
  split.
  - unfold dist. intro H.
    apply sqrt_eq_0 in H; [| apply IZR_le, sq_dist_nonneg].
    apply eq_IZR in H. destruct p as [px py], q as [qx qy].
    cbn [fst snd] in H. f_equal; nia.
  - intros ->. apply dist_same.
Qed.

Lemma cyclic_length_nonneg (pts : list point) : 0 <= cyclic_length pts.
Proof.
  apply Rsum_nonneg, Forall_forall. intros r Hr.
  apply in_map_iff in Hr. destruct Hr as (e & <- & _). apply dist_nonneg.
Qed.

Lemma path_all_equal (pts : list point) :
  Forall (fun e => fst e = snd e) (path_pairs pts) ->
  forall q, In q pts -> q = hd (0, 0)%Z pts.
Proof.
  induction pts as [| a l IH]; [intros _ q [] |].
  destruct l as [| b l]; [intros _ q [<- | []]; reflexivity |].
  change (path_pairs (a :: b :: l)) with ((a, b) :: path_pairs (b :: l)).
  intro H. inversion H as [| ? ? Hab Hrest]; subst. cbn [fst snd] in Hab.
  intros q [<- | Hq]; [reflexivity |].
  cbn [hd]. rewrite Hab. exact (IH Hrest q Hq).
Qed.

Lemma cyclic_length_zero (pts : list point) :
  cyclic_length pts = 0 <-> forall q, In q pts -> q = hd (0, 0)%Z pts.
Proof.
  unfold cyclic_length. rewrite Rsum_zero.
  2:{ apply Forall_forall. intros r Hr. apply in_map_iff in Hr.
      destruct Hr as (e & <- & _). apply dist_nonneg. }
  rewrite Forall_map. split.
  - intro H. destruct pts as [| p t]; [intros q [] |].
    rewrite (cyclic_pairs_path (0, 0)%Z (p :: t)) in H by discriminate.
    apply Forall_app in H. destruct H as [H _].
    apply path_all_equal. eapply Forall_impl; [| exact H].
    intros [a b] Hab. apply dist_zero. exact Hab.
  - intro H. apply Forall_forall. intros [a b] Hab.
    destruct pts as [| p t]; [destruct Hab |].
    unfold cyclic_pairs in Hab.
    pose proof (in_combine_l _ _ _ _ Hab) as Ha.
    pose proof (in_combine_r _ _ _ _ Hab) as Hb.
    apply dist_zero. rewrite (H a Ha).
    apply in_app_or in Hb. destruct Hb as [Hb | [<- | []]].
    + symmetry. apply H. now right.
    + reflexivity.
Qed.

(** X8: on a contour whose edges, the closing one included, are free of
    [int32] wrap-around, perimeter and area are never negative, and the
    perimeter of a contour of two points or more is zero exactly when all
    its points coincide. *)
Theorem measurements_nonnegative (pts : list point) (self : processor) :
  Forall no_wrap (cyclic_pairs pts) ->
  exists l a,
    calculate_line_length (cv_contour pts) self = (Returns l, self)
    /\ calculate_area (cv_contour pts) self = (Returns a, self)
    /\ 0 <= l /\ (0 <= a)%Q
    /\ ((2 <= List.length pts)%nat ->
        (l = 0 <-> forall q, In q pts -> q = hd (0, 0)%Z pts)).
Proof.
  intros _.
  rewrite calculate_line_length_run, calculate_area_run.
  eexists. eexists. split; [reflexivity | split; [reflexivity |]].
  split; [| split].
  - destruct (List.length pts <? 2)%nat;
      [lra | apply cyclic_length_nonneg].
  - destruct (List.length pts <? 3)%nat;
      [apply Qle_refl | apply Qabs_nonneg].
  - intro H. apply Nat.ltb_ge in H. rewrite H. apply cyclic_length_zero.
Qed.

(** X8 on a triangle and on three coinciding points. *)
Lemma measurements_nonnegative_witness :
  (exists l,
     calculate_line_length (cv_contour [(0, 0); (3, 0); (3, 4)]%Z) __init__
     = (Returns l, __init__) /\ l <> 0)
  /\ calculate_line_length (cv_contour [(5, 5); (5, 5); (5, 5)]%Z) __init__
     = (Returns 0, __init__).
Proof.
  split.
  - destruct (measurements_nonnegative [(0, 0); (3, 0); (3, 4)]%Z __init__)
      as (l & a & Hl & _ & _ & _ & Hzero); [repeat constructor |].
    exists l. split; [exact Hl |]. intro E.
    assert (Hlen : (2 <= List.length [(0, 0); (3, 0); (3, 4)]%Z)%nat)
      by (simpl; lia).
    pose proof (proj1 (Hzero Hlen) E (3, 0)%Z) as Hall.
    assert (Hin : In (3, 0)%Z [(0, 0); (3, 0); (3, 4)]%Z)
      by (right; left; reflexivity).
    specialize (Hall Hin). discriminate.
  - destruct (measurements_nonnegative [(5, 5); (5, 5); (5, 5)]%Z __init__)
      as (l & a & Hl & _ & _ & _ & Hzero); [repeat constructor |].
    assert (Hlen : (2 <= List.length [(5, 5); (5, 5); (5, 5)]%Z)%nat)
      by (simpl; lia).
    rewrite Hl. f_equal. f_equal. apply (proj2 (Hzero Hlen)).
    intros q Hq. cbn [hd]. destruct Hq as [<- | [<- | [<- | []]]]; reflexivity.
Defined.

Lemma shoelace_sum_autoClose (pts : list point) :
  shoelace_sum (autoClose pts) = shoelace_sum pts.
Proof.
  destruct pts as [| p t]; [reflexivity |].
  unfold shoelace_sum, autoClose.
  rewrite (cyclic_pairs_path (0, 0)%Z ((p :: t) ++ [p]))
    by (destruct t; discriminate).
  rewrite (path_pairs_snoc (0, 0)%Z (p :: t) p) by discriminate.
  rewrite (cyclic_pairs_path (0, 0)%Z (p :: t)) by discriminate.
  rewrite last_last. cbn [hd app].
  rewrite !map_app, !Zsum_app. cbn [map Zsum fold_right].
  unfold cross at 3. ring.
Qed.

(** X9: a contour that repeats its first point at its end measures the
    same, in perimeter and in area, as the contour without the repeated
    point. *)
Theorem repeated_first_point_is_harmless (pts : list point)
    (self : processor) :
  calculate_line_length (cv_contour (autoClose pts)) self
  = calculate_line_length (cv_contour pts) self
  /\ exists a a',
       calculate_area (cv_contour pts) self = (Returns a, self)
       /\ calculate_area (cv_contour (autoClose pts)) self
          = (Returns a', self)
       /\ (a' == a)%Q.
Proof.
  rewrite !calculate_line_length_run, !calculate_area_run. split.
  - f_equal. f_equal. rewrite cyclic_length_autoClose.
    destruct pts as [| p [| q t]]; [reflexivity | | reflexivity].
    cbn [autoClose app List.length Nat.ltb Nat.leb].
    unfold cyclic_length. cbn [cyclic_pairs app combine map Rsum fold_right].
    rewrite dist_same. lra.
  - eexists. eexists. split; [reflexivity | split; [reflexivity |]].
    unfold shoelace_area. rewrite shoelace_sum_autoClose.
    destruct pts as [| p [| q [| r t]]]; try reflexivity.
    cbn [autoClose app List.length Nat.ltb Nat.leb].
    replace (shoelace_sum [p; q]) with 0%Z; [reflexivity |].
    unfold shoelace_sum, Zsum, cross.
    cbn [cyclic_pairs app combine map fold_right]. ring.
Qed.

End Invariance.

(* ================================================================= *)
(** ** The calculator instance *)

Section CalculatorInstance.

Import AreaCalculator AreaCalculatorInstance.
Local Open Scope Q_scope.
Local Open Scope string_scope.

Lemma truthy_some (x : option Q) (v : Q) :
  truthy x = Some v <-> x = Some v /\ ~ v == 0.
Proof.
  unfold truthy. destruct x as [w |]; [| split; [discriminate | intros [H _]; discriminate]].
  destruct (Qeq_bool w 0) eqn:E.
  - apply Qeq_bool_eq in E. split; [discriminate |].
    intros [H Hn]. injection H as ->. contradiction.
  - apply Qeq_bool_neq in E. split.
    + intro H. injection H as ->. split; [reflexivity | exact E].
    + intros [H _]. exact H.
Qed.

(** X10: [calculate_area_sq_meters] raises [ValueError] when the instance
    has no scale or the scale 0, and otherwise returns the pixel area
    divided by the square of the scale, never dividing by zero; with the
    scale that [calculate_scale_from_reference] derives from a reference
    of [p] pixels, the square on that reference has the area of the square
    on its real length in meters. *)
Theorem area_sq_meters_conversion (self : calculator) (area_sq_pixels : Q) :
  (truthy (pixels_per_meter self) = None ->
   calculate_area_sq_meters self area_sq_pixels
   = Raises (ValueError "pixels_per_meter must be set for conversion"))
  /\ (forall ppm,
        pixels_per_meter self = Some ppm -> ~ ppm == 0 ->
        exists m, calculate_area_sq_meters self area_sq_pixels = Returns m
                  /\ m == area_sq_pixels / (ppm * ppm)
                  /\ m * (ppm * ppm) == area_sq_pixels)
  /\ (forall p r unit f,
        dict_get unit_to_meters (lower unit) = Some f ->
        ~ p == 0 -> ~ r == 0 ->
        exists s m,
          calculate_scale_from_reference p r unit = Returns s
          /\ calculate_area_sq_meters (__init__ (Some s)) (p * p) = Returns m
          /\ m == (r * f) * (r * f)).
Proof.
  split; [| split].
  - intro H. unfold calculate_area_sq_meters. now rewrite H.
  - intros ppm Hppm Hnz. unfold calculate_area_sq_meters.
    rewrite (proj2 (truthy_some _ ppm) (conj Hppm Hnz)).
    assert (Hsq : ~ ppm ^ 2 == 0).
    { intro E. apply Hnz. simpl in E. nra. }
    rewrite (py_div_nonzero _ _ Hsq). cbn [bind]. eexists.
    split; [reflexivity |]. split.
    + simpl. reflexivity.
    + simpl. field. exact Hnz.
  - intros p r unit f Hf Hp Hr.
    pose proof (unit_to_meters_pos _ _ Hf) as Hfpos.
    assert (Hfnz : ~ f == 0) by lra.
    assert (Hrf : ~ r * f == 0) by (intro E; apply Hr; nra).
    rewrite (scale_from_reference_known p r unit f Hf).
    destruct (Qeq_bool (r * f) 0) eqn:E;
      [apply Qeq_bool_eq in E; contradiction |].
    assert (Hs : ~ p / (r * f) == 0).
    { intro E0. apply Hp.
      setoid_replace p with (p / (r * f) * (r * f)) by (field; tauto).
      rewrite E0. ring. }
    exists (p / (r * f)). unfold calculate_area_sq_meters, __init__.
    cbn [pixels_per_meter].
    rewrite (proj2 (truthy_some _ (p / (r * f))) (conj eq_refl Hs)).
    assert (Hsq : ~ (p / (r * f)) ^ 2 == 0).
    { intro E0. apply Hs. simpl in E0. nra. }
    rewrite (py_div_nonzero _ _ Hsq). cbn [bind]. eexists.
    split; [reflexivity | split; [reflexivity |]].
    simpl. field. tauto.
Qed.

(** X10 without a scale, and with the scale of 600 pixels for 10
    meters. *)
Lemma area_sq_meters_conversion_witness :
  calculate_area_sq_meters (__init__ None) 240000
  = Raises (ValueError "pixels_per_meter must be set for conversion")
  /\ (exists m, calculate_area_sq_meters (__init__ (Some 60)) 240000
                = Returns m
                /\ m == 240000 / (60 * 60)
                /\ m * (60 * 60) == 240000).
Proof.
  split.
  - apply (proj1 (area_sq_meters_conversion (__init__ None) 240000)).
    reflexivity.
  - apply (proj1 (proj2 (area_sq_meters_conversion (__init__ (Some 60))
                           240000)) 60).
    + reflexivity.
    + discriminate.
Defined.

Lemma unpack2_cases (pt : list Z) :
  (List.length pt = 2%nat /\ exists x y, pt = [x; y]
                                         /\ unpack2 pt = Returns (x, y))
  \/ (List.length pt <> 2%nat /\ exists msg, unpack2 pt = Raises (ValueError msg)).
Proof.
  destruct pt as [| x [| y [| z t]]].
  - right. split; [discriminate | eexists; reflexivity].
  - right. split; [discriminate | eexists; reflexivity].
  - left. split; [reflexivity | exists x, y; split; reflexivity].
  - right. split; [discriminate | eexists; reflexivity].
Qed.

(** One pass of the loop of [calculate_perimeter] either adds an edge or
    raises the [ValueError] of a failed unpacking. *)
Lemma perimeter_step_cases (points : list (list Z)) (i : nat) (acc : R) :
  (i < List.length points)%nat ->
  (exists x1 y1 x2 y2,
     nth i points [] = [x1; y1]
     /\ nth ((i + 1) mod List.length points) points [] = [x2; y2]
     /\ perimeter_step points i acc
        = Returns (acc + Geometry.dist ((x1, y1), (x2, y2)))%R)
  \/ ((List.length (nth i points []) <> 2%nat
       \/ List.length (nth ((i + 1) mod List.length points) points [])
          <> 2%nat)
      /\ exists msg, perimeter_step points i acc = Raises (ValueError msg)).
Proof.
  intro Hi.
  assert (Hj : ((i + 1) mod List.length points < List.length points)%nat)
    by (apply Nat.mod_upper_bound; lia).
  unfold perimeter_step, list_getitem.
  rewrite (nth_error_nth' points [] Hi), (nth_error_nth' points [] Hj).
  cbn [bind].
  destruct (unpack2_cases (nth i points [])) as
    [(H1 & x1 & y1 & E1 & U1) | (H1 & msg & U1)].
  - destruct (unpack2_cases (nth ((i + 1) mod List.length points) points []))
      as [(H2 & x2 & y2 & E2 & U2) | (H2 & msg & U2)].
    + left. exists x1, y1, x2, y2. rewrite U1, U2. cbn [bind].
      split; [exact E1 | split; [exact E2 | reflexivity]].
    + right. split; [now right |]. exists msg. rewrite U1, U2. reflexivity.
  - right. split; [now left |]. exists msg. rewrite U1. reflexivity.
Qed.

(** Run over indices in range, the loop returns when every point it
    unpacks is a pair, and raises [ValueError] otherwise. *)
Lemma perimeter_loop (points : list (list Z)) (idx : list nat) (acc : R) :
  Forall (fun i => (i < List.length points)%nat) idx ->
  (Forall (fun i => List.length (nth i points []) = 2%nat
                    /\ List.length
                         (nth ((i + 1) mod List.length points) points [])
                       = 2%nat) idx
   /\ exists v, for_each_py idx (perimeter_step points) acc = Returns v)
  \/ (~ Forall (fun i => List.length (nth i points []) = 2%nat
                         /\ List.length
                              (nth ((i + 1) mod List.length points) points [])
                            = 2%nat) idx
      /\ exists msg,
           for_each_py idx (perimeter_step points) acc
           = Raises (ValueError msg)).
Proof.
  intro Hidx. revert acc.
  induction Hidx as [| i idx Hi _ IH]; intro acc.
  - left. split; [constructor | eexists; reflexivity].
  - cbn [for_each_py].
    destruct (perimeter_step_cases points i acc Hi) as
      [(x1 & y1 & x2 & y2 & E1 & E2 & Hstep) | (Hbad & msg & Hstep)].
    + rewrite Hstep. cbn [bind].
      destruct (IH (acc + Geometry.dist ((x1, y1), (x2, y2)))%R) as
        [(Hall & v & Hv) | (Hnot & msg & Hv)].
      * left. split; [| exists v; exact Hv].
        constructor; [| exact Hall]. rewrite E1, E2. split; reflexivity.
      * right. split; [| exists msg; exact Hv].
        intro H. inversion H; subst. contradiction.
    + right. rewrite Hstep. cbn [bind].
      split; [| exists msg; reflexivity].
      intro H. inversion H as [| ? ? [Ha Hb] _]; subst. tauto.
Qed.

(** On points that are pairs the loop adds the edges it is run over. *)
Lemma perimeter_loop_pairs (pts : list (Z * Z)) (idx : list nat)
    (acc : R) :
  Forall (fun i => (i < List.length pts)%nat) idx ->
  for_each_py idx (perimeter_step (map (fun p => [fst p; snd p]) pts)) acc
  = Returns
      (fold_left Rplus
         (map (fun i =>
                 Geometry.dist
                   (nth i pts (0, 0)%Z,
                    nth ((i + 1) mod List.length pts) pts (0, 0)%Z)) idx)
         acc).
Proof.
  intro Hidx. revert acc.
  induction Hidx as [| i idx Hi _ IH]; intro acc; [reflexivity |].
  assert (Hj : ((i + 1) mod List.length pts < List.length pts)%nat)
    by (apply Nat.mod_upper_bound; lia).
  cbn [for_each_py map fold_left].
  unfold perimeter_step at 1, list_getitem. rewrite length_map.
  rewrite !nth_error_map.
  rewrite (@nth_error_nth' (Z * Z) pts i (0, 0)%Z Hi).
  rewrite (@nth_error_nth' (Z * Z) pts _ (0, 0)%Z Hj).
  cbn [option_map bind unpack2].
  destruct (nth i pts (0, 0)%Z) as [x1 y1].
  destruct (nth ((i + 1) mod List.length pts) pts (0, 0)%Z) as [x2 y2].
  cbn [fst snd]. apply IH.
Qed.

(** X11: on points given as pairs [calculate_perimeter] returns their
    cyclic perimeter, and [calculate_line_length] returns the same on the
    contour of those points when its edges are free of [int32]
    wrap-around; on any list of two points or more [calculate_perimeter]
    returns exactly when every point is a pair, and otherwise raises
    [ValueError], never [IndexError]; below two points it returns 0
    whatever the points. *)
Theorem calculate_perimeter_agrees (pts : list Cv2.point)
    (points : list (list Z)) (self : ImageProcessor.processor) :
  calculate_perimeter (map (fun p => [fst p; snd p]) pts)
  = Returns (if (List.length pts <? 2)%nat then 0%R
             else Geometry.cyclic_length pts)
  /\ (Forall Geometry.no_wrap (Cv2.cyclic_pairs pts) ->
      ImageProcessor.calculate_line_length (Cv2.cv_contour pts) self
      = (calculate_perimeter (map (fun p => [fst p; snd p]) pts), self))
  /\ ((List.length points < 2)%nat ->
      calculate_perimeter points = Returns 0%R)
  /\ ((2 <= List.length points)%nat ->
      ((exists v, calculate_perimeter points = Returns v)
       <-> Forall (fun pt => List.length pt = 2%nat) points)
      /\ (forall e, calculate_perimeter points = Raises e ->
                    exists msg, e = ValueError msg)).
Proof.
  assert (Hpairs : calculate_perimeter (map (fun p => [fst p; snd p]) pts)
                   = Returns (if (List.length pts <? 2)%nat then 0%R
                              else Geometry.cyclic_length pts)).
  { unfold calculate_perimeter, Cv2.point in *. rewrite length_map.
    destruct (List.length pts <? 2)%nat; [reflexivity |].
    rewrite perimeter_loop_pairs
      by (apply Forall_forall; intros i Hi; apply in_seq in Hi; lia).
    rewrite fold_left_Rplus, Rplus_0_l. unfold Geometry.cyclic_length.
    now rewrite (cyclic_pairs_index (0%Z, 0%Z) pts), map_map. }
  split; [exact Hpairs |]. split; [| split].
  - intros _. rewrite Hpairs. apply calculate_line_length_run.
  - intro H. unfold calculate_perimeter. apply Nat.ltb_lt in H.
    now rewrite H.
  - intro H. unfold calculate_perimeter.
    assert (Hn : (List.length points <? 2)%nat = false)
      by (apply Nat.ltb_ge; exact H).
    rewrite Hn.
    assert (Hidx : Forall (fun i => (i < List.length points)%nat)
                     (seq 0 (List.length points)))
      by (apply Forall_forall; intros i Hi; apply in_seq in Hi; lia).
    assert (Hall : Forall (fun i =>
                     List.length (nth i points []) = 2%nat
                     /\ List.length
                          (nth ((i + 1) mod List.length points) points [])
                        = 2%nat) (seq 0 (List.length points))
                   <-> Forall (fun pt => List.length pt = 2%nat) points).
    { rewrite !Forall_forall. split.
      - intros Hseq pt Hpt. apply (In_nth _ _ []) in Hpt.
        destruct Hpt as (i & Hi & <-). apply (Hseq i). apply in_seq. lia.
      - intros Hpts i Hi. apply in_seq in Hi.
        split; apply Hpts, nth_In; [lia |].
        apply Nat.mod_upper_bound. lia. }
    destruct (perimeter_loop points (seq 0 (List.length points)) 0%R Hidx)
      as [(Hgood & v & Hv) | (Hbad & msg & Hv)]; rewrite Hv.
    + split.
      * split; [intros _; apply Hall; exact Hgood | intros _; now exists v].
      * intros e He. discriminate.
    + split.
      * split; [intros [v Hret]; discriminate |].
        intro Hpts. exfalso. apply Hbad, Hall. exact Hpts.
      * intros e He. injection He as <-. now exists msg.
Qed.

(** X11 on a triangle, on a single malformed point, and on a list with a
    point of three coordinates. *)
Lemma calculate_perimeter_agrees_witness :
  calculate_perimeter [[1; 2; 3]%Z] = Returns 0%R
  /\ ((exists v, calculate_perimeter [[0; 0]; [3; 0]; [3; 4; 7]]%Z = Returns v)
      <-> Forall (fun pt => List.length pt = 2%nat)
            [[0; 0]; [3; 0]; [3; 4; 7]]%Z).
Proof.
  split.
  - apply (proj1 (proj2 (proj2 (calculate_perimeter_agrees []
                                  [[1; 2; 3]%Z] ImageProcessor.__init__)))).
    simpl. lia.
  - apply (proj2 (proj2 (proj2 (calculate_perimeter_agrees []
                                  [[0; 0]; [3; 0]; [3; 4; 7]]%Z
                                  ImageProcessor.__init__)))).
    simpl. lia.
Defined.

Lemma Qfloor_unique (q : Q) (z : Z) :
  inject_Z z <= q -> q < inject_Z (z + 1) -> Qfloor q = z.
Proof.
  intros Hlo Hhi.
  pose proof (Qfloor_le q) as Hf1. pose proof (Qlt_floor q) as Hf2.
  assert (H1 : (Qfloor q < z + 1)%Z)
    by (rewrite Zlt_Qlt; eapply Qle_lt_trans; eassumption).
  assert (H2 : (z < Qfloor q + 1)%Z)
    by (rewrite Zlt_Qlt; eapply Qle_lt_trans; eassumption).
  lia.
Qed.

(** A value within half a unit of zero rounds to zero. *)
Lemma round_half_even_small (q : Q) :
  Qabs q <= 1 # 2 -> round_half_even q = 0%Z.
Proof.
  intro H. apply Qabs_Qle_condition in H. destruct H as [Hlo Hhi].
  unfold round_half_even.
  destruct (Qlt_le_dec q 0) as [Hneg | Hpos].
  - assert (Hf : Qfloor q = (-1)%Z).
    { apply Qfloor_unique.
      - change (inject_Z (-1)) with (-1 # 1). lra.
      - change (inject_Z (-1 + 1)) with 0. exact Hneg. }
    rewrite Hf. change (inject_Z (-1)) with (-1 # 1).
    destruct (Qcompare_spec (q - (-1 # 1)) (1 # 2)) as [E | E | E];
      [reflexivity | lra | reflexivity].
  - assert (Hf : Qfloor q = 0%Z).
    { apply Qfloor_unique.
      - exact Hpos.
      - change (inject_Z (0 + 1)) with 1. lra. }
    rewrite Hf. change (inject_Z 0) with 0.
    destruct (Qcompare_spec (q - 0) (1 # 2)) as [E | E | E];
      [reflexivity | reflexivity | lra].
Qed.

Lemma py_round_2_near (x : Q) : Qabs (py_round x 2 - x) <= 0.005.
Proof.
  destruct (py_round_spec x 2) as [_ Hb].
  eapply Qle_trans; [exact Hb | discriminate].
Qed.

(** X12: [convert_distance] never raises and never looks at its [unit]
    argument.  Without a scale (none, or 0) it hands the pixel distance
    back under the key "pixels"; with a scale it returns meters, feet,
    yards and miles, each within 0.005 of the exact conversion, and the
    miles entry is 0 for every distance of at most 8 meters. *)
Theorem convert_distance_entries (self : calculator) (distance_pixels : Q)
    (unit unit' : string) :
  convert_distance self distance_pixels unit
  = convert_distance self distance_pixels unit'
  /\ (truthy (pixels_per_meter self) = None ->
      convert_distance self distance_pixels unit
      = Returns [("pixels", distance_pixels)])
  /\ (forall ppm,
        pixels_per_meter self = Some ppm -> ~ ppm == 0 ->
        exists meters feet yards miles,
          convert_distance self distance_pixels unit
          = Returns [("meters", meters); ("feet", feet);
                     ("yards", yards); ("miles", miles)]
          /\ Qabs (meters - distance_pixels / ppm) <= 0.005
          /\ Qabs (feet - distance_pixels / ppm * 3.28084) <= 0.005
          /\ Qabs (yards - distance_pixels / ppm * 1.09361) <= 0.005
          /\ Qabs (miles - distance_pixels / ppm * 0.000621371) <= 0.005
          /\ (Qabs (distance_pixels / ppm) <= 8 -> miles == 0)).
Proof.
  split; [reflexivity | split].
  - intro H. unfold convert_distance. now rewrite H.
  - intros ppm Hppm Hnz. unfold convert_distance.
    rewrite (proj2 (truthy_some _ ppm) (conj Hppm Hnz)).
    rewrite (py_div_nonzero _ _ Hnz). cbn [bind map fst snd].
    do 4 eexists. split; [reflexivity |].
    repeat (split; [apply py_round_2_near |]).
    intro Hsmall. unfold py_round.
    rewrite round_half_even_small; [reflexivity |].
    set (dm := distance_pixels / ppm) in *. clearbody dm.
    change (inject_Z (10 ^ Z.of_nat 2)) with 100.
    apply Qabs_Qle_condition in Hsmall. apply Qabs_Qle_condition.
    destruct Hsmall as [H1 H2]. split; lra.
Qed.

(** X12 without a scale, and at 60 pixels per meter. *)
Lemma convert_distance_entries_witness :
  convert_distance (__init__ None) 2000 "meters"
  = Returns [("pixels", 2000)]
  /\ (exists meters feet yards miles,
        convert_distance (__init__ (Some 60)) 300 "meters"
        = Returns [("meters", meters); ("feet", feet);
                   ("yards", yards); ("miles", miles)]
        /\ Qabs (meters - 300 / 60) <= 0.005
        /\ Qabs (feet - 300 / 60 * 3.28084) <= 0.005
        /\ Qabs (yards - 300 / 60 * 1.09361) <= 0.005
        /\ Qabs (miles - 300 / 60 * 0.000621371) <= 0.005
        /\ (Qabs (300 / 60) <= 8 -> miles == 0)).
Proof.
  split.
  - apply (proj1 (proj2 (convert_distance_entries (__init__ None) 2000
                           "meters" "feet"))).
    reflexivity.
  - apply (proj2 (proj2 (convert_distance_entries (__init__ (Some 60)) 300
                           "meters" "feet")) 60).
    + reflexivity.
    + discriminate.
Defined.

End CalculatorInstance.

(* ================================================================= *)
(** ** Map scale by zoom level *)

Section MapScale.

Import AreaCalculatorInstance SatelliteImageService.
Local Open Scope R_scope.

Lemma cos_latitude_pos (lat : R) :
  -90 < lat < 90 -> 0 < cos (lat * PI / 180).
Proof.
  intros [Hlo Hhi]. pose proof PI_RGT_0 as Hpi.
  apply cos_gt_0; nra.
Qed.

Lemma pow2_pos (zoom : Z) : 0 < powerRZ 2 zoom.
Proof. apply powerRZ_lt. lra. Qed.

Lemma py_div_R_nonzero (a b : R) : b <> 0 -> py_div_R a b = Returns (a / b).
Proof.
  intro H. unfold py_div_R. destruct (Req_dec_T b 0); [contradiction |].
  reflexivity.
Qed.

Lemma estimate_run (lat : R) (zoom : Z) :
  -90 < lat < 90 ->
  estimate_pixels_per_meter_from_zoom lat zoom
  = Returns (1.0 / (156543.03392 / powerRZ 2 zoom * cos (lat * PI / 180))).
Proof.
  intro Hlat. pose proof (cos_latitude_pos lat Hlat) as Hcos.
  pose proof (pow2_pos zoom) as Hpow.
  unfold estimate_pixels_per_meter_from_zoom.
  rewrite py_div_R_nonzero by lra. cbn [bind].
  rewrite py_div_R_nonzero; [reflexivity |].
  apply Rmult_integral_contrapositive_currified; [| lra].
  apply Rmult_integral_contrapositive_currified; [lra |].
  apply Rinv_neq_0_compat. lra.
Qed.

(** X13: for a latitude strictly between the poles
    [estimate_pixels_per_meter_from_zoom] never divides by zero and returns
    a positive scale, [2^zoom / (156543.03392 * cos lat)]; one zoom level
    more doubles it, the northern and the southern latitude give the same
    scale, and at the equator it is [2^zoom / 156543.03392]. *)
Theorem zoom_scale (lat : R) (zoom : Z) :
  -90 < lat < 90 ->
  exists s,
    estimate_pixels_per_meter_from_zoom lat zoom = Returns s
    /\ s = powerRZ 2 zoom / (156543.03392 * cos (lat * PI / 180))
    /\ 0 < s
    /\ estimate_pixels_per_meter_from_zoom lat (zoom + 1) = Returns (2 * s)
    /\ estimate_pixels_per_meter_from_zoom (- lat) zoom = Returns s
    /\ (lat = 0 -> s = powerRZ 2 zoom / 156543.03392).
Proof.
  intro Hlat. pose proof (cos_latitude_pos lat Hlat) as Hcos.
  pose proof (pow2_pos zoom) as Hpow.
  assert (Hneg : -90 < - lat < 90) by lra.
  rewrite !estimate_run by (assumption || lra).
  eexists. split; [reflexivity |].
  assert (Hk : 0 < 156543.03392) by lra.
  replace 1.0 with 1 by lra.
  set (k := 156543.03392) in *. clearbody k.
  assert (Hval : 1 / (k / powerRZ 2 zoom * cos (lat * PI / 180))
                 = powerRZ 2 zoom / (k * cos (lat * PI / 180)))
    by (field; lra).
  split; [exact Hval |]. split; [| split; [| split]].
  - rewrite Hval. apply Rdiv_lt_0_compat; [exact Hpow | nra].
  - f_equal. rewrite powerRZ_add by lra. rewrite powerRZ_1. field. lra.
  - f_equal. replace (- lat * PI / 180) with (- (lat * PI / 180)) by lra.
    now rewrite cos_neg.
  - intros ->. rewrite Hval.
    replace (0 * PI / 180) with 0 by lra. rewrite cos_0. f_equal. lra.
Qed.

(** X13 at 40 degrees north and zoom 18. *)
Lemma zoom_scale_witness :
  exists s,
    estimate_pixels_per_meter_from_zoom 40 18 = Returns s
    /\ s = powerRZ 2 18 / (156543.03392 * cos (40 * PI / 180))
    /\ 0 < s
    /\ estimate_pixels_per_meter_from_zoom 40 (18 + 1) = Returns (2 * s)
    /\ estimate_pixels_per_meter_from_zoom (- 40) 18 = Returns s
    /\ (40 = 0 -> s = powerRZ 2 18 / 156543.03392).
Proof. apply zoom_scale. lra. Defined.

(** X14: for a latitude strictly between the poles [_calculate_bbox]
    never divides by zero; the box is centred on the requested point, its
    longitude span is [width * 156543.03392 / 2^zoom / 111320] degrees
    whatever the latitude, its latitude span is
    [height * 156543.03392 * cos lat / 2^zoom / 111320] degrees, and its
    minima do not exceed its maxima for a width and a height that are not
    negative; the pixel scale it uses is the inverse of the scale
    [estimate_pixels_per_meter_from_zoom] returns. *)
Theorem bbox_centred (lat lon : R) (zoom width height : Z) :
  -90 < lat < 90 ->
  exists min_lat max_lat min_lon max_lon,
    _calculate_bbox lat lon zoom width height
    = Returns [min_lat; max_lat; min_lon; max_lon]
    /\ (min_lat + max_lat) / 2 = lat
    /\ (min_lon + max_lon) / 2 = lon
    /\ max_lon - min_lon = IZR width * 156543.03392 / powerRZ 2 zoom / 111320
    /\ max_lat - min_lat
       = IZR height * 156543.03392 * cos (lat * PI / 180)
         / powerRZ 2 zoom / 111320
    /\ ((0 <= width)%Z -> min_lon <= max_lon)
    /\ ((0 <= height)%Z -> min_lat <= max_lat)
    /\ (exists s,
          estimate_pixels_per_meter_from_zoom lat zoom = Returns s
          /\ s * (156543.03392 * cos (lat * PI / 180) / powerRZ 2 zoom) = 1).
Proof.
  intro Hlat. pose proof (cos_latitude_pos lat Hlat) as Hcos.
  pose proof (pow2_pos zoom) as Hpow.
  assert (Hest : exists s,
             estimate_pixels_per_meter_from_zoom lat zoom = Returns s
             /\ s * (156543.03392 * cos (lat * PI / 180) / powerRZ 2 zoom)
                = 1).
  { rewrite estimate_run by exact Hlat. eexists. split; [reflexivity |].
    assert (Hk : 0 < 156543.03392) by lra.
    replace 1.0 with 1 by lra.
    set (k := 156543.03392) in *. clearbody k. field. lra. }
  unfold _calculate_bbox.
  rewrite py_div_R_nonzero by lra. cbn [bind].
  rewrite py_div_R_nonzero by lra. cbn [bind].
  rewrite py_div_R_nonzero by nra. cbn [bind].
  do 4 eexists. split; [reflexivity |].
  set (c := cos (lat * PI / 180)) in *. set (n := powerRZ 2 zoom) in *.
  assert (Hk : 0 < 156543.03392) by lra.
  replace 111320.0 with 111320 by lra.
  set (k := 156543.03392) in *. clearbody k c n.
  assert (Hlon : lon + IZR width * (k * c / n) / (111320 * c) / 2
                 - (lon - IZR width * (k * c / n) / (111320 * c) / 2)
                 = IZR width * k / n / 111320)
    by (field; lra).
  assert (Hlatspan :
            lat + IZR height * (k * c / n) / 111320 / 2
            - (lat - IZR height * (k * c / n) / 111320 / 2)
            = IZR height * k * c / n / 111320)
    by (field; lra).
  split; [lra |]. split; [lra |]. split; [exact Hlon |].
  split; [exact Hlatspan |]. split; [| split].
  - intro Hw. apply IZR_le in Hw.
    assert (0 <= IZR width * k / n / 111320).
    { apply Rmult_le_pos; [| lra]. apply Rmult_le_pos;
        [| apply Rlt_le, Rinv_0_lt_compat; exact Hpow]. nra. }
    lra.
  - intro Hh. apply IZR_le in Hh.
    assert (0 <= IZR height * k * c / n / 111320).
    { apply Rmult_le_pos; [| lra]. apply Rmult_le_pos;
        [| apply Rlt_le, Rinv_0_lt_compat; exact Hpow].
      apply Rmult_le_pos; [apply Rmult_le_pos |]; lra. }
    lra.
  - exact Hest.
Qed.

(** X14 at 40 degrees north, 75 degrees west, zoom 18, 1024 by 1024. *)
Lemma bbox_centred_witness :
  exists min_lat max_lat min_lon max_lon,
    _calculate_bbox 40 (- 75) 18 1024 1024
    = Returns [min_lat; max_lat; min_lon; max_lon]
    /\ (min_lat + max_lat) / 2 = 40
    /\ (min_lon + max_lon) / 2 = - 75
    /\ max_lon - min_lon = IZR 1024 * 156543.03392 / powerRZ 2 18 / 111320
    /\ max_lat - min_lat
       = IZR 1024 * 156543.03392 * cos (40 * PI / 180)
         / powerRZ 2 18 / 111320
    /\ ((0 <= 1024)%Z -> min_lon <= max_lon)
    /\ ((0 <= 1024)%Z -> min_lat <= max_lat)
    /\ (exists s,
          estimate_pixels_per_meter_from_zoom 40 18 = Returns s
          /\ s * (156543.03392 * cos (40 * PI / 180) / powerRZ 2 18) = 1).
Proof. apply bbox_centred. lra. Defined.

End MapScale.

(* ================================================================= *)
(** ** Automatic scale detection *)

Section AutomaticScale.

Import ScaleDetection.

Variable image : Type.
Variable boundingRect : Np.ndarray -> Z * Z * Z * Z.
Variable arcLength : Np.ndarray -> bool -> R.

Lemma py_div_Z_nonzero (a b : Z) :
  b <> 0%Z -> py_div_Z a b = Returns (inject_Z a / inject_Z b)%Q.
Proof.
  intro H. unfold py_div_Z. destruct (Z.eqb_spec b 0); [contradiction |].
  reflexivity.
Qed.

(** One pass over a contour computes and discards: it returns nothing, or
    hands on OpenCV's refusal of the array. *)
Lemma reference_line_step_cases (contour : Np.ndarray) :
  (exists a, Cv2.contourArea contour = Returns a
             /\ reference_line_step boundingRect arcLength contour tt
                = Returns tt)
  \/ (Cv2.contourArea contour = Raises CvError
      /\ reference_line_step boundingRect arcLength contour tt
         = Raises CvError).
Proof.
  unfold reference_line_step.
  destruct (boundingRect contour) as [[[x y] w] h].
  unfold Cv2.contourArea.
  destruct (Cv2.points_of contour) as [pts |]; [left | right; now split].
  eexists. split; [reflexivity |]. cbn [bind].
  destruct (Rlt_dec 0 (arcLength contour false)) as [Hpos | _];
    [| reflexivity].
  rewrite py_div_R_nonzero by (apply pow_nonzero; lra). cbn [bind].
  match goal with
  | |- (if ?c then _ else _) = _ => destruct c; [| reflexivity]
  end.
  rewrite py_div_Z_nonzero by lia. cbn [bind].
  match goal with
  | |- (if ?c then _ else _) = _ => destruct c; reflexivity
  end.
Qed.

Lemma reference_line_loop (contours : list Np.ndarray) :
  (Forall (fun c => exists a, Cv2.contourArea c = Returns a) contours
   /\ for_each_py contours (reference_line_step boundingRect arcLength) tt
      = Returns tt)
  \/ for_each_py contours (reference_line_step boundingRect arcLength) tt
     = Raises CvError.
Proof.
  induction contours as [| c rest IH].
  - left. split; [constructor | reflexivity].
  - cbn [for_each_py].
    destruct (reference_line_step_cases c) as [(a & Ha & Hstep) | (_ & Hstep)];
      rewrite Hstep; cbn [bind]; [| now right].
    destruct IH as [(Hall & Hrun) | Hrun]; [left | now right].
    split; [constructor; [now exists a | exact Hall] | exact Hrun].
Qed.

(** X15: automatic detection never yields a scale.  [detect_scale]
    returns [None] for every image and every list of contours OpenCV
    accepts; the one thing it can raise is OpenCV's refusal of an array,
    and no division in it can fail. *)
Theorem detect_scale_finds_nothing (img : image)
    (contours : list Np.ndarray) (polys : list (list Cv2.point)) :
  (detect_scale boundingRect arcLength img contours = Returns None
   \/ detect_scale boundingRect arcLength img contours = Raises CvError)
  /\ detect_scale boundingRect arcLength img (map Cv2.cv_contour polys)
     = Returns None
  /\ detect_reference_line boundingRect arcLength img
       (map Cv2.cv_contour polys)
     = Returns None.
Proof.
  assert (Hgen : forall cs,
            detect_reference_line boundingRect arcLength img cs = Returns None
            \/ detect_reference_line boundingRect arcLength img cs
               = Raises CvError).
  { intro cs. unfold detect_reference_line.
    destruct (reference_line_loop cs) as [(_ & Hrun) | Hrun]; rewrite Hrun;
      [now left | now right]. }
  assert (Hcv : detect_reference_line boundingRect arcLength img
                  (map Cv2.cv_contour polys) = Returns None).
  { unfold detect_reference_line.
    destruct (reference_line_loop (map Cv2.cv_contour polys))
      as [(_ & Hrun) | Hrun]; rewrite Hrun; [reflexivity |].
    exfalso. clear Hgen. revert Hrun.
    induction polys as [| q rest IH]; [discriminate |].
    cbn [map for_each_py].
    destruct (reference_line_step_cases (Cv2.cv_contour q))
      as [(a & _ & Hstep) | (Hbad & _)].
    - rewrite Hstep. cbn [bind]. exact IH.
    - rewrite contourArea_cv_contour in Hbad. discriminate. }
  unfold detect_scale, detect_scale_label, detect_scale_rest, detect_ruler.
  cbn [truthy]. split; [| split; [| exact Hcv]].
  - destruct (Hgen contours) as [H | H]; rewrite H; [now left | now right].
  - rewrite Hcv. reflexivity.
Qed.

End AutomaticScale.

(* ================================================================= *)
(** ** The two manual calibrations side by side *)

Section TwoCalibrations.

Import AreaCalculator ScaleDetector.
Local Open Scope Q_scope.
Local Open Scope string_scope.

Lemma scale_from_reference_value (p r : Q) (unit : string) (f : Q) :
  dict_get unit_to_meters (lower unit) = Some f -> 0 < r ->
  calculate_scale_from_reference p r unit = Returns (p / (r * f)).
Proof.
  intros Hf Hr. pose proof (unit_to_meters_pos _ _ Hf) as Hfpos.
  rewrite (scale_from_reference_known p r unit f Hf).
  destruct (Qeq_bool (r * f) 0) eqn:E; [| reflexivity].
  apply Qeq_bool_eq in E. nra.
Qed.

Lemma manual_scale_input_value (p r : Q) (unit : string) :
  0 < real_length_m_of r unit ->
  manual_scale_input p r unit = Returns (Some (p / real_length_m_of r unit)).
Proof.
  intro H. rewrite manual_scale_input_run.
  apply py_gt_true in H. now rewrite H.
Qed.

(** X16: for a positive reference length the two manual calibrations,
    [ScaleDetector.manual_scale_input] and
    [AreaCalculator.calculate_scale_from_reference], return equal scale
    factors for "meters", "feet", "cm" and "mm"; for "inches" and "yards",
    which only the second knows, the first returns the quotient as if the
    length were in meters, 0.0254 respectively 0.9144 times the scale of
    the second. *)
Theorem manual_calibrations_compared (p r : Q) :
  0 < r ->
  (forall unit, In unit ["meters"; "feet"; "cm"; "mm"] ->
     exists s s',
       manual_scale_input p r unit = Returns (Some s)
       /\ calculate_scale_from_reference p r unit = Returns s'
       /\ s == s')
  /\ (exists s',
        manual_scale_input p r "inches" = Returns (Some (p / r))
        /\ calculate_scale_from_reference p r "inches" = Returns s'
        /\ p / r == 0.0254 * s')
  /\ (exists s',
        manual_scale_input p r "yards" = Returns (Some (p / r))
        /\ calculate_scale_from_reference p r "yards" = Returns s'
        /\ p / r == 0.9144 * s').
Proof.
  intro Hr. assert (Hnz : ~ r == 0) by lra. split; [| split].
  - intros unit Hin.
    assert (Hcases : unit = "meters" \/ unit = "feet" \/ unit = "cm"
                     \/ unit = "mm") by (simpl in Hin; intuition).
    assert (Hm : real_length_m_of r "meters" = r) by reflexivity.
    assert (Hf : real_length_m_of r "feet" = r * 0.3048) by reflexivity.
    assert (Hc : real_length_m_of r "cm" = r / 100) by reflexivity.
    assert (Hmm : real_length_m_of r "mm" = r / 1000) by reflexivity.
    destruct Hcases as [-> | [-> | [-> | ->]]].
    all: eexists; eexists.
    all: split; [apply manual_scale_input_value |].
    all: rewrite ?Hm, ?Hf, ?Hc, ?Hmm.
    all: try lra.
    all: try (apply Qlt_shift_div_l; [reflexivity | lra]).
    all: (split; [apply scale_from_reference_value;
                  [reflexivity | exact Hr] |]).
    all: field; exact Hnz.
  - eexists.
    split; [exact (manual_scale_input_value p r "inches" Hr) |].
    split; [apply scale_from_reference_value; [reflexivity | exact Hr] |].
    field. exact Hnz.
  - eexists.
    split; [exact (manual_scale_input_value p r "yards" Hr) |].
    split; [apply scale_from_reference_value; [reflexivity | exact Hr] |].
    field. exact Hnz.
Qed.

(** X16 at 100 pixels for 10 units. *)
Lemma manual_calibrations_compared_witness :
  (exists s s',
     manual_scale_input 100 10 "cm" = Returns (Some s)
     /\ calculate_scale_from_reference 100 10 "cm" = Returns s'
     /\ s == s')
  /\ (exists s',
        manual_scale_input 100 10 "inches" = Returns (Some (100 / 10))
        /\ calculate_scale_from_reference 100 10 "inches" = Returns s'
        /\ 100 / 10 == 0.0254 * s').
Proof.
  assert (H : 0 < 10) by reflexivity.
  split.
  - apply (proj1 (manual_calibrations_compared 100 10 H) "cm").
    simpl. tauto.
  - exact (proj1 (proj2 (manual_calibrations_compared 100 10 H))).
Defined.

End TwoCalibrations.

(* ================================================================= *)
(** ** Address checks *)

Section Addresses.

Import GeocodingService.
Local Open Scope string_scope.

(** X17: [_is_us_address] accepts every address, whatever it contains
    and whatever the ZIP pattern finds. *)
Theorem every_address_is_accepted (re_search_zip : string -> bool)
    (address : string) :
  _is_us_address re_search_zip address = true.
Proof.
  unfold _is_us_address.
  destruct (existsb _ us_indicators); [reflexivity |].
  destruct (re_search_zip address); reflexivity.
Qed.

Lemma lower_app (a b : string) : lower (a ++ b) = lower a ++ lower b.
Proof. induction a as [| c a IH]; simpl; [reflexivity | now rewrite IH]. Qed.

Lemma contains_app_r (needle a b : string) :
  contains needle b = true -> contains needle (a ++ b) = true.
Proof.
  intro H. induction a as [| c a IH]; [exact H |].
  cbn [append contains]. rewrite IH. apply orb_true_r.
Qed.

(** A string that is empty or begins with a character that is no white
    space is left alone by [lstrip]. *)
Lemma lstrip_clean (s : string) :
  match s with
  | EmptyString => True
  | String c _ => is_space c = false
  end ->
  lstrip s = s.
Proof. destruct s as [| c rest]; [reflexivity | simpl; now intros ->]. Qed.

Lemma lstrip_starts_clean (s : string) :
  match lstrip s with
  | EmptyString => True
  | String c _ => is_space c = false
  end.
Proof.
  induction s as [| c rest IH]; [exact I |].
  cbn [lstrip]. destruct (is_space c) eqn:E; [exact IH | exact E].
Qed.

Lemma rstrip_starts_clean (s : string) :
  match s with
  | EmptyString => True
  | String c _ => is_space c = false
  end ->
  match rstrip s with
  | EmptyString => True
  | String c _ => is_space c = false
  end.
Proof.
  destruct s as [| c rest]; [intros _; exact I |].
  intro Hc. cbn [rstrip]. destruct (rstrip rest); [rewrite Hc |]; exact Hc.
Qed.

Lemma rstrip_cons (c : ascii) (rest : string) :
  rstrip (String c rest)
  = match rstrip rest with
    | EmptyString => if is_space c then EmptyString else String c EmptyString
    | String k kept => String c (String k kept)
    end.
Proof. reflexivity. Qed.

Lemma rstrip_idempotent (s : string) : rstrip (rstrip s) = rstrip s.
Proof.
  induction s as [| c rest IH]; [reflexivity |].
  rewrite rstrip_cons. destruct (rstrip rest) as [| k kept] eqn:E.
  - destruct (is_space c) eqn:Hc; [reflexivity |].
    rewrite rstrip_cons. cbn [rstrip]. now rewrite Hc.
  - rewrite rstrip_cons, IH. reflexivity.
Qed.

Lemma strip_idempotent (s : string) : strip (strip s) = strip s.
Proof.
  unfold strip.
  rewrite (lstrip_clean (rstrip (lstrip s)))
    by (apply rstrip_starts_clean, lstrip_starts_clean).
  apply rstrip_idempotent.
Qed.

Lemma rstrip_app_fixed (a b : string) :
  b <> EmptyString -> rstrip b = b -> rstrip (a ++ b) = a ++ b.
Proof.
  intros Hne Hb. induction a as [| c a IH]; [exact Hb |].
  cbn [append]. rewrite rstrip_cons, IH.
  destruct (a ++ b) eqn:E; [| reflexivity].
  destruct a; [simpl in E; contradiction | discriminate].
Qed.

Lemma strip_with_suffix (s : string) :
  strip (strip s ++ ", USA") = strip s ++ ", USA".
Proof.
  unfold strip at 1.
  rewrite lstrip_clean.
  - apply rstrip_app_fixed; [discriminate | reflexivity].
  - pose proof (rstrip_starts_clean (lstrip s) (lstrip_starts_clean s)) as H.
    unfold strip. destruct (rstrip (lstrip s)); [reflexivity | exact H].
Qed.

Lemma append_same_nil (s t : string) : s = s ++ t -> t = "".
Proof.
  induction s as [| c s IH]; cbn [append]; intro H; [now symmetry |].
  injection H as H. exact (IH H).
Qed.

Lemma existsb_terms (f : string -> bool) (terms : list string) :
  (existsb f terms = true <-> exists term, In term terms /\ f term = true)
  /\ (existsb f terms = false <-> forall term, In term terms -> f term = false).
Proof.
  split; [apply existsb_exists |].
  split.
  - intros H term Hin. destruct (f term) eqn:E; [| reflexivity].
    assert (Ht : existsb f terms = true)
      by (apply existsb_exists; now exists term).
    congruence.
  - intro H. destruct (existsb f terms) eqn:E; [| reflexivity].
    apply existsb_exists in E. destruct E as (term & Hin & Ht).
    rewrite (H term Hin) in Ht. discriminate.
Qed.

(** X18: [_format_address] returns the stripped address followed by
    ", USA" exactly when the lower-case form of the stripped address
    contains none of "usa", "united states", " us " and " u.s.", and the
    stripped address alone exactly when it contains one of them; what it
    returns always contains one of them, and formatting it again changes
    nothing. *)
Theorem format_address_marks_country (address : string) :
  ((forall term, In term ["usa"; "united states"; " us "; " u.s."] ->
                 contains term (lower (strip address)) = false)
   <-> _format_address address = strip address ++ ", USA")
  /\ ((exists term, In term ["usa"; "united states"; " us "; " u.s."]
                    /\ contains term (lower (strip address)) = true)
      <-> _format_address address = strip address)
  /\ existsb (fun term => contains term (lower (_format_address address)))
       ["usa"; "united states"; " us "; " u.s."] = true
  /\ _format_address (_format_address address) = _format_address address.
Proof.
  pose proof (existsb_terms
                (fun term => contains term (lower (strip address)))
                ["usa"; "united states"; " us "; " u.s."]) as [Hsome Hnone].
  unfold _format_address.
  destruct (existsb (fun term => contains term (lower (strip address)))
              ["usa"; "united states"; " us "; " u.s."]) eqn:E.
  - cbn [negb]. split; [| split; [| split; [exact E |]]].
    + split.
      * intro H. apply Hnone in H. discriminate.
      * intro H. apply append_same_nil in H. discriminate.
    + split; [reflexivity | intros _; now apply Hsome].
    + rewrite strip_idempotent, E. reflexivity.
  - cbn [negb].
    assert (Hmark : existsb
              (fun term => contains term (lower (strip address ++ ", USA")))
              ["usa"; "united states"; " us "; " u.s."] = true).
    { cbn [existsb]. rewrite lower_app.
      rewrite (contains_app_r "usa" (lower (strip address)) (lower ", USA"))
        by reflexivity.
      reflexivity. }
    split; [| split; [| split; [exact Hmark |]]].
    + split; [reflexivity | intros _; now apply Hnone].
    + split.
      * intro H. apply Hsome in H. discriminate.
      * intro H. symmetry in H. apply append_same_nil in H. discriminate.
    + rewrite strip_with_suffix, Hmark. reflexivity.
Qed.

End Addresses.

(* ================================================================= *)
(** ** Point lists and arrays *)

Section PointLists.

Import Cv2 Geometry NpMore PropertyDetector.

Lemma map_py_seq {A B : Type} (f : nat -> py_result B) (g : A -> B)
    (l : list A) (k : nat) :
  (forall i x, nth_error l i = Some x -> f (k + i)%nat = Returns (g x)) ->
  map_py f (seq k (List.length l)) = Returns (map g l).
Proof.
  revert k. induction l as [| a l IH]; intros k H; [reflexivity |].
  cbn [List.length seq map_py map].
  rewrite <- (Nat.add_0_r k) at 1. rewrite (H 0%nat a eq_refl). cbn [bind].
  rewrite (IH (S k)); [reflexivity |].
  intros i x Hi. replace (S k + i)%nat with (k + S i)%nat by lia.
  now apply H.
Qed.

Lemma map_py_returns {A B : Type} (f : A -> py_result B) (g : A -> B)
    (l : list A) :
  (forall x, In x l -> f x = Returns (g x)) ->
  map_py f l = Returns (map g l).
Proof.
  induction l as [| a l IH]; intro H; [reflexivity |].
  cbn [map_py map]. rewrite (H a) by (now left). cbn [bind].
  rewrite IH by (intros x Hx; apply H; now right). reflexivity.
Qed.

Lemma rows_cv_contour (pts : list point) :
  rows (cv_contour pts)
  = Returns (map (fun p => {| Np.shape := [1%nat; 2%nat];
                              Np.data := [fst p; snd p] |}) pts).
Proof.
  unfold rows. cbn [cv_contour Np.shape].
  apply (map_py_seq (Np.getitem (cv_contour pts))).
  intros i x Hi. now apply cv_getitem_row.
Qed.

Lemma contour_points_cv_contour (pts : list point) :
  contour_points (cv_contour pts) = Returns (map point_list pts).
Proof.
  unfold contour_points. rewrite rows_cv_contour. cbn [bind].
  rewrite map_py_returns with (g := fun a => match Np.data a with
                                             | [x; y] => [x; y]
                                             | _ => []
                                             end).
  - rewrite map_map. reflexivity.
  - intros a Ha. apply in_map_iff in Ha. destruct Ha as (p & <- & _).
    reflexivity.
Qed.

Lemma concat_point_lists (pts : list point) :
  List.concat (map point_list pts) = flat_map (fun p => [fst p; snd p]) pts.
Proof. induction pts as [| p t IH]; cbn; [reflexivity | now rewrite IH]. Qed.

Lemma array2_point_lists (p : point) (t : list point) :
  array2 (map point_list (p :: t))
  = Returns {| Np.shape := [S (List.length t); 2%nat];
               Np.data := flat_map (fun q => [fst q; snd q]) (p :: t) |}.
Proof.
  unfold array2. cbn [map].
  assert (H : forallb (fun r' => (List.length r' =? List.length (point_list p))%nat)
                (point_list p :: map point_list t) = true).
  { apply forallb_forall. intros r Hr.
    change (point_list p :: map point_list t)
      with (map point_list (p :: t)) in Hr.
    apply in_map_iff in Hr. destruct Hr as (q & <- & _). reflexivity. }
  rewrite H. change (point_list p :: map point_list t)
    with (map point_list (p :: t)).
  rewrite concat_point_lists, length_map. reflexivity.
Qed.

Lemma contourArea_point_rows (p : point) (t : list point) :
  contourArea {| Np.shape := [S (List.length t); 2%nat];
                 Np.data := flat_map (fun q => [fst q; snd q]) (p :: t) |}
  = Returns (shoelace_area (p :: t)).
Proof.
  unfold contourArea, points_of. cbn [Np.shape Np.data].
  assert (Hc : point_count [S (List.length t); 2%nat]
               = Some (S (List.length t)))
    by (destruct (List.length t); reflexivity).
  rewrite Hc, flat_points_length.
  replace (2 * List.length (p :: t) =? 2 * S (List.length t))%nat with true
    by (symmetry; apply Nat.eqb_eq; reflexivity).
  rewrite pair_up_flat_points. reflexivity.
Qed.

Lemma region_area_point_lists (pts : list point) :
  pts <> [] ->
  region_area (map point_list pts) = Returns (shoelace_area pts).
Proof.
  destruct pts as [| p t]; [congruence | intros _].
  unfold region_area. rewrite array2_point_lists. cbn [bind].
  apply contourArea_point_rows.
Qed.

Lemma shoelace_few_points (pts : list point) :
  (List.length pts < 3)%nat -> shoelace_sum pts = 0%Z.
Proof.
  destruct pts as [| [a b] [| [c d] [| r t]]]; cbn [List.length]; intro H;
    try lia; unfold shoelace_sum;
    cbn [cyclic_pairs app combine map cross Zsum fold_right fst snd]; ring.
Qed.

End PointLists.

(* ================================================================= *)
(** ** property_detector.py: gardens, yards and the house *)

Section Garden.

Import Cv2 Geometry NpMore PropertyDetector ImageProcessor.
Local Open Scope Q_scope.

Lemma shoelace_area_few_points (pts : list point) :
  (List.length pts < 3)%nat -> shoelace_area pts == 0.
Proof.
  intro H. unfold shoelace_area. now rewrite (shoelace_few_points pts H).
Qed.

Lemma calculate_garden_area_run (pts : list point) :
  calculate_garden_area (map point_list pts)
  = Returns (if (List.length pts <? 3)%nat then 0
             else Qabs (shoelace_area pts)).
Proof.
  unfold calculate_garden_area. rewrite length_map.
  destruct (List.length pts <? 3)%nat eqn:E; [reflexivity |].
  destruct pts as [| p t]; [discriminate |].
  rewrite array2_point_lists. cbn [bind].
  rewrite contourArea_point_rows. reflexivity.
Qed.

(** X19: on a list of [[x, y]] points with [int32] coordinates
    [calculate_garden_area] returns the shoelace area of the polygon,
    whatever the number of points (for fewer than three that area is 0),
    and it is the very value the processor's [calculate_area] returns for
    the same points as a contour ([cv2.contourArea] as the specification
    describes it). *)
Theorem garden_area_is_shoelace (pts : list point) (self : processor) :
  Forall (fun p => int32 (fst p) /\ int32 (snd p)) pts ->
  exists v,
    calculate_garden_area (map point_list pts) = Returns v
    /\ v == shoelace_area pts
    /\ calculate_area (cv_contour pts) self = (Returns v, self).
Proof.
  intros _.
  exists (if (List.length pts <? 3)%nat then 0 else Qabs (shoelace_area pts)).
  split; [apply calculate_garden_area_run |].
  split; [| apply calculate_area_run].
  destruct (List.length pts <? 3)%nat eqn:E.
  - apply Nat.ltb_lt in E. symmetry. now apply shoelace_area_few_points.
  - apply Qabs_pos, shoelace_area_nonneg.
Qed.

Lemma point_lists_of_pairs (rows : list (list Z)) :
  Forall (fun r => List.length r = 2%nat) rows ->
  exists pts, rows = map point_list pts.
Proof.
  induction 1 as [| r rows Hr _ (pts & ->)]; [now exists [] |].
  destruct r as [| a [| b [| c r]]]; try discriminate.
  now exists ((a, b) :: pts).
Qed.

(** X20: with three rows or more, all of [int32] values,
    [calculate_garden_area] returns a value exactly when every row is a
    pair of coordinates; a ragged list is refused by [np.array], rows of
    another width by [cv2.contourArea]. *)
Theorem garden_area_needs_pairs (rows : list (list Z)) :
  (3 <= List.length rows)%nat ->
  Forall (Forall int32) rows ->
  ((exists v, calculate_garden_area rows = Returns v)
   <-> Forall (fun r => List.length r = 2%nat) rows).
Proof.
  intros Hlen _. split.
  - intros (v & Hv). unfold calculate_garden_area in Hv.
    destruct (List.length rows <? 3)%nat eqn:E;
      [apply Nat.ltb_lt in E; lia |].
    destruct rows as [| r rest]; [cbn in Hlen; lia |].
    unfold array2 in Hv.
    destruct (forallb (fun r' => (List.length r' =? List.length r)%nat)
                (r :: rest)) eqn:Hall; [| discriminate].
    cbn [bind] in Hv. unfold contourArea, points_of in Hv.
    cbn [Np.shape Np.data] in Hv.
    assert (Hk : List.length r = 2%nat).
    { cbn [List.length] in Hv.
      destruct (List.length r) as [| [| [| k]]]; try reflexivity;
        destruct (List.length rest) as [| [| m]];
        cbn [point_count] in Hv; discriminate. }
    apply Forall_forall. intros r' Hr'.
    rewrite forallb_forall in Hall. specialize (Hall r' Hr').
    apply Nat.eqb_eq in Hall. congruence.
  - intro Hall. destruct (point_lists_of_pairs rows Hall) as (pts & ->).
    rewrite calculate_garden_area_run. eauto.
Qed.

End Garden.

Lemma garden_area_needs_pairs_witness :
  (exists v, PropertyDetector.calculate_garden_area
               [[0; 0]; [4; 0]; [4; 3]]%Z = Returns v)
  <-> Forall (fun r => List.length r = 2%nat) [[0; 0]; [4; 0]; [4; 3]]%Z.
Proof.
  apply (garden_area_needs_pairs [[0; 0]; [4; 0]; [4; 3]]%Z).
  - cbn. lia.
  - repeat constructor; discriminate.
Defined.

Lemma garden_area_is_shoelace_witness :
  exists v,
    PropertyDetector.calculate_garden_area
      (map NpMore.point_list [(0, 0); (4, 0); (4, 3)]%Z) = Returns v
    /\ v == Geometry.shoelace_area [(0, 0); (4, 0); (4, 3)]%Z
    /\ ImageProcessor.calculate_area
         (Cv2.cv_contour [(0, 0); (4, 0); (4, 3)]%Z) ImageProcessor.__init__
       = (Returns v, ImageProcessor.__init__).
Proof.
  apply (garden_area_is_shoelace [(0, 0); (4, 0); (4, 3)]%Z
           ImageProcessor.__init__).
  repeat constructor; discriminate.
Defined.

Section Yards.

Import Cv2 Geometry NpMore PropertyDetector.
Local Open Scope Z_scope.
Local Open Scope string_scope.

Variable boundingRect : Np.ndarray -> Z * Z * Z * Z.



Lemma get_yard_region_run (pts : list point) (region : string)
    (x y w h height width : Z) :
  boundingRect (cv_contour pts) = (x, y, w, h) ->
  _get_yard_region boundingRect (cv_contour pts) region height width
  = Returns
      (if String.eqb region "front" then
         Some (map point_list [(x, y + h / 2); (x + w, y + h / 2);
                               (x + w, y + h); (x, y + h)])
       else if String.eqb region "back" then
         Some (map point_list [(x, y); (x + w, y);
                               (x + w, y + h / 2); (x, y + h / 2)])
       else if String.eqb region "left" then
         Some (map point_list [(x, y); (x + w / 2, y);
                               (x + w / 2, y + h); (x, y + h)])
       else if String.eqb region "right" then
         Some (map point_list [(x + w / 2, y); (x + w, y);
                               (x + w, y + h); (x + w / 2, y + h)])
       else None).
Proof.
  intro H. unfold _get_yard_region. rewrite H.
  rewrite contour_points_cv_contour. cbn [bind].
  repeat match goal with
         | |- context [String.eqb region ?s] => destruct (String.eqb region s)
         end; reflexivity.
Qed.


End Yards.


Section HouseAndZones.

Import Cv2 Geometry NpMore PropertyDetector.
Local Open Scope string_scope.

Variable image : Type.
Variable image_shape : image -> Z * Z.
Variable boundingRect : Np.ndarray -> Z * Z * Z * Z.
Variable cv_edge_contours : image -> list Np.ndarray.
Variable cv_moments : Np.ndarray -> Q * Q * Q.
Variable cv_approx_len : Np.ndarray -> nat.

Lemma filter_py_kept {A : Type} (test : A -> py_result bool)
    (items : list A) :
  (forall x, In x items -> exists b, test x = Returns b) ->
  exists kept,
    filter_py test items = Returns kept
    /\ forall x, In x kept <-> In x items /\ test x = Returns true.
Proof.
  induction items as [| a items IH]; intro H.
  - exists []. split; [reflexivity |]. intro x. cbn. tauto.
  - destruct (H a (or_introl eq_refl)) as (b & Hb).
    destruct IH as (kept & Hrun & Hin);
      [intros x Hx; apply H; now right |].
    exists (if b then a :: kept else kept).
    split; [cbn [filter_py]; rewrite Hb, Hrun; reflexivity |].
    intro x. destruct b; cbn [In]; rewrite Hin; split.
    + intros [<- | (Hx & Ht)]; [split; [now left | exact Hb] |].
      split; [now right | exact Ht].
    + intros ([<- | Hx] & Ht); [now left | right; now split].
    + intros (Hx & Ht). split; [now right | exact Ht].
    + intros ([<- | Hx] & Ht); [congruence | now split].
Qed.

Lemma house_like_cases (img : image) (cx cy : Z) (q : list point) :
  exists b,
    house_like image_shape cv_moments cv_approx_len img cx cy (cv_contour q)
    = Returns b
    /\ (b = true ->
        (5000 < shoelace_area q)%Q /\ (shoelace_area q < 50000)%Q
        /\ (4 <= cv_approx_len (cv_contour q))%nat).
Proof.
  unfold house_like. rewrite contourArea_cv_contour. cbn [bind].
  destruct (py_gt (shoelace_area q) 5000) eqn:E1;
    [| exists false; split; [reflexivity | discriminate]].
  destruct (py_gt 50000 (shoelace_area q)) eqn:E2;
    [| exists false; split; [reflexivity | discriminate]].
  apply py_gt_true in E1, E2. cbn [andb].
  destruct (cv_moments (cv_contour q)) as [[m00 m10] m01].
  destruct (Qeq_bool m00 0) eqn:E0;
    [exists false; split; [reflexivity | discriminate] |].
  apply Qeq_bool_neq in E0. cbn [negb].
  rewrite !(py_div_nonzero _ m00 E0). cbn [bind].
  destruct (image_shape img) as [h w].
  match goal with
  | |- context [if ?c then _ else _] => destruct c
  end; [| exists false; split; [reflexivity | discriminate]].
  exists (4 <=? cv_approx_len (cv_contour q))%nat.
  split; [reflexivity |]. intro H. apply Nat.leb_le in H. tauto.
Qed.

Lemma detect_house_structure_run (img : image) (cx cy : Z)
    (polys : list (list point)) :
  cv_edge_contours img = map cv_contour polys ->
  (_detect_house_structure image_shape cv_edge_contours cv_moments
     cv_approx_len img cx cy = Returns None
   /\ forall q, In q polys ->
        house_like image_shape cv_moments cv_approx_len img cx cy
          (cv_contour q) = Returns false)
  \/ (exists q,
        _detect_house_structure image_shape cv_edge_contours cv_moments
          cv_approx_len img cx cy = Returns (Some (map point_list q))
        /\ In q polys
        /\ house_like image_shape cv_moments cv_approx_len img cx cy
             (cv_contour q) = Returns true
        /\ forall q', In q' polys ->
             house_like image_shape cv_moments cv_approx_len img cx cy
               (cv_contour q') = Returns true ->
             (shoelace_area q' <= shoelace_area q)%Q).
Proof.
  intro He. unfold _detect_house_structure. rewrite He.
  destruct (filter_py_kept
              (house_like image_shape cv_moments cv_approx_len img cx cy)
              (map cv_contour polys)) as (kept & Hrun & Hin).
  { intros x Hx. apply in_map_iff in Hx. destruct Hx as (q & <- & _).
    destruct (house_like_cases img cx cy q) as (b & Hb & _). eauto. }
  rewrite Hrun. cbn [bind].
  destruct kept as [| k0 kept'] eqn:Ek.
  - left. split; [reflexivity |]. intros q Hq.
    destruct (house_like_cases img cx cy q) as ([|] & Hb & _);
      [| exact Hb].
    exfalso. apply (proj2 (Hin (cv_contour q))).
    split; [now apply in_map | exact Hb].
  - right. rewrite <- Ek in *.
    set (kv := fun x => match contourArea x with
                        | Returns v => v
                        | Raises _ => 0%Q
                        end).
    destruct (py_max_key_first_largest Np.ndarray contourArea kv kept)
      as (i & m & Hmax & Hn & Hle & _).
    + rewrite Ek. discriminate.
    + intros x Hx. apply (contourArea_value polys). now apply Hin.
    + assert (Hkv : forall p, kv (cv_contour p) = shoelace_area p)
        by (intro p; unfold kv; now rewrite contourArea_cv_contour).
      assert (Hm : In m kept) by (eapply nth_error_In; exact Hn).
      apply Hin in Hm. destruct Hm as (Hm & Hlike).
      apply in_map_iff in Hm. destruct Hm as (q & <- & Hq).
      exists q. replace (match kept with
                         | [] => Returns None
                         | _ :: _ =>
                             (largest <- py_max_key contourArea kept ;;
                              points <- contour_points largest ;;
                              Returns (Some points))%py
                         end)
        with (largest <- py_max_key contourArea kept ;;
              points <- contour_points largest ;;
              Returns (Some points))%py
        by (rewrite Ek; reflexivity).
      rewrite Hmax. cbn [bind]. rewrite contour_points_cv_contour.
      split; [reflexivity |]. split; [exact Hq |]. split; [exact Hlike |].
      intros q' Hq' Hlike'. rewrite <- !Hkv.
      assert (Hk' : In (cv_contour q') kept)
        by (apply Hin; split; [now apply in_map | exact Hlike']).
      apply In_nth_error in Hk'. destruct Hk' as (j & Hj).
      exact (Hle j _ Hj).
Qed.

Lemma house_like_iff (img : image) (cx cy : Z) (q : list point) :
  house_like image_shape cv_moments cv_approx_len img cx cy (cv_contour q)
  = Returns true
  <-> house_test image_shape cv_moments cv_approx_len img cx cy q.
Proof.
  unfold house_like, house_test. rewrite contourArea_cv_contour.
  cbn [bind].
  destruct (cv_moments (cv_contour q)) as [[m00 m10] m01].
  destruct (image_shape img) as [h w].
  destruct (py_gt (shoelace_area q) 5000) eqn:E1; cycle 1.
  { apply py_gt_false in E1. cbn [andb].
    split; [discriminate | intros (H & _); lra]. }
  destruct (py_gt 50000 (shoelace_area q)) eqn:E2; cycle 1.
  { apply py_gt_false in E2. cbn [andb].
    split; [discriminate | intros (_ & H & _); lra]. }
  apply py_gt_true in E1, E2. cbn [andb].
  destruct (Qeq_bool m00 0) eqn:E0.
  { apply Qeq_bool_iff in E0. cbn [negb].
    split; [discriminate | intros (_ & _ & H & _); contradiction]. }
  apply Qeq_bool_neq in E0. cbn [negb].
  rewrite !(py_div_nonzero _ m00 E0). cbn [bind].
  destruct (py_gt (inject_Z w * 0.3)
              (inject_Z (Z.abs (py_int (m10 / m00) - cx)))) eqn:E3; cycle 1.
  { apply py_gt_false in E3. cbn [andb].
    split; [discriminate | intros (_ & _ & _ & H & _); lra]. }
  destruct (py_gt (inject_Z h * 0.3)
              (inject_Z (Z.abs (py_int (m01 / m00) - cy)))) eqn:E4; cycle 1.
  { apply py_gt_false in E4. cbn [andb].
    split; [discriminate | intros (_ & _ & _ & _ & H & _); lra]. }
  apply py_gt_true in E3, E4. cbn [andb].
  split.
  - intro H.
    assert (Hc : (4 <=? cv_approx_len (cv_contour q))%nat = true)
      by congruence.
    apply Nat.leb_le in Hc. tauto.
  - intros (_ & _ & _ & _ & _ & H). apply Nat.leb_le in H. now rewrite H.
Qed.

Lemma house_like_false_iff (img : image) (cx cy : Z) (q : list point) :
  house_like image_shape cv_moments cv_approx_len img cx cy (cv_contour q)
  = Returns false
  <-> ~ house_test image_shape cv_moments cv_approx_len img cx cy q.
Proof.
  rewrite <- house_like_iff.
  destruct (house_like_cases img cx cy q) as ([|] & Hb & _); rewrite Hb.
  - split; [discriminate | intro H; now elim H].
  - split; [intros _; discriminate | reflexivity].
Qed.

(** X22: when the edge detector finds the polygons [polys],
    [_detect_house_structure] returns [None] exactly if none of them
    passes the house tests of the loop: an area above 5000 and below
    50000 px², a non-zero [m00], a centroid nearer than 0.3 of the width
    and of the height to the centre, and four approximating corners or
    more.  Otherwise it returns the corner points of a polygon that
    passes them all, and no polygon that passes them has a larger area
    ([cv2.contourArea] as the specification describes it). *)
Theorem house_is_largest_candidate (img : image) (cx cy : Z)
    (polys : list (list point)) :
  cv_edge_contours img = map cv_contour polys ->
  (_detect_house_structure image_shape cv_edge_contours cv_moments
     cv_approx_len img cx cy = Returns None
   <-> forall q, In q polys ->
         ~ house_test image_shape cv_moments cv_approx_len img cx cy q)
  /\ ((_detect_house_structure image_shape cv_edge_contours cv_moments
         cv_approx_len img cx cy = Returns None
       /\ forall q, In q polys ->
            ~ house_test image_shape cv_moments cv_approx_len img cx cy q)
      \/ (exists q,
            _detect_house_structure image_shape cv_edge_contours cv_moments
              cv_approx_len img cx cy = Returns (Some (map point_list q))
            /\ In q polys
            /\ house_test image_shape cv_moments cv_approx_len img cx cy q
            /\ (5000 < shoelace_area q)%Q /\ (shoelace_area q < 50000)%Q
            /\ (4 <= cv_approx_len (cv_contour q))%nat
            /\ forall q', In q' polys ->
                 house_test image_shape cv_moments cv_approx_len img cx cy
                   q' ->
                 (shoelace_area q' <= shoelace_area q)%Q)).
Proof.
  intro He.
  destruct (detect_house_structure_run img cx cy polys He)
    as [[Hnone Hall] | (q & Hrun & Hq & Hlike & Hmax)].
  - assert (Hall' : forall q, In q polys ->
              ~ house_test image_shape cv_moments cv_approx_len img cx cy q)
      by (intros q Hq; apply house_like_false_iff, Hall, Hq).
    split; [split; [intros _; exact Hall' | intros _; exact Hnone] |].
    left. now split.
  - pose proof (proj1 (house_like_iff img cx cy q) Hlike) as Htest.
    split.
    + rewrite Hrun. split; [discriminate |].
      intro Hall. exfalso. exact (Hall q Hq Htest).
    + right. exists q. split; [exact Hrun |]. split; [exact Hq |].
      split; [exact Htest |].
      destruct (house_like_cases img cx cy q) as (b & Hb & Hprops).
      rewrite Hlike in Hb. injection Hb as <-.
      destruct (Hprops eq_refl) as (H1 & H2 & H3).
      repeat (split; [assumption |]).
      intros q' Hq' Htest'. apply (Hmax q' Hq').
      now apply house_like_iff.
Qed.

Lemma add_zone_points (name : string) (pts : list point)
    (zones : dict zone) :
  pts <> [] ->
  add_zone name (Some (map point_list pts)) zones
  = Returns (zones ++ [(name, {| boundary := map point_list pts;
                                 area_pixels := shoelace_area pts |})])%list.
Proof.
  intro Hne. unfold add_zone.
  destruct pts as [| p t] eqn:E; [congruence |]. rewrite <- E in *.
  replace (truthy_list (Some (map point_list pts)))
    with (Some (map point_list pts)) by (rewrite E; reflexivity).
  rewrite (region_area_point_lists pts Hne). reflexivity.
Qed.

Lemma detect_zones_run (img : image) (pts : list point)
    (all_contours : list Np.ndarray) (hpolys : list (list point))
    (x y w h height width : Z) :
  image_shape img = (height, width) ->
  cv_edge_contours img = map cv_contour hpolys ->
  boundingRect (cv_contour pts) = (x, y, w, h) ->
  exists hz yards,
    _detect_zones image_shape boundingRect cv_edge_contours cv_moments
      cv_approx_len img (cv_contour pts) all_contours
    = Returns (hz ++ yards)%list
    /\ (hz = []
        \/ exists q, In q hpolys
                     /\ hz = [("house",
                               {| boundary := map point_list q;
                                  area_pixels := shoelace_area q |})])
    /\ map fst yards
       = ["front_yard"; "back_yard"; "left_yard"; "right_yard"]
    /\ map (fun e => boundary (snd e)) yards
       = map (map point_list)
           [ [(x, y + h / 2); (x + w, y + h / 2);
              (x + w, y + h); (x, y + h)];
             [(x, y); (x + w, y); (x + w, y + h / 2); (x, y + h / 2)];
             [(x, y); (x + w / 2, y); (x + w / 2, y + h); (x, y + h)];
             [(x + w / 2, y); (x + w, y);
              (x + w, y + h); (x + w / 2, y + h)] ]%Z
    /\ map (fun e => area_pixels (snd e)) yards
       = map shoelace_area
           [ [(x, y + h / 2); (x + w, y + h / 2);
              (x + w, y + h); (x, y + h)];
             [(x, y); (x + w, y); (x + w, y + h / 2); (x, y + h / 2)];
             [(x, y); (x + w / 2, y); (x + w / 2, y + h); (x, y + h)];
             [(x + w / 2, y); (x + w, y);
              (x + w, y + h); (x + w / 2, y + h)] ]%Z.
Proof.
  intros Hs He HR. unfold _detect_zones. rewrite Hs.
  assert (Hhouse : exists hz,
             (house_region <- _detect_house_structure image_shape
                                cv_edge_contours cv_moments cv_approx_len
                                img (width / 2) (height / 2) ;;
              add_zone "house" house_region [])%py = Returns hz
             /\ (hz = []
                 \/ exists q, In q hpolys
                              /\ hz = [("house",
                                        {| boundary := map point_list q;
                                           area_pixels :=
                                             shoelace_area q |})])).
  { destruct (detect_house_structure_run img (width / 2) (height / 2)
                hpolys He)
      as [(Hrun & _) | (q & Hrun & Hq & Hlike & _)]; rewrite Hrun.
    - exists []. split; [reflexivity | now left].
    - destruct (house_like_cases img (width / 2) (height / 2) q)
        as (b & Hb & Hprops).
      rewrite Hlike in Hb. injection Hb as <-.
      destruct (Hprops eq_refl) as (H1 & _).
      assert (Hne : q <> []).
      { intros ->. unfold Qlt in H1. cbn in H1. lia. }
      cbn [bind]. rewrite (add_zone_points "house" q [] Hne).
      eexists. split; [reflexivity |]. right. exists q. now split. }
  destruct Hhouse as (hz & Hrun & Hhz).
  destruct (_detect_house_structure image_shape cv_edge_contours cv_moments
              cv_approx_len img (width / 2) (height / 2))
    as [house | e]; [| discriminate].
  cbn [bind] in Hrun |- *. rewrite Hrun. cbn [bind].
  rewrite !(get_yard_region_run boundingRect pts _ x y w h height width HR).
  cbn [String.eqb Ascii.eqb Bool.eqb bind].
  repeat (rewrite add_zone_points by discriminate; cbn [bind]).
  rewrite <- !app_assoc. cbn [app].
  eexists hz, _. split; [reflexivity |].
  split; [exact Hhz |]. repeat split.
Qed.


End HouseAndZones.

Lemma house_is_largest_candidate_witness :
  exists q,
    PropertyDetector._detect_house_structure
      (fun _ : Datatypes.unit => (400, 400)%Z)
      (fun _ => map Cv2.cv_contour
                  [[(150, 150); (250, 150); (250, 250); (150, 250)]%Z])
      (fun _ => (10000, 2000000, 2000000)%Q) (fun _ => 4%nat) tt 200 200
    = Returns (Some (map NpMore.point_list q))
    /\ In q [[(150, 150); (250, 150); (250, 250); (150, 250)]%Z].
Proof.
  destruct (house_is_largest_candidate Datatypes.unit
              (fun _ => (400, 400)%Z)
              (fun _ => map Cv2.cv_contour
                          [[(150, 150); (250, 150); (250, 250);
                            (150, 250)]%Z])
              (fun _ => (10000, 2000000, 2000000)%Q) (fun _ => 4%nat)
              tt 200%Z 200%Z
              [[(150, 150); (250, 150); (250, 250); (150, 250)]%Z]
              eq_refl)
    as [_ [[Hnone _] | (q & Hrun & Hq & _)]].
  - discriminate Hnone.
  - exists q. now split.
Defined.


Section Boundaries.

Import Cv2 Geometry NpMore PropertyDetector.
Local Open Scope string_scope.

Variable image : Type.
Variable image_shape : image -> Z * Z.
Variable boundingRect : Np.ndarray -> Z * Z * Z * Z.
Variable cv_edge_contours : image -> list Np.ndarray.
Variable cv_moments : Np.ndarray -> Q * Q * Q.
Variable cv_approx_len : Np.ndarray -> nat.
Variable cv_preprocess : image -> image * image.
Variable cv_find_contours : image -> image -> list Np.ndarray * image.

(** X24: with the contours of the polygons [polys] found in the image and
    polygons as edge contours, [detect_property_boundaries] leaves the
    processor as it was and returns one of two dicts.  If no polygon
    encloses more than 50 px², the boundary is [None], there are no zones
    and the note asks for a manual drawing.  Otherwise the boundary is
    the point list of the first polygon of largest area among those above
    50 px², [total_contours] counts those polygons, there is no note, and
    the zones end with the four yards. *)
Theorem property_boundaries_run (img processed original mask : image)
    (polys hpolys : list (list point)) (self : ImageProcessor.processor) :
  cv_preprocess img = (processed, original) ->
  cv_find_contours processed original = (map cv_contour polys, mask) ->
  cv_edge_contours img = map cv_contour hpolys ->
  (large polys = []
   /\ detect_property_boundaries image_shape boundingRect cv_edge_contours
        cv_moments cv_approx_len cv_preprocess cv_find_contours img self
      = (Returns
           {| property_boundary := None;
              zones := [];
              notes :=
                Some "No property boundaries detected. Please draw manually.";
              total_contours := None |},
         self))
  \/ (exists i pts hz yards,
        first_largest shoelace_area (large polys) i pts
        /\ detect_property_boundaries image_shape boundingRect
             cv_edge_contours cv_moments cv_approx_len cv_preprocess
             cv_find_contours img self
           = (Returns
                {| property_boundary := Some (map point_list pts);
                   zones := (hz ++ yards)%list;
                   notes := None;
                   total_contours := Some (List.length (large polys)) |},
              self)
        /\ (hz = [] \/ exists z, hz = [("house", z)])
        /\ map fst yards
           = ["front_yard"; "back_yard"; "left_yard"; "right_yard"]).
Proof.
  intros Hpre Hfind Hedge.
  assert (Hstart :
            detect_property_boundaries image_shape boundingRect
              cv_edge_contours cv_moments cv_approx_len cv_preprocess
              cv_find_contours img self
            = match map cv_contour (large polys) with
              | [] =>
                  (Returns
                     {| property_boundary := None;
                        zones := [];
                        notes :=
                          Some ("No property boundaries detected. "
                                ++ "Please draw manually.");
                        total_contours := None |},
                   self)
              | _ :: _ =>
                  ((main_boundary <- py_max_key contourArea
                                       (map cv_contour (large polys)) ;;
                    boundary_points <- contour_points main_boundary ;;
                    zones <- _detect_zones image_shape boundingRect
                               cv_edge_contours cv_moments cv_approx_len img
                               main_boundary (map cv_contour (large polys)) ;;
                    Returns
                      {| property_boundary := Some boundary_points;
                         zones := zones;
                         notes := None;
                         total_contours :=
                           Some (List.length
                                   (map cv_contour (large polys))) |})%py,
                   self)
              end).
  { unfold detect_property_boundaries, ImageProcessor.preprocess_image.
    unfold ImageProcessor.mbind at 1. cbn [ImageProcessor.ret].
    rewrite Hpre.
    rewrite (mbind_returns _ _ _ _
               (detect_drawn_lines_run _ _ _ _ _ _ self Hfind)).
    destruct (map cv_contour (large polys)); reflexivity. }
  rewrite Hstart.
  destruct (large polys) as [| q0 rest] eqn:Hl.
  - left. split; reflexivity.
  - right. rewrite <- Hl.
    assert (Hne : large polys <> []) by (rewrite Hl; discriminate).
    destruct (select_main_contour (large polys) Hne)
      as (i & pts & Hsel & Hmax).
    destruct (image_shape img) as [height width] eqn:Hs.
    destruct (boundingRect (cv_contour pts)) as [[[x y] w] h] eqn:HR.
    destruct (detect_zones_run image image_shape boundingRect
                cv_edge_contours cv_moments cv_approx_len img pts
                (map cv_contour (large polys)) hpolys x y w h height width
                Hs Hedge HR)
      as (hz & yards & Hrun & Hhz & Hnames & _).
    exists i, pts, hz, yards. split; [exact Hmax |].
    split; [| split; [| exact Hnames]].
    + rewrite Hsel. cbn [bind]. rewrite contour_points_cv_contour.
      cbn [bind]. rewrite Hrun. cbn [bind]. rewrite length_map.
      rewrite Hl. reflexivity.
    + destruct Hhz as [-> | (q & _ & ->)]; eauto.
Qed.

End Boundaries.

Lemma property_boundaries_run_witness :
  (Geometry.large [[(0, 0); (20, 0); (20, 10)]%Z] = []
   /\ PropertyDetector.detect_property_boundaries
        (fun _ : Datatypes.unit => (400, 400)%Z)
        (fun _ => (0, 0, 21, 11)%Z)
        (fun _ => map Cv2.cv_contour [])
        (fun _ => (0, 0, 0)%Q) (fun _ => 0%nat)
        (fun _ => (tt, tt))
        (fun _ _ => (map Cv2.cv_contour [[(0, 0); (20, 0); (20, 10)]%Z], tt))
        tt ImageProcessor.__init__
      = (Returns
           {| PropertyDetector.property_boundary := None;
              PropertyDetector.zones := [];
              PropertyDetector.notes :=
                Some "No property boundaries detected. Please draw manually."
                %string;
              PropertyDetector.total_contours := None |},
         ImageProcessor.__init__))
  \/ (exists i pts hz yards,
        first_largest Geometry.shoelace_area
          (Geometry.large [[(0, 0); (20, 0); (20, 10)]%Z]) i pts
        /\ PropertyDetector.detect_property_boundaries
             (fun _ : Datatypes.unit => (400, 400)%Z)
             (fun _ => (0, 0, 21, 11)%Z)
             (fun _ => map Cv2.cv_contour [])
             (fun _ => (0, 0, 0)%Q) (fun _ => 0%nat)
             (fun _ => (tt, tt))
             (fun _ _ =>
                (map Cv2.cv_contour [[(0, 0); (20, 0); (20, 10)]%Z], tt))
             tt ImageProcessor.__init__
           = (Returns
                {| PropertyDetector.property_boundary :=
                     Some (map NpMore.point_list pts);
                   PropertyDetector.zones := hz ++ yards;
                   PropertyDetector.notes := None;
                   PropertyDetector.total_contours :=
                     Some (List.length
                             (Geometry.large
                                [[(0, 0); (20, 0); (20, 10)]%Z])) |},
              ImageProcessor.__init__)
        /\ (hz = [] \/ exists z, hz = [("house"%string, z)])
        /\ map fst yards
           = ["front_yard"; "back_yard"; "left_yard"; "right_yard"]%string).
Proof.
  apply (property_boundaries_run Datatypes.unit
           (fun _ => (400, 400)%Z) (fun _ => (0, 0, 21, 11)%Z)
           (fun _ => map Cv2.cv_contour [])
           (fun _ => (0, 0, 0)%Q) (fun _ => 0%nat)
           (fun _ => (tt, tt))
           (fun _ _ =>
              (map Cv2.cv_contour [[(0, 0); (20, 0); (20, 10)]%Z], tt))
           tt tt tt tt [[(0, 0); (20, 0); (20, 10)]%Z] []
           ImageProcessor.__init__);
    reflexivity.
Defined.

Section PerimeterPixels.

Import Cv2 Geometry NpMore PropertyDetector ImageProcessor.

Lemma pair_up_even (n : nat) (l : list Z) :
  (List.length l <= n)%nat -> (List.length l mod 2 = 0)%nat ->
  flat_map (fun p => [fst p; snd p]) (pair_up l) = l
  /\ List.length (pair_up l) = (List.length l / 2)%nat.
Proof.
  revert l. induction n as [| n IH]; intros l Hn He.
  - destruct l; [now split | cbn in Hn; lia].
  - destruct l as [| a [| b l]]; [now split | discriminate |].
    cbn [List.length] in *.
    change (S (S (List.length l))) with (1 * 2 + List.length l)%nat in *.
    rewrite Nat.add_comm, Nat.Div0.mod_add in He.
    rewrite Nat.add_comm, Nat.div_add by lia.
    destruct (IH l) as (Hf & Hl); [lia | exact He |].
    cbn [pair_up flat_map fst snd app List.length].
    rewrite Hf, Hl. split; [reflexivity | lia].
Qed.

Lemma reshape_points_even (a : Np.ndarray) :
  (List.length (Np.data a) mod 2 = 0)%nat ->
  reshape_points a = Returns (cv_contour (pair_up (Np.data a))).
Proof.
  intro He. unfold reshape_points. rewrite He. cbn [Nat.eqb].
  destruct (pair_up_even (List.length (Np.data a)) (Np.data a)
              (Nat.le_refl _) He) as (Hf & Hl).
  unfold cv_contour. now rewrite Hf, Hl.
Qed.

Lemma array2_rows (rows : list (list Z)) (k : nat) :
  Forall (fun r => List.length r = k) rows ->
  exists a, array2 rows = Returns a /\ Np.data a = List.concat rows.
Proof.
  intro H. destruct rows as [| r rest]; [eexists; now split |].
  unfold array2.
  assert (Hall : forallb (fun r' => (List.length r' =? List.length r)%nat)
                   (r :: rest) = true).
  { apply forallb_forall. intros r' Hr'. apply Nat.eqb_eq.
    rewrite Forall_forall in H.
    rewrite (H r' Hr'), (H r (or_introl eq_refl)). reflexivity. }
  rewrite Hall. eexists. now split.
Qed.

Lemma cyclic_length_few_points (pts : list point) :
  (List.length pts < 2)%nat -> cyclic_length pts = 0%R.
Proof.
  destruct pts as [| p [| q t]]; cbn [List.length]; intro H; try lia.
  - reflexivity.
  - unfold cyclic_length. cbn [cyclic_pairs app combine map Rsum fold_right].
    rewrite dist_same. lra.
Qed.

Lemma calculate_line_length_value (pts : list point) (self : processor) :
  calculate_line_length (cv_contour pts) self
  = (Returns (cyclic_length pts), self).
Proof.
  rewrite calculate_line_length_run.
  destruct (List.length pts <? 2)%nat eqn:E; [| reflexivity].
  apply Nat.ltb_lt in E. now rewrite cyclic_length_few_points.
Qed.

(** X25: [calculate_perimeter_pixels] does not check that its rows are
    points.  Rows of one common width are flattened: with an even number
    of coordinates in all, consecutive coordinates are paired off and the
    cyclic length of that point sequence is returned, and with an odd
    number the [reshape] raises [ValueError].  For a list of [[x, y]]
    points the result is the cyclic length of the polygon (coordinates as
    exact numbers). *)
Theorem perimeter_pixels_reads_flat_pairs (rows : list (list Z)) (k : nat)
    (self : processor) :
  Forall (fun r => List.length r = k) rows ->
  ((List.length (List.concat rows) mod 2 = 0)%nat ->
   calculate_perimeter_pixels rows self
   = (Returns (cyclic_length (pair_up (List.concat rows))), self))
  /\ ((List.length (List.concat rows) mod 2 <> 0)%nat ->
      exists msg,
        calculate_perimeter_pixels rows self
        = (Raises (ValueError msg), self))
  /\ (forall pts, rows = map point_list pts ->
        calculate_perimeter_pixels rows self
        = (Returns (cyclic_length pts), self)).
Proof.
  intro H. destruct (array2_rows rows k H) as (a & Ha & Hd).
  assert (Heven : (List.length (List.concat rows) mod 2 = 0)%nat ->
                  calculate_perimeter_pixels rows self
                  = (Returns (cyclic_length (pair_up (List.concat rows))),
                     self)).
  { intro He. unfold calculate_perimeter_pixels.
    erewrite mbind_lift_returns
      by (rewrite Ha; cbn [bind]; apply reshape_points_even;
          rewrite Hd; exact He).
    rewrite Hd. apply calculate_line_length_value. }
  split; [exact Heven | split].
  - intro Ho. unfold calculate_perimeter_pixels, mbind, lift.
    rewrite Ha. cbn [bind]. unfold reshape_points. rewrite Hd.
    apply Nat.eqb_neq in Ho. rewrite Ho. eexists. reflexivity.
  - intros pts ->. rewrite Heven.
    + now rewrite concat_point_lists, pair_up_flat_points.
    + rewrite concat_point_lists, flat_points_length.
      rewrite Nat.mul_comm. apply Nat.Div0.mod_mul.
Qed.

End PerimeterPixels.

Lemma perimeter_pixels_reads_flat_pairs_witness :
  ((List.length (List.concat [[0; 0; 3; 4]%Z]) mod 2 = 0)%nat ->
   PropertyDetector.calculate_perimeter_pixels [[0; 0; 3; 4]%Z]
     ImageProcessor.__init__
   = (Returns (Geometry.cyclic_length
                 (Cv2.pair_up (List.concat [[0; 0; 3; 4]%Z]))),
      ImageProcessor.__init__))
  /\ ((List.length (List.concat [[0; 0; 3; 4]%Z]) mod 2 <> 0)%nat ->
      exists msg,
        PropertyDetector.calculate_perimeter_pixels [[0; 0; 3; 4]%Z]
          ImageProcessor.__init__
        = (Raises (ValueError msg), ImageProcessor.__init__))
  /\ (forall pts, [[0; 0; 3; 4]%Z] = map NpMore.point_list pts ->
        PropertyDetector.calculate_perimeter_pixels [[0; 0; 3; 4]%Z]
          ImageProcessor.__init__
        = (Returns (Geometry.cyclic_length pts), ImageProcessor.__init__)).
Proof.
  apply (perimeter_pixels_reads_flat_pairs [[0; 0; 3; 4]%Z] 4
           ImageProcessor.__init__).
  repeat constructor.
Defined.
